(** * use-mcp: connection orchestration and browser credential store

    A shallow embedding of the built sources

      - [dist/chunk-J6MO4N63.js]  (class [BrowserOAuthClientProvider])
      - [dist/index.js]           (function [onMcpAuthorization])
      - [dist/react/index.js]     (hook [useMcp])

    JavaScript strings are Rocq strings (where the code reads the UTF-16
    code units of a text, the engine gives them), [localStorage] is a
    finite map from keys to stored texts, numbers that the code only
    uses as integers (timestamps, the 32-bit hash, counters) are [Z] or
    [nat].
    Everything that the hook leaves to its collaborators (the protocol
    client, the two transports, the SDK routine [auth], the clock, React's
    commit of pending state) is supplied from outside as a script of
    resolutions, so that every definition below is a total, executable
    function. *)

From Stdlib Require Import ZArith String Ascii List Bool Lia.
From stdpp Require Import gmap strings list fin_maps pretty.

Set Warnings "-register-all".

Local Open Scope string_scope.
Local Open Scope Z_scope.

(** ** JavaScript string primitives *)

Module Js.

(** [s.includes(sub)] *)
Definition includes (s sub : string) : bool :=
  match String.index 0 sub s with
  | Some _ => true
  | None => false
  end.

(** [s.startsWith(p)] *)
Definition startsWith (s p : string) : bool := String.prefix p s.

(** The double-quote character, as [JSON.stringify] puts it around a
    string. *)
Definition dquote : string := String (ascii_of_nat 34) EmptyString.

(** [JSON.stringify(s)] for a string without characters that need an
    escape (the URLs and messages the hook logs). *)
Definition quoted (s : string) : string := dquote +:+ s +:+ dquote.

(** [arr.join(sep)] *)
Fixpoint join (sep : string) (l : list string) : string :=
  match l with
  | [] => EmptyString
  | [x] => x
  | x :: rest => x +:+ sep +:+ join sep rest
  end.

(** Truthiness of a string: only the empty string is falsy. *)
Definition truthy (s : string) : bool :=
  match s with
  | EmptyString => false
  | _ => true
  end.

(** [ToInt32]: the wrap-around of every bitwise operator. *)
Definition ToInt32 (z : Z) : Z := (z + 2 ^ 31) mod 2 ^ 32 - 2 ^ 31.

Definition hexDigit (d : Z) : string :=
  String.substring (Z.to_nat d) 1 "0123456789abcdef".

(** [n.toString(16)] for a non-negative integer of at most [fuel]
    hexadecimal digits. *)
Fixpoint toHex (fuel : nat) (n : Z) : string :=
  match fuel with
  | O => hexDigit (n mod 16)
  | S fuel' =>
      if n <? 16 then hexDigit n
      else toHex fuel' (n / 16) +:+ hexDigit (n mod 16)
  end.

(** [Math.abs(h).toString(16)] where [h] is an int32: at most eight
    digits. *)
Definition toString16 (n : Z) : string := toHex 7 n.

(** Decimal rendering of a counter inside a template string. *)
Definition decimal (n : nat) : string := pretty n.

End Js.

(** ** DiagnosticLog: the [log] state of the hook *)

Inductive Level := Debug | Info | Warn | Err.

Record LogEntry := mkLogEntry {
  level : Level;
  message : string;
  timestamp : Z
}.

(** [prevLog.slice(-100)] *)
Definition slice_last (n : nat) {A} (l : list A) : list A :=
  drop (length l - n) l.

(** The updater that [addLog] passes to [setLog]:
    [(prevLog) => [...prevLog.slice(-100), entry]]. *)
Definition setLog_update (entry : LogEntry) (prevLog : list LogEntry)
  : list LogEntry :=
  (slice_last 100 prevLog ++ [entry])%list.

(** A value handed to [addLog] after the message; the log stores its
    [JSON.stringify] rendering. *)
Inductive LogArg :=
| ArgString (s : string)        (* a string *)
| ArgOpaque (rendered : string) (* any other value, already rendered *).

Definition stringify_arg (a : LogArg) : string :=
  match a with
  | ArgString s => Js.quoted s
  | ArgOpaque r => r
  end.

(** [fullMessage] of [addLog]. *)
Definition fullMessage (message : string) (args : list LogArg) : string :=
  match args with
  | [] => message
  | _ => message +:+ " " +:+ Js.join " " (map stringify_arg args)
  end.

(** ** The persisted key-value medium: [localStorage] *)

(** A parsed JSON document.  Numbers are the integers the code stores
    (timestamps). *)
Inductive Json :=
| JNull
| JBool (b : bool)
| JNum (n : Z)
| JStr (s : string)
| JArr (items : list Json)
| JObj (fields : list (string * Json)).

(** A stored text: either the text [JSON.stringify(j)] of a document, kept
    as the document it denotes, or a text written verbatim. *)
Inductive Stored :=
| Raw (text : string)
| Doc (j : Json).

Abbreviation Storage := (gmap string Stored).

(** Result of reading a property [v.name] off a parsed document. *)
Inductive Access :=
| AccessThrows               (* [v] is [null]: a [TypeError] *)
| AccessUndefined
| AccessValue (j : Json).

Fixpoint assoc (name : string) (fields : list (string * Json)) : option Json :=
  match fields with
  | [] => None
  | (k, v) :: rest => if String.eqb k name then Some v else assoc name rest
  end.

Definition getProp (v : Json) (name : string) : Access :=
  match v with
  | JNull => AccessThrows
  | JObj fields =>
      match assoc name fields with
      | Some j => AccessValue j
      | None => AccessUndefined
      end
  | _ => AccessUndefined
  end.

(** Truthiness of a document. *)
Definition json_truthy (v : Json) : bool :=
  match v with
  | JNull => false
  | JBool b => b
  | JNum n => negb (n =? 0)
  | JStr s => Js.truthy s
  | JArr _ | JObj _ => true
  end.

Module LocalStorage.

Definition getItem (key : string) (ls : Storage) : option Stored := ls !! key.
Definition setItem (key : string) (value : Stored) (ls : Storage) : Storage :=
  <[key := value]> ls.
Definition removeItem (key : string) (ls : Storage) : Storage := delete key ls.

(** The keys [localStorage.key(0)], ..., [localStorage.key(length - 1)]. *)
Definition keys (ls : Storage) : list string := (map_to_list ls).*1.

(** Truthiness of what [getItem] returned: [null] and the empty text are
    falsy. *)
Definition present (item : option Stored) : bool :=
  match item with
  | None => false
  | Some (Raw text) => Js.truthy text
  | Some (Doc _) => true
  end.

End LocalStorage.

(** What the JavaScript engine does with operands the embedding does not
    interpret itself. *)
Record Engine := mkEngine {
  (** [JSON.parse] of a text that was not written by [JSON.stringify]:
      [None] is a [SyntaxError]. *)
  parse_raw : string -> option Json;
  (** The text [JSON.stringify(j)]. *)
  stringify : Json -> string;
  (** [v < n] for a truthy operand [v] that is not a number. *)
  loose_lt : Json -> Z -> bool;
  (** The UTF-16 code units of a text, which [str.length] counts and
      [str.charCodeAt(i)] reads. *)
  code_units : string -> list Z;
  (** The text that a template string makes of a value that is not a
      string. *)
  to_string : Json -> string;
  (** [0 < v] for an operand [v] that is neither a number, a boolean
      nor [null]. *)
  zero_lt : Json -> bool
}.

(** The text that [getItem] returns for a stored item. *)
Definition text_of (E : Engine) (item : Stored) : string :=
  match item with
  | Raw text => text
  | Doc j => stringify E j
  end.

Definition JSON_parse (E : Engine) (item : Stored) : option Json :=
  match item with
  | Raw text => parse_raw E text
  | Doc j => Some j
  end.

(** ** CredentialStore: class [BrowserOAuthClientProvider] *)

Module BrowserOAuthClientProvider.

Record t := mk {
  serverUrl : string;
  storageKeyPrefix : string;
  serverUrlHash : string;
  clientName : string;
  clientUri : string;
  callbackUrl : string
}.

Record Options := mkOptions {
  opt_storageKeyPrefix : option string;
  opt_clientName : option string;
  opt_clientUri : option string;
  opt_callbackUrl : option string
}.

(** [o || d] for an optional string option. *)
Definition or_default (o : option string) (d : string) : string :=
  match o with
  | Some s => if Js.truthy s then s else d
  | None => d
  end.

(** One round of the loop of [hashString]:
    [hash = (hash << 5) - hash + char; hash = hash & hash]. *)
Definition hash_step (hash : Z) (char : Z) : Z :=
  let hash := Js.ToInt32 (Z.shiftl (Js.ToInt32 hash) 5) - hash + char in
  Z.land (Js.ToInt32 hash) (Js.ToInt32 hash).

(** The loop of [hashString] over the code units [str.charCodeAt(0)],
    ..., [str.charCodeAt(str.length - 1)]. *)
Fixpoint hash_loop (units : list Z) (hash : Z) : Z :=
  match units with
  | [] => hash
  | char :: rest => hash_loop rest (hash_step hash char)
  end.

Definition hashString (E : Engine) (str : string) : string :=
  Js.toString16 (Z.abs (hash_loop (code_units E str) 0)).

(** The constructor; [origin] is [window.location.origin]. *)
Definition new (E : Engine) (origin : string) (serverUrl : string)
    (options : Options) : t :=
  {| serverUrl := serverUrl;
     storageKeyPrefix := or_default (opt_storageKeyPrefix options) "mcp:auth";
     serverUrlHash := hashString E serverUrl;
     clientName := or_default (opt_clientName options) "MCP Browser Client";
     clientUri := or_default (opt_clientUri options) origin;
     callbackUrl :=
       or_default (opt_callbackUrl options) (origin +:+ "/oauth/callback") |}.

Definition getKey (this : t) (keySuffix : string) : string :=
  storageKeyPrefix this +:+ "_" +:+ serverUrlHash this +:+ "_" +:+ keySuffix.

(** [clientInformation] and [tokens]: the parsed entry, the entry being
    dropped when it does not parse. *)
Definition read_json (E : Engine) (key : string) (ls : Storage)
  : option Json * Storage :=
  let data := LocalStorage.getItem key ls in
  if negb (LocalStorage.present data) then (None, ls)
  else match data with
       | Some item =>
           match JSON_parse E item with
           | Some j => (Some j, ls)
           | None => (None, LocalStorage.removeItem key ls)
           end
       | None => (None, ls)
       end.

Definition clientInformation (E : Engine) (this : t) (ls : Storage) :=
  read_json E (getKey this "client_info") ls.

Definition saveClientInformation (this : t) (clientInformation : Json)
    (ls : Storage) : Storage :=
  LocalStorage.setItem (getKey this "client_info") (Doc clientInformation) ls.

Definition tokens (E : Engine) (this : t) (ls : Storage) :=
  read_json E (getKey this "tokens") ls.

Definition saveTokens (this : t) (tokens : Json) (ls : Storage) : Storage :=
  let ls := LocalStorage.setItem (getKey this "tokens") (Doc tokens) ls in
  let ls := LocalStorage.removeItem (getKey this "code_verifier") ls in
  LocalStorage.removeItem (getKey this "last_auth_url") ls.

Definition saveCodeVerifier (this : t) (codeVerifier : string) (ls : Storage)
  : Storage :=
  LocalStorage.setItem (getKey this "code_verifier") (Raw codeVerifier) ls.

(** [codeVerifier]: the stored text, or the message of the error thrown
    when there is none. *)
Definition codeVerifier (E : Engine) (this : t) (ls : Storage)
  : string + string :=
  let key := getKey this "code_verifier" in
  let verifier := LocalStorage.getItem key ls in
  match verifier with
  | Some item =>
      if LocalStorage.present verifier then inl (text_of E item) else
      inr ("[" +:+ storageKeyPrefix this
           +:+ "] Code verifier not found in storage for key " +:+ key
           +:+ ". Auth flow likely corrupted or timed out.")
  | None =>
      inr ("[" +:+ storageKeyPrefix this
           +:+ "] Code verifier not found in storage for key " +:+ key
           +:+ ". Auth flow likely corrupted or timed out.")
  end.

(** The correlation record [stateData] of [redirectToAuthorization]
    written at time [now]. *)
Definition stateData (this : t) (now : Z) : Json :=
  JObj [ ("serverUrlHash", JStr (serverUrlHash this));
         ("expiry", JNum (now + 1000 * 60 * 10));
         ("providerOptions",
           JObj [ ("serverUrl", JStr (serverUrl this));
                  ("storageKeyPrefix", JStr (storageKeyPrefix this));
                  ("clientName", JStr (clientName this));
                  ("clientUri", JStr (clientUri this));
                  ("callbackUrl", JStr (callbackUrl this)) ]) ].

(** The key under which [redirectToAuthorization] persists the record of
    the correlation token [state]. *)
Definition stateKey (this : t) (state : string) : string :=
  storageKeyPrefix this +:+ ":state_" +:+ state.

(** [redirectToAuthorization]: [state] is the value of
    [crypto.randomUUID()], [now] of [Date.now()], and [render state] the
    text of the authorization URL once its [state] search parameter is
    set.  The popup has no effect on the store.  Returns the store and
    the URL handed to [window.open]. *)
Definition redirectToAuthorization (this : t) (state : string) (now : Z)
    (render : string -> string) (ls : Storage) : Storage * string :=
  let ls := LocalStorage.setItem (stateKey this state)
              (Doc (stateData this now)) ls in
  let authUrlString := render state in
  let ls := LocalStorage.setItem (getKey this "last_auth_url")
              (Raw authUrlString) ls in
  (ls, authUrlString).

(** [getLastAttemptedAuthUrl]: a stored text or [null]. *)
Definition getLastAttemptedAuthUrl (E : Engine) (this : t) (ls : Storage)
  : option string :=
  text_of E <$> LocalStorage.getItem (getKey this "last_auth_url") ls.

(** [state.serverUrlHash === this.serverUrlHash] on the parsed text of a
    correlation record; [None] when reading the property throws. *)
Definition record_matches (this : t) (state : Json) : option bool :=
  match getProp state "serverUrlHash" with
  | AccessThrows => None
  | AccessUndefined => Some false
  | AccessValue (JStr h) => Some (String.eqb h (serverUrlHash this))
  | AccessValue _ => Some false
  end.

(** The body of the scanning loop of [clearStorage] for one key. *)
Definition scan (E : Engine) (this : t) (ls : Storage)
    (keysToRemove : list string) (key : string) : list string :=
  let prefixPattern :=
    storageKeyPrefix this +:+ "_" +:+ serverUrlHash this +:+ "_" in
  let statePattern := storageKeyPrefix this +:+ ":state_" in
  if negb (Js.truthy key) then keysToRemove
  else if Js.startsWith key prefixPattern then (keysToRemove ++ [key])%list
  else if Js.startsWith key statePattern then
    let item := LocalStorage.getItem key ls in
    if LocalStorage.present item then
      match item with
      | Some text =>
          match JSON_parse E text with
          | Some state =>
              match record_matches this state with
              | Some true => (keysToRemove ++ [key])%list
              | Some false => keysToRemove
              | None => keysToRemove          (* caught, warning only *)
              end
          | None => keysToRemove              (* caught, warning only *)
          end
      | None => keysToRemove
      end
    else keysToRemove
  else keysToRemove.

(** [[...new Set(keysToRemove)]] *)
Definition unique (l : list string) : list string :=
  fold_left (fun acc k => if decide (k ∈ acc) then acc else (acc ++ [k])%list) l [].

(** [(key) => { localStorage.removeItem(key); count++; }] *)
Definition removal (acc : nat * Storage) (key : string) : nat * Storage :=
  let '(count, ls) := acc in (S count, LocalStorage.removeItem key ls).

(** [clearStorage]: the number of removed entries and the store. *)
Definition clearStorage (E : Engine) (this : t) (ls : Storage)
  : nat * Storage :=
  let keysToRemove := fold_left (scan E this ls) (LocalStorage.keys ls) [] in
  let uniqueKeysToRemove := unique keysToRemove in
  fold_left removal uniqueKeysToRemove (O, ls).

End BrowserOAuthClientProvider.

(** ** Errors and the SDK routine [auth] *)

(** A thrown [Error]: whether it is an instance of the SDK's
    [UnauthorizedError], its message, and the text [JSON.stringify(err)],
    which shows its own enumerable fields. *)
Record JsError := mkJsError {
  isUnauthorizedError : bool;
  err_message : string;
  err_json : string
}.

(** An error without enumerable field of its own, as [Error] and
    [UnauthorizedError] are. *)
Definition mkError (isUnauthorizedError : bool) (message : string) : JsError :=
  mkJsError isUnauthorizedError message "{}".

(** [new Error(message)] *)
Definition new_Error (message : string) : JsError := mkError false message.

(** How one call of [auth(provider, ...)] settles: what it does to the
    store through the provider it was given, and the status text it
    returns or the error it throws. *)
Record AuthSettlement := mkAuth {
  auth_store : Storage -> Storage;
  auth_result : string + JsError
}.

(** ** Callback completion handler: [onMcpAuthorization] *)

Module Callback.

Import BrowserOAuthClientProvider.

(** The query parameters of the callback address, as
    [URLSearchParams.get] returns them. *)
Record Query := mkQuery {
  q_code : option string;
  q_state : option string;
  q_error : option string;
  q_error_description : option string
}.

(** What the handler does to the windows. *)
Inductive Effect :=
| PostMessage (success : bool) (error : option string)
| WindowClose
| Navigate (href : string)
| RenderError (errorMessage : string).

Inductive Outcome :=
| Completed
| Failed (errorMessage : string).

Record Result := mkResult {
  outcome : Outcome;
  storage : Storage;
  effects : list Effect
}.

(** Truthiness of a parameter: [null] and the empty string are falsy. *)
Definition given (p : option string) : bool :=
  match p with
  | Some s => Js.truthy s
  | None => false
  end.

Definition text (p : option string) : string := default "null" p.

(** [const stateKey = state ? `mcp:auth:state_${state}` : null] *)
Definition stateKey (state : option string) : option string :=
  if given state then Some ("mcp:auth:state_" +:+ text state) else None.

(** The [catch] block. *)
Definition on_error (stateKey : option string) (provider : option t)
    (opener : bool) (errorMessage : string) (ls : Storage) : Result :=
  let post :=
    if opener then [PostMessage false (Some errorMessage)] else [] in
  let ls :=
    match stateKey with
    | Some key => LocalStorage.removeItem key ls
    | None => ls
    end in
  let ls :=
    match provider with
    | Some provider =>
        LocalStorage.removeItem (getKey provider "last_auth_url")
          (LocalStorage.removeItem (getKey provider "code_verifier") ls)
    | None => ls
    end in
  {| outcome := Failed errorMessage;
     storage := ls;
     effects := (post ++ [RenderError errorMessage])%list |}.

(** [!storedStateData.expiry || storedStateData.expiry < Date.now()];
    [None] when reading the property throws. *)
Definition expired (E : Engine) (storedStateData : Json) (now : Z)
  : option bool :=
  match getProp storedStateData "expiry" with
  | AccessThrows => None
  | AccessUndefined => Some true
  | AccessValue expiry =>
      if negb (json_truthy expiry) then Some true
      else match expiry with
           | JNum n => Some (n <? now)
           | other => Some (loose_lt E other now)
           end
  end.

(** The text that a template string makes of a value. *)
Definition template (E : Engine) (v : Json) : string :=
  match v with
  | JStr s => s
  | other => to_string E other
  end.

(** [options[name] || d], as the constructor keeps it: any truthy value
    that the record gives, else the default. *)
Definition field_or (E : Engine) (options : Json) (name : string)
    (d : string) : string :=
  match getProp options name with
  | AccessValue v => if json_truthy v then template E v else d
  | _ => d
  end.

(** [0 < v], the test of the loop of [hashString] on [str.length]. *)
Definition positive (E : Engine) (v : Json) : bool :=
  match v with
  | JNum n => 0 <? n
  | JBool b => b
  | JNull => false
  | other => zero_lt E other
  end.

(** [this.hashString(serverUrl)] for the [serverUrl] that the record
    gives: the hash, or the message of the [TypeError] thrown.  [null]
    and [undefined] have no property [length]; a number and a boolean
    have none either, an empty array has length 0, and the loop does not
    run; an array or an object whose [length] passes the test of the
    loop has no method [charCodeAt]. *)
Definition hash_of (E : Engine) (serverUrl : Access) : string + string :=
  let unread := inl (Js.toString16 (Z.abs (hash_loop [] 0))) in
  let no_method := inr "str.charCodeAt is not a function" in
  match serverUrl with
  | AccessThrows =>
      inr "Cannot destructure property 'serverUrl' of 'storedStateData.providerOptions' as it is null."
  | AccessUndefined =>
      inr "Cannot read properties of undefined (reading 'length')"
  | AccessValue JNull => inr "Cannot read properties of null (reading 'length')"
  | AccessValue (JStr str) => inl (hashString E str)
  | AccessValue (JNum _) | AccessValue (JBool _) => unread
  | AccessValue (JArr []) => unread
  | AccessValue (JArr (_ :: _)) => no_method
  | AccessValue (JObj fields) =>
      match assoc "length" fields with
      | Some length => if positive E length then no_method else unread
      | None => unread
      end
  end.

(** [const { serverUrl, ...providerOptions } = storedStateData.providerOptions;
     provider = new BrowserOAuthClientProvider(serverUrl, providerOptions)]:
    the constructor on the values that the record gives, which
    [StoredState] types as strings but which are whatever was parsed.
    The result is the provider, or the message of the [TypeError] that
    [hashString] throws.  A field holds the text that a template string
    makes of its value, which is how the handler reads it. *)
Definition reconstruct (E : Engine) (origin : string) (options : Json)
  : t + string :=
  let serverUrl := getProp options "serverUrl" in
  match hash_of E serverUrl with
  | inr typeError => inr typeError
  | inl hash =>
      inl {| serverUrl :=
               match serverUrl with
               | AccessValue v => template E v
               | _ => EmptyString
               end;
             storageKeyPrefix := field_or E options "storageKeyPrefix" "mcp:auth";
             serverUrlHash := hash;
             clientName := field_or E options "clientName" "MCP Browser Client";
             clientUri := field_or E options "clientUri" origin;
             callbackUrl :=
               field_or E options "callbackUrl" (origin +:+ "/oauth/callback") |}
  end.

(** [onMcpAuthorization]: [origin] is the origin of the callback window,
    [opener] tells whether [window.opener] is there and not closed, [now]
    is [Date.now()] at the expiry test, and [exchange] settles the call
    [auth(provider, { serverUrl, authorizationCode: code })]. *)
Definition onMcpAuthorization (E : Engine) (origin : string) (opener : bool)
    (now : Z) (exchange : AuthSettlement) (query : Query) (ls : Storage)
  : Result :=
  let code := q_code query in
  let state := q_state query in
  let error := q_error query in
  let errorDescription := q_error_description query in
  let stateKey := stateKey state in
  let throw := on_error stateKey None opener in
  if given error then
    throw ("OAuth error: " +:+ text error +:+ " - " +:+
           (if given errorDescription then text errorDescription
            else "No description provided.")) ls
  else if negb (given code) then
    throw "Authorization code not found in callback query parameters." ls
  else
    match stateKey with
    | None =>
        throw "State parameter not found or invalid in callback query parameters." ls
    | Some key =>
        let storedStateJSON := LocalStorage.getItem key ls in
        match storedStateJSON with
        | Some item =>
          if negb (LocalStorage.present storedStateJSON) then
            throw ("Invalid or expired state parameter " +:+ Js.quoted (text state)
                   +:+ ". No matching state found in storage.") ls
          else
            match JSON_parse E item with
            | None => throw "Failed to parse stored OAuth state." ls
            | Some storedStateData =>
                match expired E storedStateData now with
                | None =>
                    throw "Cannot read properties of null (reading 'expiry')" ls
                | Some true =>
                    throw "OAuth state has expired. Please try initiating authentication again."
                      (LocalStorage.removeItem key ls)
                | Some false =>
                    match getProp storedStateData "providerOptions" with
                    | AccessValue options =>
                        if negb (json_truthy options) then
                          throw "Stored state is missing required provider options." ls
                        else
                          match reconstruct E origin options with
                          | inr typeError => throw typeError ls
                          | inl provider =>
                              let ls := auth_store exchange ls in
                              let throw := on_error stateKey (Some provider) opener in
                              match auth_result exchange with
                              | inr err => throw (err_message err) ls
                              | inl authResult =>
                                  if String.eqb authResult "AUTHORIZED" then
                                    {| outcome := Completed;
                                       storage := LocalStorage.removeItem key ls;
                                       effects :=
                                         if opener
                                         then [PostMessage true None; WindowClose]
                                         else [Navigate "/"] |}
                                  else
                                    throw ("Unexpected result from authentication library: "
                                           +:+ authResult) ls
                              end
                          end
                    | _ => throw "Stored state is missing required provider options." ls
                    end
                end
            end
        | None =>
            throw ("Invalid or expired state parameter " +:+ Js.quoted (text state)
                   +:+ ". No matching state found in storage.") ls
        end
    end.

End Callback.

(** ** ConnectionOrchestrator: the hook [useMcp] *)

Module UseMcp.

Inductive ConnState :=
| discovering | authenticating | connecting | loading | ready | failed.

Definition state_name (s : ConnState) : string :=
  match s with
  | discovering => "discovering"
  | authenticating => "authenticating"
  | connecting => "connecting"
  | loading => "loading"
  | ready => "ready"
  | failed => "failed"
  end.

Inductive TransportType := http | sse.

Definition toUpperCase (transportType : TransportType) : string :=
  match transportType with
  | http => "HTTP"
  | sse => "SSE"
  end.

(** The identity [{ name, version }] given to [new Client]. *)
Record Client := mkClient {
  client_name : string;
  client_version : string
}.

(** Calls that leave the hook, in the order they are made. *)
Inductive Event :=
| Connect                                (* [connect()] went past its guards *)
| Attempt (transportType : TransportType) (* [tryConnectWithTransport] *)
| NewTransport (transportType : TransportType)
| CloseTransport (transportType : TransportType)
| ClientConnect (transportType : TransportType)
| Request (method : string)              (* [clientRef.current.request] *)
| Auth                                   (* [auth(provider, { serverUrl })] *)
| FailConnection (errorMessage : string).

(** The state of one hook instance: the React state variables, the refs,
    and what lies outside (the store, the clock, the calls made so
    far). *)
Record Hook := mkHook {
  state : ConnState;
  tools : list Json;
  resources : list Json;
  prompts : list Json;
  error : option string;
  log : list LogEntry;
  authUrl : option string;
  clientRef : option Client;
  transportRef : option TransportType;
  authProviderRef : option BrowserOAuthClientProvider.t;
  connectingRef : bool;
  isMountedRef : bool;
  connectAttemptRef : nat;
  authTimeoutRef : bool;
  stateRef : ConnState;
  successfulTransportRef : option TransportType;
  localStorage : Storage;
  clock : Z;
  trace : list Event
}.

(** Assignment to one variable or ref. *)

Definition set_state (v : ConnState) (h : Hook) : Hook :=
  {| state := v; tools := tools h; resources := resources h; prompts :=
     prompts h; error := error h; log := log h; authUrl := authUrl h; clientRef
     := clientRef h; transportRef := transportRef h; authProviderRef :=
     authProviderRef h; connectingRef := connectingRef h; isMountedRef :=
     isMountedRef h; connectAttemptRef := connectAttemptRef h; authTimeoutRef :=
     authTimeoutRef h; stateRef := stateRef h; successfulTransportRef :=
     successfulTransportRef h; localStorage := localStorage h; clock := clock h;
     trace := trace h |}.

Definition set_tools (v : list Json) (h : Hook) : Hook :=
  {| state := state h; tools := v; resources := resources h; prompts :=
     prompts h; error := error h; log := log h; authUrl := authUrl h; clientRef
     := clientRef h; transportRef := transportRef h; authProviderRef :=
     authProviderRef h; connectingRef := connectingRef h; isMountedRef :=
     isMountedRef h; connectAttemptRef := connectAttemptRef h; authTimeoutRef :=
     authTimeoutRef h; stateRef := stateRef h; successfulTransportRef :=
     successfulTransportRef h; localStorage := localStorage h; clock := clock h;
     trace := trace h |}.

Definition set_resources (v : list Json) (h : Hook) : Hook :=
  {| state := state h; tools := tools h; resources := v; prompts := prompts h;
     error := error h; log := log h; authUrl := authUrl h; clientRef := clientRef
     h; transportRef := transportRef h; authProviderRef := authProviderRef h;
     connectingRef := connectingRef h; isMountedRef := isMountedRef h;
     connectAttemptRef := connectAttemptRef h; authTimeoutRef := authTimeoutRef
     h; stateRef := stateRef h; successfulTransportRef := successfulTransportRef
     h; localStorage := localStorage h; clock := clock h; trace := trace h |}.

Definition set_prompts (v : list Json) (h : Hook) : Hook :=
  {| state := state h; tools := tools h; resources := resources h; prompts :=
     v; error := error h; log := log h; authUrl := authUrl h; clientRef :=
     clientRef h; transportRef := transportRef h; authProviderRef :=
     authProviderRef h; connectingRef := connectingRef h; isMountedRef :=
     isMountedRef h; connectAttemptRef := connectAttemptRef h; authTimeoutRef :=
     authTimeoutRef h; stateRef := stateRef h; successfulTransportRef :=
     successfulTransportRef h; localStorage := localStorage h; clock := clock h;
     trace := trace h |}.

Definition set_error (v : option string) (h : Hook) : Hook :=
  {| state := state h; tools := tools h; resources := resources h; prompts :=
     prompts h; error := v; log := log h; authUrl := authUrl h; clientRef :=
     clientRef h; transportRef := transportRef h; authProviderRef :=
     authProviderRef h; connectingRef := connectingRef h; isMountedRef :=
     isMountedRef h; connectAttemptRef := connectAttemptRef h; authTimeoutRef :=
     authTimeoutRef h; stateRef := stateRef h; successfulTransportRef :=
     successfulTransportRef h; localStorage := localStorage h; clock := clock h;
     trace := trace h |}.

Definition set_log (v : list LogEntry) (h : Hook) : Hook :=
  {| state := state h; tools := tools h; resources := resources h; prompts :=
     prompts h; error := error h; log := v; authUrl := authUrl h; clientRef :=
     clientRef h; transportRef := transportRef h; authProviderRef :=
     authProviderRef h; connectingRef := connectingRef h; isMountedRef :=
     isMountedRef h; connectAttemptRef := connectAttemptRef h; authTimeoutRef :=
     authTimeoutRef h; stateRef := stateRef h; successfulTransportRef :=
     successfulTransportRef h; localStorage := localStorage h; clock := clock h;
     trace := trace h |}.

Definition set_authUrl (v : option string) (h : Hook) : Hook :=
  {| state := state h; tools := tools h; resources := resources h; prompts :=
     prompts h; error := error h; log := log h; authUrl := v; clientRef :=
     clientRef h; transportRef := transportRef h; authProviderRef :=
     authProviderRef h; connectingRef := connectingRef h; isMountedRef :=
     isMountedRef h; connectAttemptRef := connectAttemptRef h; authTimeoutRef :=
     authTimeoutRef h; stateRef := stateRef h; successfulTransportRef :=
     successfulTransportRef h; localStorage := localStorage h; clock := clock h;
     trace := trace h |}.

Definition set_clientRef (v : option Client) (h : Hook) : Hook :=
  {| state := state h; tools := tools h; resources := resources h; prompts :=
     prompts h; error := error h; log := log h; authUrl := authUrl h; clientRef
     := v; transportRef := transportRef h; authProviderRef := authProviderRef h;
     connectingRef := connectingRef h; isMountedRef := isMountedRef h;
     connectAttemptRef := connectAttemptRef h; authTimeoutRef := authTimeoutRef
     h; stateRef := stateRef h; successfulTransportRef := successfulTransportRef
     h; localStorage := localStorage h; clock := clock h; trace := trace h |}.

Definition set_transportRef (v : option TransportType) (h : Hook) : Hook :=
  {| state := state h; tools := tools h; resources := resources h; prompts :=
     prompts h; error := error h; log := log h; authUrl := authUrl h; clientRef
     := clientRef h; transportRef := v; authProviderRef := authProviderRef h;
     connectingRef := connectingRef h; isMountedRef := isMountedRef h;
     connectAttemptRef := connectAttemptRef h; authTimeoutRef := authTimeoutRef
     h; stateRef := stateRef h; successfulTransportRef := successfulTransportRef
     h; localStorage := localStorage h; clock := clock h; trace := trace h |}.

Definition set_authProviderRef (v : option BrowserOAuthClientProvider.t) (h : Hook) : Hook :=
  {| state := state h; tools := tools h; resources := resources h; prompts :=
     prompts h; error := error h; log := log h; authUrl := authUrl h; clientRef
     := clientRef h; transportRef := transportRef h; authProviderRef := v;
     connectingRef := connectingRef h; isMountedRef := isMountedRef h;
     connectAttemptRef := connectAttemptRef h; authTimeoutRef := authTimeoutRef
     h; stateRef := stateRef h; successfulTransportRef := successfulTransportRef
     h; localStorage := localStorage h; clock := clock h; trace := trace h |}.

Definition set_connectingRef (v : bool) (h : Hook) : Hook :=
  {| state := state h; tools := tools h; resources := resources h; prompts :=
     prompts h; error := error h; log := log h; authUrl := authUrl h; clientRef
     := clientRef h; transportRef := transportRef h; authProviderRef :=
     authProviderRef h; connectingRef := v; isMountedRef := isMountedRef h;
     connectAttemptRef := connectAttemptRef h; authTimeoutRef := authTimeoutRef
     h; stateRef := stateRef h; successfulTransportRef := successfulTransportRef
     h; localStorage := localStorage h; clock := clock h; trace := trace h |}.

Definition set_isMountedRef (v : bool) (h : Hook) : Hook :=
  {| state := state h; tools := tools h; resources := resources h; prompts :=
     prompts h; error := error h; log := log h; authUrl := authUrl h; clientRef
     := clientRef h; transportRef := transportRef h; authProviderRef :=
     authProviderRef h; connectingRef := connectingRef h; isMountedRef := v;
     connectAttemptRef := connectAttemptRef h; authTimeoutRef := authTimeoutRef
     h; stateRef := stateRef h; successfulTransportRef := successfulTransportRef
     h; localStorage := localStorage h; clock := clock h; trace := trace h |}.

Definition set_connectAttemptRef (v : nat) (h : Hook) : Hook :=
  {| state := state h; tools := tools h; resources := resources h; prompts :=
     prompts h; error := error h; log := log h; authUrl := authUrl h; clientRef
     := clientRef h; transportRef := transportRef h; authProviderRef :=
     authProviderRef h; connectingRef := connectingRef h; isMountedRef :=
     isMountedRef h; connectAttemptRef := v; authTimeoutRef := authTimeoutRef h;
     stateRef := stateRef h; successfulTransportRef := successfulTransportRef h;
     localStorage := localStorage h; clock := clock h; trace := trace h |}.

Definition set_authTimeoutRef (v : bool) (h : Hook) : Hook :=
  {| state := state h; tools := tools h; resources := resources h; prompts :=
     prompts h; error := error h; log := log h; authUrl := authUrl h; clientRef
     := clientRef h; transportRef := transportRef h; authProviderRef :=
     authProviderRef h; connectingRef := connectingRef h; isMountedRef :=
     isMountedRef h; connectAttemptRef := connectAttemptRef h; authTimeoutRef :=
     v; stateRef := stateRef h; successfulTransportRef := successfulTransportRef
     h; localStorage := localStorage h; clock := clock h; trace := trace h |}.

Definition set_stateRef (v : ConnState) (h : Hook) : Hook :=
  {| state := state h; tools := tools h; resources := resources h; prompts :=
     prompts h; error := error h; log := log h; authUrl := authUrl h; clientRef
     := clientRef h; transportRef := transportRef h; authProviderRef :=
     authProviderRef h; connectingRef := connectingRef h; isMountedRef :=
     isMountedRef h; connectAttemptRef := connectAttemptRef h; authTimeoutRef :=
     authTimeoutRef h; stateRef := v; successfulTransportRef :=
     successfulTransportRef h; localStorage := localStorage h; clock := clock h;
     trace := trace h |}.

Definition set_successfulTransportRef (v : option TransportType) (h : Hook) : Hook :=
  {| state := state h; tools := tools h; resources := resources h; prompts :=
     prompts h; error := error h; log := log h; authUrl := authUrl h; clientRef
     := clientRef h; transportRef := transportRef h; authProviderRef :=
     authProviderRef h; connectingRef := connectingRef h; isMountedRef :=
     isMountedRef h; connectAttemptRef := connectAttemptRef h; authTimeoutRef :=
     authTimeoutRef h; stateRef := stateRef h; successfulTransportRef := v;
     localStorage := localStorage h; clock := clock h; trace := trace h |}.

Definition set_localStorage (v : Storage) (h : Hook) : Hook :=
  {| state := state h; tools := tools h; resources := resources h; prompts :=
     prompts h; error := error h; log := log h; authUrl := authUrl h; clientRef
     := clientRef h; transportRef := transportRef h; authProviderRef :=
     authProviderRef h; connectingRef := connectingRef h; isMountedRef :=
     isMountedRef h; connectAttemptRef := connectAttemptRef h; authTimeoutRef :=
     authTimeoutRef h; stateRef := stateRef h; successfulTransportRef :=
     successfulTransportRef h; localStorage := v; clock := clock h; trace :=
     trace h |}.

Definition set_clock (v : Z) (h : Hook) : Hook :=
  {| state := state h; tools := tools h; resources := resources h; prompts :=
     prompts h; error := error h; log := log h; authUrl := authUrl h; clientRef
     := clientRef h; transportRef := transportRef h; authProviderRef :=
     authProviderRef h; connectingRef := connectingRef h; isMountedRef :=
     isMountedRef h; connectAttemptRef := connectAttemptRef h; authTimeoutRef :=
     authTimeoutRef h; stateRef := stateRef h; successfulTransportRef :=
     successfulTransportRef h; localStorage := localStorage h; clock := v; trace
     := trace h |}.

Definition set_trace (v : list Event) (h : Hook) : Hook :=
  {| state := state h; tools := tools h; resources := resources h; prompts :=
     prompts h; error := error h; log := log h; authUrl := authUrl h; clientRef
     := clientRef h; transportRef := transportRef h; authProviderRef :=
     authProviderRef h; connectingRef := connectingRef h; isMountedRef :=
     isMountedRef h; connectAttemptRef := connectAttemptRef h; authTimeoutRef :=
     authTimeoutRef h; stateRef := stateRef h; successfulTransportRef :=
     successfulTransportRef h; localStorage := localStorage h; clock := clock h;
     trace := v |}.

#[global] Instance ConnState_eq_dec : EqDecision ConnState.
Proof. solve_decision. Defined.

#[global] Instance TransportType_eq_dec : EqDecision TransportType.
Proof. solve_decision. Defined.

Definition record (e : Event) (h : Hook) : Hook :=
  set_trace (trace h ++ [e])%list h.

(** The browser around the hook. *)
Record Browser := mkBrowser {
  origin : string;                        (* [window.location.origin] *)
  (** the message of the [TypeError] of [new URL(url)], when it throws *)
  invalid_url : string -> option string
}.

(** The options of [useMcp] that [connect] and the operations read. *)
Record Options := mkOptions {
  url : string;
  clientName : option string;
  clientUri : option string;
  callbackUrl : option string;
  storageKeyPrefix : option string;
  clientConfig_name : option string;
  clientConfig_version : option string
}.

Section Hook.

Variable E : Engine.
Variable B : Browser.
Variable O : Options.

(** [new BrowserOAuthClientProvider(url, { storageKeyPrefix, clientName,
    clientUri, callbackUrl })], with the defaults of the options. *)
Definition new_provider : BrowserOAuthClientProvider.t :=
  BrowserOAuthClientProvider.new E (origin B) (url O)
    {| BrowserOAuthClientProvider.opt_storageKeyPrefix :=
         Some (default "mcp:auth" (storageKeyPrefix O));
       BrowserOAuthClientProvider.opt_clientName := clientName O;
       BrowserOAuthClientProvider.opt_clientUri := clientUri O;
       BrowserOAuthClientProvider.opt_callbackUrl :=
         Some (default (origin B +:+ "/oauth/callback") (callbackUrl O)) |}.

Definition new_client : Client :=
  {| client_name :=
       BrowserOAuthClientProvider.or_default (clientConfig_name O)
         "use-mcp-react-client";
     client_version :=
       BrowserOAuthClientProvider.or_default (clientConfig_version O) "0.1.0" |}.

(** [addLog]: the console aside, an entry is appended while mounted. *)
Definition addLog (level : Level) (message : string) (args : list LogArg)
    (h : Hook) : Hook :=
  if isMountedRef h then
    set_log (setLog_update
               {| level := level;
                  message := fullMessage message args;
                  timestamp := clock h |} (log h)) h
  else h.

(** [disconnect(quiet)]; [closing] is the error with which
    [transport.close()] rejects, if it does. *)
Definition disconnect (quiet : bool) (closing : option JsError) (h : Hook)
  : Hook :=
  let h := if quiet then h else addLog Info "Disconnecting..." [] h in
  let h := set_connectingRef false h in
  let h := set_authTimeoutRef false h in
  let transport := transportRef h in
  let h := set_clientRef None h in
  let h := set_transportRef None h in
  let h :=
    if isMountedRef h && negb quiet then
      set_authUrl None (set_error None (set_prompts [] (set_resources []
        (set_tools [] (set_state discovering h)))))
    else h in
  match transport with
  | Some transportType =>
      let h := record (CloseTransport transportType) h in
      if quiet then h
      else match closing with
           | None => addLog Debug "Transport closed" [] h
           | Some err =>
               addLog Warn "Error closing transport:" [ArgOpaque (err_json err)] h
           end
  | None => h
  end.

(** [failConnection(errorMessage, connectionError)] *)
Definition failConnection (errorMessage : string)
    (connectionError : option JsError) (h : Hook) : Hook :=
  let h := record (FailConnection errorMessage) h in
  let h := addLog Err errorMessage
             [match connectionError with
              | Some err => ArgOpaque (err_json err)
              | None => ArgString EmptyString
              end] h in
  let h :=
    if isMountedRef h then
      let h := set_state failed h in
      let h := set_error (Some errorMessage) h in
      let manualUrl :=
        authProviderRef h ≫= fun provider =>
          BrowserOAuthClientProvider.getLastAttemptedAuthUrl E provider
            (localStorage h) in
      match manualUrl with
      | Some manualUrl =>
          if Js.truthy manualUrl then
            addLog Info "Manual authentication URL may be available."
              [ArgString manualUrl] (set_authUrl (Some manualUrl) h)
          else h
      | None => h
      end
    else h in
  set_connectingRef false h.

(** *** What happens while an [await] is suspended *)

Inductive Interrupt :=
| Commit              (* React commits and runs the effect
                         [stateRef.current = state] *)
| Unmount             (* the clean-ups of the effects run *)
| Elapse (ms : Z).    (* time passes *)

#[global] Instance Interrupt_eq_dec : EqDecision Interrupt.
Proof. solve_decision. Defined.

Definition unmount (h : Hook) : Hook :=
  if isMountedRef h then
    let h := addLog Debug "Auth callback message listener removed." [] h in
    let h := set_isMountedRef false h in
    let h := addLog Debug "useMcp unmounting, disconnecting." [] h in
    disconnect true None h
  else h.

Definition interrupt (h : Hook) (i : Interrupt) : Hook :=
  match i with
  | Commit => if isMountedRef h then set_stateRef (state h) h else h
  | Unmount => unmount h
  | Elapse ms => set_clock (clock h + ms) h
  end.

(** An awaited promise: what happens before it settles, and how it
    settles. *)
Record Await (A : Type) := mkAwait {
  meanwhile : list Interrupt;
  settles : A
}.
Arguments mkAwait {A} _ _.
Arguments meanwhile {A} _.
Arguments settles {A} _.

Definition during {A} (a : Await A) (h : Hook) : Hook :=
  fold_left interrupt (meanwhile a) h.

(** The three results of [Promise.allSettled]: a list, or the text of
    the rejection reason. *)
Record Listing := mkListing {
  toolsResponse : list Json + string;
  resourcesResponse : list Json + string;
  promptsResponse : list Json + string
}.

(** How the promises awaited by one call of [tryConnectWithTransport]
    settle. *)
Record Script := mkScript {
  on_close : Await (option JsError);    (* [transportRef.current.close()] *)
  on_connect : Await (option JsError);  (* [clientRef.current.connect(..)] *)
  on_list : Await Listing;              (* [Promise.allSettled([...])] *)
  on_auth : Await AuthSettlement        (* [auth(provider, { serverUrl })] *)
}.

(** *** [connect] and [tryConnectWithTransport] *)

(** The strings returned by [tryConnectWithTransport]. *)
Inductive TryResult := r_success | r_fallback | r_auth_redirect | r_failed.

#[global] Instance TryResult_eq_dec : EqDecision TryResult.
Proof. solve_decision. Defined.

Definition status_name (r : TryResult) : string :=
  match r with
  | r_success => "success"
  | r_fallback => "fallback"
  | r_auth_redirect => "auth_redirect"
  | r_failed => "failed"
  end.

(** Where an attempt is suspended. *)
Inductive Suspended :=
| AwaitClose (transportType : TransportType)
| AwaitConnect (transportType : TransportType).

Definition leg (s : Suspended) : TransportType :=
  match s with
  | AwaitClose t | AwaitConnect t => t
  end.

Definition is404 (errorMessage : string) : bool :=
  Js.includes errorMessage "404" || Js.includes errorMessage "Not Found".

Definition is405 (errorMessage : string) : bool :=
  Js.includes errorMessage "405"
  || Js.includes errorMessage "Method Not Allowed".

Definition isLikelyCors (errorMessage : string) : bool :=
  String.eqb errorMessage "Failed to fetch"
  || String.eqb errorMessage "NetworkError when attempting to fetch resource."
  || String.eqb errorMessage "Load failed".

(** [errorInstance instanceof UnauthorizedError
     || errorMessage.includes("Unauthorized") || errorMessage.includes("401")] *)
Definition unauthorized (errorInstance : JsError) : bool :=
  isUnauthorizedError errorInstance
  || Js.includes (err_message errorInstance) "Unauthorized"
  || Js.includes (err_message errorInstance) "401".

(** The first [try] block from the construction of the transport on. *)
Definition create (transportType : TransportType) (h : Hook) : bool * Hook :=
  match invalid_url B (url O) with
  | Some typeError =>
      (false,
       failConnection
         ("Failed to create " +:+ toUpperCase transportType
          +:+ " transport: " +:+ typeError)
         (Some (new_Error typeError)) h)
  | None =>
      let h := set_transportRef (Some transportType) h in
      let h := record (NewTransport transportType) h in
      (true,
       addLog Debug (toUpperCase transportType +:+ " transport created.") [] h)
  end.

(** [tryConnectWithTransport(transportType)] up to its first [await], or
    to its end when it returns before. *)
Definition try_enter (transportType : TransportType) (h : Hook)
  : (TryResult + Suspended) * Hook :=
  let h := record (Attempt transportType) h in
  let h := addLog Info
             ("Attempting connection with " +:+ toUpperCase transportType
              +:+ " transport...") [] h in
  let h := if bool_decide (stateRef h = authenticating) then h
           else set_state connecting h in
  let assertion message :=
    failConnection
      ("Failed to create " +:+ toUpperCase transportType
       +:+ " transport: " +:+ message)
      (Some (new_Error message)) h in
  match authProviderRef h, clientRef h with
  | None, _ => (inl r_failed, assertion "Auth Provider must be initialized")
  | Some _, None => (inl r_failed, assertion "Client must be initialized")
  | Some _, Some _ =>
      match transportRef h with
      | Some previous =>
          (inr (AwaitClose transportType), record (CloseTransport previous) h)
      | None =>
          match create transportType h with
          | (false, h) => (inl r_failed, h)
          | (true, h) =>
              let h := addLog Info
                         ("Connecting client via "
                          +:+ toUpperCase transportType +:+ "...") [] h in
              (inr (AwaitConnect transportType),
               record (ClientConnect transportType) h)
          end
      end
  end.

(** The end of [connect] once [finalStatus] is known. *)
Definition conclude (finalStatus : TryResult) (h : Hook) : Hook :=
  let '(finalStatus, h) :=
    match finalStatus with
    | r_fallback =>
        (r_failed, failConnection "All transport methods failed" None h)
    | _ => (finalStatus, h)
    end in
  let h :=
    match finalStatus with
    | r_success | r_failed => set_connectingRef false h
    | _ => h
    end in
  addLog Debug
    ("Connection sequence finished with status: " +:+ status_name finalStatus)
    [] h.

(** [connect] from the moment [httpResult] is known, up to the next
    [await] or to its end. *)
Definition after_http (httpResult : TryResult) (h : Hook)
  : option Suspended * Hook :=
  if bool_decide (httpResult = r_fallback) && isMountedRef h
     && negb (bool_decide (stateRef h = authenticating))
  then
    match try_enter sse h with
    | (inl sseResult, h) => (None, conclude sseResult h)
    | (inr suspended, h) => (Some suspended, h)
    end
  else (None, conclude httpResult h).

(** [connect()] up to its first [await]: [None] when it has returned. *)
Definition connect_enter (h : Hook) : option Suspended * Hook :=
  if connectingRef h then
    (None, addLog Debug "Connection attempt already in progress." [] h)
  else if negb (isMountedRef h) then
    (None, addLog Debug "Connect called after unmount, aborting." [] h)
  else
    let h := record Connect h in
    let h := set_connectingRef true h in
    let h := set_connectAttemptRef (S (connectAttemptRef h)) h in
    let h := set_error None h in
    let h := set_authUrl None h in
    let h := set_successfulTransportRef None h in
    let h := set_state discovering h in
    let h := addLog Info
               ("Connecting attempt #" +:+ Js.decimal (connectAttemptRef h)
                +:+ " to " +:+ url O +:+ "...") [] h in
    let h :=
      match authProviderRef h with
      | None =>
          addLog Debug "BrowserOAuthClientProvider initialized in connect." []
            (set_authProviderRef (Some new_provider) h)
      | Some _ => h
      end in
    let h :=
      match clientRef h with
      | None =>
          addLog Debug "MCP Client initialized in connect." []
            (set_clientRef (Some new_client) h)
      | Some _ => h
      end in
    match try_enter http h with
    | (inl httpResult, h) => after_http httpResult h
    | (inr suspended, h) => (Some suspended, h)
    end.

(** The [catch (connectErr)] block of [tryConnectWithTransport]; the
    third component is where the [connect()] started on "AUTHORIZED"
    is suspended. *)
Definition on_connect_error (transportType : TransportType)
    (connectErr : JsError) (authorizing : Await AuthSettlement) (h : Hook)
  : TryResult * option Suspended * Hook :=
  let h := addLog Debug
             ("Client connect error via " +:+ toUpperCase transportType +:+ ":")
             [ArgOpaque (err_json connectErr)] h in
  let errorMessage := err_message connectErr in
  let other (h : Hook) : TryResult * option Suspended * Hook :=
    if bool_decide (transportType = http) then
      (r_fallback, None,
       addLog Warn
         ("HTTP transport failed: " +:+ errorMessage
          +:+ ". Will attempt fallback to SSE.") [] h)
    else
      (r_failed, None,
       failConnection
         ("Failed to connect via " +:+ toUpperCase transportType +:+ ": "
          +:+ errorMessage) (Some connectErr) h) in
  let auth_failed (sdkAuthError : JsError) (h : Hook)
    : TryResult * option Suspended * Hook :=
    if negb (isMountedRef h) then (r_failed, None, h)
    else
      let h := addLog Err "Auth flow failed:"
                 [ArgOpaque (err_json sdkAuthError)] h in
      if bool_decide (transportType = http) then (r_fallback, None, h)
      else
        (r_failed, None,
         failConnection
           ("Failed to initiate authentication: " +:+ err_message sdkAuthError)
           (Some sdkAuthError) h) in
  if bool_decide (transportType = http)
     && (is404 errorMessage || is405 errorMessage || isLikelyCors errorMessage)
  then
    (r_fallback, None,
     addLog Warn
       ("HTTP transport failed ("
        +:+ (if isLikelyCors errorMessage then "CORS"
             else if is404 errorMessage then "404" else "405")
        +:+ "). Will attempt fallback to SSE.") [] h)
  else if unauthorized connectErr then
    let h := addLog Info "Authentication required. Initiating SDK auth flow..."
               [] h in
    let h := if bool_decide (stateRef h = authenticating) then h
             else set_authTimeoutRef true (set_state authenticating h) in
    match authProviderRef h with
    | None =>
        auth_failed (new_Error "Auth Provider not available for auth flow") h
    | Some _ =>
        let h := record Auth h in
        let h := during authorizing h in
        let h := set_localStorage
                   (auth_store (settles authorizing) (localStorage h)) h in
        match auth_result (settles authorizing) with
        | inr sdkAuthError => auth_failed sdkAuthError h
        | inl authResult =>
            if negb (isMountedRef h) then (r_failed, None, h)
            else if String.eqb authResult "AUTHORIZED" then
              let h := addLog Info
                         "Authentication successful via existing token or refresh. Re-attempting connection..."
                         [] h in
              let h := set_connectingRef false h in
              let '(restarted, h) := connect_enter h in
              (r_failed, restarted, h)
            else if String.eqb authResult "REDIRECT" then
              (r_auth_redirect, None,
               addLog Info
                 "Redirecting for authentication. Waiting for callback..." [] h)
            else other h
        end
    end
  else other h.

(** One catalog of the three: the setter, and the line logged. *)
Definition loaded (what : string) (set : list Json -> Hook -> Hook)
    (response : list Json + string) (h : Hook) : Hook :=
  match response with
  | inl items =>
      addLog Info
        ("Loaded " +:+ Js.decimal (length items) +:+ " " +:+ what +:+ ".") []
        (set items h)
  | inr reason =>
      set [] (addLog Warn ("Failed to load " +:+ what +:+ ": " +:+ reason) [] h)
  end.

(** The second [try] block from [await clientRef.current.connect] on. *)
Definition connect_client (transportType : TransportType) (script : Script)
    (h : Hook) : TryResult * option Suspended * Hook :=
  let h := during (on_connect script) h in
  match settles (on_connect script) with
  | Some connectErr =>
      on_connect_error transportType connectErr (on_auth script) h
  | None =>
      let h := addLog Info
                 ("Client connected via " +:+ toUpperCase transportType
                  +:+ ". Loading tools, resources, and prompts...") [] h in
      let h := set_successfulTransportRef (Some transportType) h in
      let h := set_state loading h in
      match clientRef h with
      | None =>
          on_connect_error transportType
            (new_Error "Cannot read properties of null (reading 'request')")
            (on_auth script) h
      | Some _ =>
          let h := record (Request "tools/list") h in
          let h := record (Request "resources/list") h in
          let h := record (Request "prompts/list") h in
          let h := during (on_list script) h in
          let responses := settles (on_list script) in
          if isMountedRef h then
            let h := loaded "tools" set_tools (toolsResponse responses) h in
            let h := loaded "resources" set_resources
                       (resourcesResponse responses) h in
            let h := loaded "prompts" set_prompts
                       (promptsResponse responses) h in
            let h := set_state ready h in
            let h := set_connectAttemptRef 0%nat h in
            (r_success, None, h)
          else (r_failed, None, h)
      end
  end.

(** [tryConnectWithTransport] from the [await] it is suspended at to
    its end. *)
Definition try_resume (suspended : Suspended) (script : Script) (h : Hook)
  : TryResult * option Suspended * Hook :=
  match suspended with
  | AwaitClose transportType =>
      let h := during (on_close script) h in
      let h :=
        match settles (on_close script) with
        | Some e =>
            addLog Warn
              ("Error closing previous transport: " +:+ err_message e) [] h
        | None => h
        end in
      let h := set_transportRef None h in
      match create transportType h with
      | (false, h) => (r_failed, None, h)
      | (true, h) =>
          let h := addLog Info
                     ("Connecting client via "
                      +:+ toUpperCase transportType +:+ "...") [] h in
          match clientRef h with
          | None =>
              on_connect_error transportType
                (new_Error "Cannot read properties of null (reading 'connect')")
                (on_auth script) h
          | Some _ =>
              connect_client transportType script
                (record (ClientConnect transportType) h)
          end
      end
  | AwaitConnect transportType => connect_client transportType script h
  end.

(** One attempt settles: the suspended [tryConnectWithTransport] runs
    to its end and [connect] goes on, up to the next [await].  The
    result is the attempt now suspended: the secondary attempt of the
    same [connect()], or the primary attempt of the [connect()] that
    the authorization branch started. *)
Definition step (script : Script) (suspended : Suspended) (h : Hook)
  : option Suspended * Hook :=
  let '(result, restarted, h) := try_resume suspended script h in
  let '(next, h) :=
    match leg suspended with
    | http => after_http result h
    | sse => (None, conclude result h)
    end in
  match next with
  | Some secondary => (Some secondary, h)
  | None => (restarted, h)
  end.

(** The attempts settle one after another, as scripted; an attempt
    without a script stays suspended. *)
Fixpoint run (scripts : list Script) (suspended : Suspended) (h : Hook)
  : Hook :=
  match scripts with
  | [] => h
  | script :: scripts =>
      match step script suspended h with
      | (Some next, h) => run scripts next h
      | (None, h) => h
      end
  end.

(** [connect()] *)
Definition connect (scripts : list Script) (h : Hook) : Hook :=
  match connect_enter h with
  | (Some suspended, h) => run scripts suspended h
  | (None, h) => h
  end.

(** [retry()] *)
Definition retry (scripts : list Script) (h : Hook) : Hook :=
  if bool_decide (stateRef h = failed) then
    connect scripts (addLog Info "Retry requested..." [] h)
  else
    addLog Warn
      ("Retry called but state is not 'failed' (state: "
       +:+ state_name (stateRef h) +:+ "). Ignoring.") [] h.

(** A message event received by the window: its origin, and the
    fields of [event.data]. *)
Record MessageEvent := mkMessage {
  ev_origin : string;
  ev_type : option string;
  ev_success : bool;
  ev_error : option string
}.

(** [JSON.stringify(event.data)] of a callback message. *)
Definition render_data (event : MessageEvent) : string :=
  "{" +:+ Js.quoted "type" +:+ ":" +:+ Js.quoted "mcp_auth_callback" +:+ ","
  +:+ Js.quoted "success" +:+ ":"
  +:+ (if ev_success event then "true" else "false")
  +:+ match ev_error event with
      | Some reason => "," +:+ Js.quoted "error" +:+ ":" +:+ Js.quoted reason
      | None => EmptyString
      end
  +:+ "}".

(** [messageHandler(event)], the listener of the cross-window signal. *)
Definition messageHandler (event : MessageEvent) (scripts : list Script)
    (h : Hook) : Hook :=
  if negb (String.eqb (ev_origin event) (origin B)) then h
  else if bool_decide (ev_type event = Some "mcp_auth_callback") then
    let h := addLog Info "Received auth callback message."
               [ArgOpaque (render_data event)] h in
    if ev_success event then
      let h := addLog Info
                 "Authentication successful via popup. Reconnecting client..."
                 [] h in
      connect scripts (set_connectingRef false h)
    else
      failConnection
        ("Authentication failed in callback: "
         +:+ BrowserOAuthClientProvider.or_default (ev_error event)
               "Unknown reason.") None h
  else h.

(** The initial values of the state variables and refs, in a browser
    whose store is [ls] at time [now]. *)
Definition initial (ls : Storage) (now : Z) : Hook :=
  {| state := discovering; tools := []; resources := []; prompts := [];
     error := None; log := []; authUrl := None;
     clientRef := None; transportRef := None; authProviderRef := None;
     connectingRef := false; isMountedRef := true;
     connectAttemptRef := 0%nat; authTimeoutRef := false;
     stateRef := discovering; successfulTransportRef := None;
     localStorage := ls; clock := now; trace := [] |}.

(** The effects of the first render, up to the call of [connect()]. *)
Definition mounted (ls : Storage) (now : Z) : Hook :=
  let h := initial ls now in
  let h := addLog Debug "Auth callback message listener added." [] h in
  let h := set_isMountedRef true h in
  let h := addLog Debug "useMcp mounted, initiating connection." [] h in
  let h := set_connectAttemptRef 0%nat h in
  let h := set_authProviderRef (Some new_provider) h in
  addLog Debug
    "BrowserOAuthClientProvider initialized/updated on mount/option change."
    [] h.

(** *** Request operations *)

(** How a returned promise settles. *)
Inductive Settled :=
| Resolves (value : option Json)      (* [None] is [undefined] *)
| Rejects (e : JsError).

(** How the promises awaited by one operation settle. *)
Record Exchange := mkExchange {
  on_request : Await (Json + JsError);  (* [clientRef.current.request(..)] *)
  on_reauth : Await AuthSettlement      (* [auth(provider, { serverUrl })] *)
}.

(** The message of the error thrown when the hook is not ready;
    [state] is the value of the state variable in the render that
    created the callback. *)
Definition not_ready (state : ConnState) (cannot : string) : JsError :=
  new_Error ("MCP client is not ready (current state: " +:+ state_name state
             +:+ "). Cannot " +:+ cannot +:+ ".").

(** [stateRef.current !== "ready" || !clientRef.current] *)
Definition guard (h : Hook) : bool :=
  negb (bool_decide (stateRef h = ready))
  || match clientRef h with Some _ => false | None => true end.

(** [callTool(name, args)]; [args] is the JSON text of the arguments,
    if any. *)
Definition callTool (state : ConnState) (name : string) (args : option string)
    (exchange : Exchange) (h : Hook) : Settled * option Suspended * Hook :=
  if guard h then
    (Rejects (not_ready state ("call tool " +:+ Js.quoted name)), None, h)
  else
    let h := addLog Info ("Calling tool: " +:+ name)
               [ArgOpaque (default EmptyString args)] h in
    let h := record (Request "tools/call") h in
    let h := during (on_request exchange) h in
    match settles (on_request exchange) with
    | inl result =>
        (Resolves (Some result), None,
         addLog Info ("Tool " +:+ Js.quoted name +:+ " call successful:")
           [ArgOpaque (stringify E result)] h)
    | inr err =>
        let h := addLog Err
                   ("Error calling tool " +:+ Js.quoted name +:+ ": "
                    +:+ err_message err) [ArgOpaque (err_json err)] h in
        let finish '(restarted, h) :=
          if negb (bool_decide (stateRef h = authenticating))
          then (Rejects err, restarted, h)
          else (Resolves None, restarted, h) in
        if unauthorized err then
          let h := addLog Warn
                     "Tool call unauthorized, attempting re-authentication..."
                     [] h in
          let h := set_state authenticating h in
          let h := set_authTimeoutRef true h in
          let reauth_failed (sdkAuthError : JsError) (h : Hook) :=
            if negb (isMountedRef h) then (Resolves None, None, h)
            else
              finish
                (None,
                 failConnection
                   ("Re-authentication failed: " +:+ err_message sdkAuthError)
                   (Some sdkAuthError) h) in
          match authProviderRef h with
          | None =>
              reauth_failed
                (new_Error "Auth Provider not available for tool re-auth") h
          | Some _ =>
              let h := record Auth h in
              let h := during (on_reauth exchange) h in
              let h := set_localStorage
                         (auth_store (settles (on_reauth exchange))
                            (localStorage h)) h in
              match auth_result (settles (on_reauth exchange)) with
              | inr sdkAuthError => reauth_failed sdkAuthError h
              | inl authResult =>
                  if negb (isMountedRef h) then (Resolves None, None, h)
                  else if String.eqb authResult "AUTHORIZED" then
                    let h := addLog Info
                               "Re-authentication successful. Retrying tool call is recommended, or reconnecting."
                               [] h in
                    let h := set_connectingRef false h in
                    finish (connect_enter h)
                  else if String.eqb authResult "REDIRECT" then
                    finish
                      (None,
                       addLog Info
                         "Redirecting for re-authentication for tool call." []
                         h)
                  else finish (None, h)
              end
          end
        else finish (None, h)
    end.

(** The body shared by the four operations that only forward a
    request: [starting] is the line logged before the request,
    [done] the line logged for a result, or [None] when reading the
    result throws. *)
Definition forward (state : ConnState) (cannot starting method failing : string)
    (done : Json -> option string) (exchange : Exchange) (h : Hook)
  : Settled * Hook :=
  if guard h then (Rejects (not_ready state cannot), h)
  else
    let h := addLog Info starting [] h in
    let h := record (Request method) h in
    let h := during (on_request exchange) h in
    let caught (err : JsError) (h : Hook) : Settled * Hook :=
      (Rejects err,
       addLog Err (failing +:+ ": " +:+ err_message err)
         [ArgOpaque (err_json err)] h) in
    match settles (on_request exchange) with
    | inl result =>
        match done result with
        | Some line => (Resolves (Some result), addLog Info line [] h)
        | None =>
            caught
              (new_Error "Cannot read properties of undefined (reading 'length')")
              h
        end
    | inr err => caught err h
    end.

(** [`Listed ${result[field].length} ${field}.`] *)
Definition listed (field : string) (result : Json) : option string :=
  match getProp result field with
  | AccessValue (JArr items) =>
      Some ("Listed " +:+ Js.decimal (length items) +:+ " " +:+ field +:+ ".")
  | _ => None
  end.

Definition with_cursor (cursor : option string) : string :=
  if Callback.given cursor then " with cursor: " +:+ default EmptyString cursor else EmptyString.

Definition listResources (state : ConnState) (cursor : option string) :=
  forward state "list resources"
    ("Listing resources" +:+ with_cursor cursor) "resources/list"
    "Error listing resources" (listed "resources").

Definition readResource (state : ConnState) (uri : string) :=
  forward state ("read resource " +:+ Js.quoted uri)
    ("Reading resource: " +:+ uri) "resources/read"
    ("Error reading resource " +:+ Js.quoted uri)
    (fun _ => Some ("Resource " +:+ Js.quoted uri +:+ " read successfully.")).

Definition listPrompts (state : ConnState) (cursor : option string) :=
  forward state "list prompts"
    ("Listing prompts" +:+ with_cursor cursor) "prompts/list"
    "Error listing prompts" (listed "prompts").

Definition getPrompt (state : ConnState) (name : string) :=
  forward state ("get prompt " +:+ Js.quoted name)
    ("Getting prompt: " +:+ name) "prompts/get"
    ("Error getting prompt " +:+ Js.quoted name)
    (fun _ => Some ("Prompt " +:+ Js.quoted name +:+ " retrieved successfully.")).

(** *** Manual controls *)

(** [authenticate()]; [authUrl] is the value of the state variable in
    the render that created the callback. *)
Definition authenticate (authUrl : option string) (scripts : list Script)
    (h : Hook) : Hook :=
  let h := addLog Info "Manual authentication requested..." [] h in
  let currentState := stateRef h in
  if bool_decide (currentState = failed) then
    retry scripts
      (addLog Info "Attempting to reconnect and authenticate via retry..." [] h)
  else if bool_decide (currentState = authenticating) then
    let h := addLog Warn
               "Already attempting authentication. Check for blocked popups or wait for timeout."
               [] h in
    let manualUrl :=
      authProviderRef h ≫= fun provider =>
        BrowserOAuthClientProvider.getLastAttemptedAuthUrl E provider
          (localStorage h) in
    match manualUrl with
    | Some manualUrl =>
        if Js.truthy manualUrl && negb (Callback.given authUrl) then
          addLog Info "Manual authentication URL retrieved:"
            [ArgString manualUrl] (set_authUrl (Some manualUrl) h)
        else h
    | None => h
    end
  else
    addLog Info
      ("Client not in a state requiring manual authentication trigger (state: "
       +:+ state_name currentState
       +:+ "). If needed, try disconnecting and reconnecting.") [] h.

(** [clearStorage()] of the hook; [closing] is the error with which the
    [transport.close()] of [disconnect] rejects, if it does. *)
Definition clearStorage (closing : option JsError) (h : Hook) : Hook :=
  match authProviderRef h with
  | Some provider =>
      let '(count, ls) :=
        BrowserOAuthClientProvider.clearStorage E provider (localStorage h) in
      let h := set_localStorage ls h in
      let h := addLog Info
                 ("Cleared " +:+ Js.decimal count
                  +:+ " item(s) from localStorage for " +:+ url O +:+ ".")
                 [] h in
      let h := set_authUrl None h in
      disconnect false closing h
  | None =>
      addLog Warn "Auth provider not initialized, cannot clear storage." [] h
  end.

End Hook.

Arguments mkAwait {A} _ _.
Arguments meanwhile {A} _.
Arguments settles {A} _.

End UseMcp.


(** * Vocabulary of the properties *)

Import UseMcp.

(** The log after [addLog] has appended the entries of a list, one after
    the other. *)
Definition appended (entries : list LogEntry) (log0 : list LogEntry)
  : list LogEntry :=
  fold_left (fun l e => setLog_update e l) entries log0.

(** The transport attempts among recorded calls. *)
Definition attempts (events : list Event) : list TransportType :=
  omap (fun e => match e with Attempt t => Some t | _ => None end) events.

(** The terminal failures among recorded calls. *)
Definition failures (events : list Event) : list string :=
  omap (fun e => match e with FailConnection m => Some m | _ => None end) events.

(** The soft-retryable classification: not-found, method-not-allowed, or a
    fetch failure that looks cross-origin. *)
Definition soft_retryable (e : JsError) : bool :=
  is404 (err_message e) || is405 (err_message e) || isLikelyCors (err_message e).

(** The class in which [tryConnectWithTransport(transportType)] puts a
    rejection of [client.connect]. *)
Inductive Classification := SoftRetryable | Unauthorized | Other.

Definition classify (transportType : TransportType) (e : JsError)
  : Classification :=
  if bool_decide (transportType = http) && soft_retryable e then SoftRetryable
  else if unauthorized e then Unauthorized
  else Other.

(** The keys that belong to a provider in a store: its credential keys,
    and the keys of the correlation records that carry its hash. *)
Definition credential_key (this : BrowserOAuthClientProvider.t) (key : string)
  : Prop :=
  exists suffix, key = BrowserOAuthClientProvider.getKey this suffix.

Definition correlation_record (E : Engine) (this : BrowserOAuthClientProvider.t)
    (ls : Storage) (key : string) : Prop :=
  exists token item state,
    key = BrowserOAuthClientProvider.stateKey this token
    /\ ls !! key = Some item
    /\ LocalStorage.present (Some item) = true
    /\ JSON_parse E item = Some state
    /\ getProp state "serverUrlHash"
       = AccessValue (JStr (BrowserOAuthClientProvider.serverUrlHash this)).

Definition belongs (E : Engine) (this : BrowserOAuthClientProvider.t)
    (ls : Storage) (key : string) : Prop :=
  credential_key this key \/ correlation_record E this ls key.

(** The test that the scanning loop of [clearStorage] applies to a key. *)
Definition owned (E : Engine) (this : BrowserOAuthClientProvider.t)
    (ls : Storage) (key : string) : bool :=
  Js.startsWith key
    (BrowserOAuthClientProvider.storageKeyPrefix this +:+ "_"
     +:+ BrowserOAuthClientProvider.serverUrlHash this +:+ "_")
  || Js.startsWith key
       (BrowserOAuthClientProvider.storageKeyPrefix this +:+ ":state_")
     && match ls !! key with
        | Some item =>
            LocalStorage.present (Some item)
            && match JSON_parse E item with
               | Some state =>
                   match BrowserOAuthClientProvider.record_matches this state with
                   | Some true => true
                   | _ => false
                   end
               | None => false
               end
        | None => false
        end.

(** A text without underscore, as the hexadecimal hashes are. *)
Fixpoint underscore_free (s : string) : Prop :=
  match s with
  | EmptyString => True
  | String c rest => c <> "_"%char /\ underscore_free rest
  end.

(** [parseInt(s, 16)] on a text of lowercase hexadecimal digits. *)
Definition digit_value (c : ascii) : Z :=
  let n := Z.of_nat (nat_of_ascii c) in
  if (48 <=? n) && (n <=? 57) then n - 48 else n - 87.

Fixpoint parse_loop (s : string) (acc : Z) : Z :=
  match s with
  | EmptyString => acc
  | String c rest => parse_loop rest (16 * acc + digit_value c)
  end.

Definition parseInt16 (s : string) : Z := parse_loop s 0.

(** A text made of the digits [0-9a-f]. *)
Fixpoint lowercase_hex (s : string) : bool :=
  match s with
  | EmptyString => true
  | String c rest => Js.includes "0123456789abcdef" (String c EmptyString)
                     && lowercase_hex rest
  end.

(** The catalog that the hook keeps for one fulfilled or rejected
    listing. *)
Definition catalog (response : list Json + string) : list Json :=
  match response with
  | inl items => items
  | inr _ => []
  end.

(** ** The cycles of a connection history *)

(** The marks of a trace: the entries into [connect()] past its guards
    and the transport attempts. *)
Inductive Mark :=
| Entered
| Tried (transportType : TransportType).

Definition marks (events : list Event) : list Mark :=
  omap (fun e => match e with
                 | Connect => Some Entered
                 | Attempt t => Some (Tried t)
                 | _ => None
                 end) events.

(** Where a connection cycle stands: no attempt is due ([Resting]),
    [connect()] was entered and its primary attempt is due
    ([Entering]), or the primary attempt was made and the secondary
    one may follow ([Primary]). *)
Inductive Phase := Resting | Entering | Primary.

Definition advance_one (p : Phase) (m : Mark) : option Phase :=
  match m, p with
  | Entered, (Resting | Primary) => Some Entering
  | Tried http, Entering => Some Primary
  | Tried sse, Primary => Some Resting
  | _, _ => None
  end.

Fixpoint advance (p : Phase) (l : list Mark) : option Phase :=
  match l with
  | [] => Some p
  | m :: rest =>
      match advance_one p m with
      | Some p => advance p rest
      | None => None
      end
  end.

(** A sequence of marks made of whole cycles: each entry is followed at
    once by a primary attempt, and a secondary attempt only ever comes
    right after the primary attempt of the same entry. *)
Definition disciplined (l : list Mark) : Prop :=
  exists p, advance Resting l = Some p /\ p <> Entering.

Definition phase_of (transportType : TransportType) : Phase :=
  match transportType with
  | http => Primary
  | sse => Resting
  end.

(** What may follow a suspension point: nothing, or an attempt
    suspended on the given transport. *)
Definition follows (transportType : TransportType) (next : option Suspended)
  : Prop :=
  match next with
  | None => True
  | Some suspended => leg suspended = transportType
  end.

(** ** Sample collaborators, for the concrete runs *)

Module Sample.

Definition engine : Engine :=
  mkEngine (fun _ => None) (fun _ => "null") (fun _ _ => false)
    (fun str => (fun c => Z.of_nat (nat_of_ascii c)) <$> list_ascii_of_string str)
    (fun _ => "[object Object]") (fun _ => false).

Definition browser : Browser :=
  mkBrowser "https://app.example" (fun _ => None).

Definition options : Options :=
  mkOptions "https://mcp.example/mcp" None None None None None None.

Definition quietly {A} (a : A) : Await A := mkAwait [] a.

Definition auth_returns (status : string) : AuthSettlement :=
  mkAuth (fun ls => ls) (inl status).

Definition catalogs : Listing :=
  mkListing (inl [JStr "search"]) (inl []) (inl []).

(** The server answers the handshake with HTTP 404; nothing is committed
    in between. *)
Definition not_found : Script :=
  mkScript (quietly None)
    (quietly (Some (new_Error "Error POSTing to endpoint (HTTP 404): Not Found")))
    (quietly catalogs) (quietly (auth_returns "REDIRECT")).

(** The same, the pending state being committed before the answer. *)
Definition not_found_committed : Script :=
  mkScript (quietly None)
    (mkAwait [Commit]
       (Some (new_Error "Error POSTing to endpoint (HTTP 404): Not Found")))
    (quietly catalogs) (quietly (auth_returns "REDIRECT")).

(** The server answers 401 and [auth] returns [status]; React commits
    while each promise is pending. *)
Definition needs_auth (status : string) : Script :=
  mkScript (quietly None)
    (mkAwait [Commit] (Some (mkError true "Unauthorized")))
    (quietly catalogs) (mkAwait [Commit] (auth_returns status)).

(** The handshake and the three listings succeed. *)
Definition accepted : Script :=
  mkScript (quietly None) (mkAwait [Commit] None)
    (mkAwait [Commit] catalogs) (quietly (auth_returns "REDIRECT")).

(** The hook right after its first render. *)
Definition started : Hook := mounted engine browser options ∅ 0.

(** The popup reports success. *)
Definition popup_success : MessageEvent :=
  mkMessage "https://app.example" (Some "mcp_auth_callback") true None.

(** The popup reports a failure. *)
Definition popup_failure : MessageEvent :=
  mkMessage "https://app.example" (Some "mcp_auth_callback") false
    (Some "access_denied").

(** The server answers the handshake with HTTP 404, nothing being
    committed but what [commits] says while the previous transport
    closes. *)
Definition not_found_after (commits : list Interrupt) : Script :=
  mkScript (mkAwait commits None)
    (quietly (Some (new_Error "Error POSTing to endpoint (HTTP 404): Not Found")))
    (quietly catalogs) (quietly (auth_returns "REDIRECT")).

(** A request is rejected as unauthorized, and [auth] returns [status]
    after [commits]. *)
Definition rejected (commits : list Interrupt) (status : string) : Exchange :=
  mkExchange (quietly (inr (mkError true "Unauthorized")))
    (mkAwait commits (auth_returns status)).

(** A ready hook: the first attempt was accepted. *)
Definition connected : Hook :=
  interrupt (connect engine browser options [accepted] started) Commit.

(** A provider with the default prefix and one with a prefix of its own,
    for the same server. *)
Definition provider : BrowserOAuthClientProvider.t :=
  BrowserOAuthClientProvider.new engine "https://app.example" "https://mcp.example/mcp"
    (BrowserOAuthClientProvider.mkOptions None None None None).

Definition custom_provider : BrowserOAuthClientProvider.t :=
  BrowserOAuthClientProvider.new engine "https://app.example" "https://mcp.example/mcp"
    (BrowserOAuthClientProvider.mkOptions (Some "my_app_mcp_auth") None None None).

(** Two providers whose prefixes differ: the prefix of the second one is
    the prefix of the first one, an underscore, and the hash of the
    first one. *)
Definition short_provider : BrowserOAuthClientProvider.t :=
  BrowserOAuthClientProvider.new engine "https://app.example" "https://mcp.example/mcp"
    (BrowserOAuthClientProvider.mkOptions (Some "mcp") None None None).

Definition nested_provider : BrowserOAuthClientProvider.t :=
  BrowserOAuthClientProvider.new engine "https://app.example" "https://files.example/sse"
    (BrowserOAuthClientProvider.mkOptions
       (Some ("mcp_" +:+ BrowserOAuthClientProvider.serverUrlHash short_provider))
       None None None).

(** A provider for another server. *)
Definition other_provider : BrowserOAuthClientProvider.t :=
  BrowserOAuthClientProvider.new engine "https://app.example" "https://files.example/sse"
    (BrowserOAuthClientProvider.mkOptions None None None None).

Definition authorize (state : string) : string :=
  "https://as.example/authorize?state=" +:+ state.

(** The store once [this] has redirected with the token [tok-1] at time
    1000. *)
Definition redirected (this : BrowserOAuthClientProvider.t) : Storage :=
  (BrowserOAuthClientProvider.redirectToAuthorization this "tok-1" 1000
     authorize ∅).1.

(** A store holding entries of two providers. *)
Definition shared : Storage :=
  (BrowserOAuthClientProvider.redirectToAuthorization other_provider "tok-2"
     1500 authorize
     (BrowserOAuthClientProvider.saveTokens other_provider (JStr "token-2")
        (BrowserOAuthClientProvider.saveTokens provider (JStr "token-1")
           (redirected provider)))).1.

(** The callback address [?code=code-1&state=tok-1]. *)
Definition query : Callback.Query :=
  Callback.mkQuery (Some "code-1") (Some "tok-1") None None.

End Sample.

(** * Properties *)

(** ** DiagnosticLog *)

Lemma slice_last_length {A} (n : nat) (l : list A) :
  length (slice_last n l) = Nat.min n (length l).
Proof. unfold slice_last. rewrite length_drop. lia. Qed.

Lemma setLog_update_length (e : LogEntry) (l : list LogEntry) :
  length (setLog_update e l) = S (Nat.min 100 (length l)).
Proof.
  unfold setLog_update. rewrite length_app, slice_last_length. simpl. lia.
Qed.

(** What the buffer does hold: never more than 101 entries. *)
Lemma setLog_update_bound (e : LogEntry) (l : list LogEntry) :
  (length (setLog_update e l) <= 101)%nat.
Proof. rewrite setLog_update_length. lia. Qed.

(** The entries kept are the most recent ones, in the order of their
    arrival. *)
Lemma appended_suffix (entries log0 : list LogEntry) :
  exists dropped, (log0 ++ entries)%list = (dropped ++ appended entries log0)%list.
Proof.
  revert log0. induction entries as [|e entries IH]; intros log0.
  - exists []. simpl. by rewrite app_nil_r.
  - simpl. destruct (IH (setLog_update e log0)) as [dropped Hd].
    exists (take (length log0 - 100) log0 ++ dropped)%list.
    rewrite <- app_assoc, <- Hd. unfold setLog_update, slice_last.
    rewrite !app_assoc, take_drop. by rewrite <- app_assoc.
Qed.

(** C10 (the code exceeds the claimed cap): after 101 calls of [addLog] on
    a freshly initialised hook, the [log] state holds 101 entries, one
    more than the 100 the buffer is said to be capped at. *)
Lemma log_holds_101_entries :
  length (log (Nat.iter 101 (addLog Info "tick" []) (initial ∅ 0))) = 101%nat.
Proof. vm_compute. reflexivity. Qed.

(** ** ConnectionOrchestrator *)

(** C3: [connect()] called while an attempt is in progress only logs a
    debug line: no transport is created, nothing leaves the hook, the
    attempt counter, the state, the error, the manual authorization URL
    and the three catalogs are what they were. *)
Theorem connect_in_progress_is_noop (E : Engine) (B : Browser) (O : Options)
    (scripts : list Script) (h : Hook) :
  connectingRef h = true ->
  let h' := connect E B O scripts h in
  h' = addLog Debug "Connection attempt already in progress." [] h
  /\ trace h' = trace h
  /\ transportRef h' = transportRef h
  /\ connectAttemptRef h' = connectAttemptRef h
  /\ state h' = state h
  /\ error h' = error h
  /\ authUrl h' = authUrl h
  /\ tools h' = tools h /\ resources h' = resources h /\ prompts h' = prompts h.
Proof.
  intros Hbusy. unfold connect, connect_enter. rewrite Hbusy. cbn zeta.
  unfold addLog. destruct (isMountedRef h); repeat split; reflexivity.
Qed.

Lemma connect_in_progress_is_noop_witness :
  let h := connect Sample.engine Sample.browser Sample.options [] Sample.started in
  connectingRef h = true
  /\ connect Sample.engine Sample.browser Sample.options [Sample.accepted] h
     = addLog Debug "Connection attempt already in progress." [] h.
Proof.
  split; [reflexivity |].
  apply (connect_in_progress_is_noop Sample.engine Sample.browser Sample.options
           [Sample.accepted]
           (connect Sample.engine Sample.browser Sample.options [] Sample.started)).
  reflexivity.
Defined.

(** C4, on the snapshot that the guard reads: while [stateRef.current]
    is not [ready], each of the five request operations rejects with an
    error whose message names the state [captured] by the callback (that
    of the render that made it) and the operation; the hook is left as
    it was, so no request is issued. *)
Theorem operations_reject_when_not_ready (E : Engine) (B : Browser)
    (O : Options) (h : Hook) (captured : ConnState) (name uri : string)
    (args cursor : option string) (exchange : Exchange) :
  stateRef h <> ready ->
  let refusal cannot :=
    new_Error ("MCP client is not ready (current state: "
               +:+ state_name captured +:+ "). Cannot " +:+ cannot +:+ ".") in
  callTool E B O captured name args exchange h
    = (Rejects (refusal ("call tool " +:+ Js.quoted name)), None, h)
  /\ listResources captured cursor exchange h
    = (Rejects (refusal "list resources"), h)
  /\ readResource captured uri exchange h
    = (Rejects (refusal ("read resource " +:+ Js.quoted uri)), h)
  /\ listPrompts captured cursor exchange h
    = (Rejects (refusal "list prompts"), h)
  /\ getPrompt captured name exchange h
    = (Rejects (refusal ("get prompt " +:+ Js.quoted name)), h).
Proof.
  intros Hsnapshot.
  assert (Hguard : guard h = true).
  { unfold guard. rewrite bool_decide_eq_false_2 by assumption. reflexivity. }
  unfold callTool, listResources, readResource, listPrompts, getPrompt, forward.
  rewrite Hguard. repeat split; reflexivity.
Qed.

Lemma operations_reject_when_not_ready_witness :
  let h :=
    interrupt
      (connect Sample.engine Sample.browser Sample.options
         [Sample.not_found_committed; Sample.not_found_committed] Sample.started)
      Commit in
  let exchange :=
    mkExchange (Sample.quietly (inl JNull))
      (Sample.quietly (Sample.auth_returns "AUTHORIZED")) in
  stateRef h <> ready
  /\ listResources (state h) None exchange h
     = (Rejects
          (new_Error "MCP client is not ready (current state: failed). Cannot list resources."),
        h).
Proof.
  intros h exchange.
  assert (Hsnapshot : stateRef h <> ready) by (vm_compute; discriminate).
  split; [exact Hsnapshot |].
  exact (proj1 (proj2 (operations_reject_when_not_ready Sample.engine
                         Sample.browser Sample.options h (state h)
                         "search" "file:///a" None None exchange Hsnapshot))).
Defined.

(** C4: the state is [failed] (the popup has reported a failure to a
    connected hook) and not yet committed, so that the snapshot still
    reads [ready]: [listResources] passes the guard, sends its request
    and resolves. *)
Lemma operations_proceed_before_commit :
  let h :=
    messageHandler Sample.engine Sample.browser Sample.options
      Sample.popup_failure [] Sample.connected in
  let listing := JObj [("resources", JArr [])] in
  let exchange :=
    mkExchange (Sample.quietly (inl listing))
      (Sample.quietly (Sample.auth_returns "REDIRECT")) in
  let after := listResources (state h) None exchange h in
  state h = failed
  /\ stateRef h = ready
  /\ after.1 = Resolves (Some listing)
  /\ trace after.2 = (trace h ++ [Request "resources/list"])%list.
Proof. vm_compute. repeat split; reflexivity. Qed.

(** ** Callback completion handler *)

(** A completion succeeds only past the three parameter checks, and it
    leaves no record under the key it resolved. *)
Lemma completed_inv (E : Engine) (origin : string) (opener : bool) (now : Z)
    (exchange : AuthSettlement) (query : Callback.Query) (ls : Storage) :
  let result := Callback.onMcpAuthorization E origin opener now exchange query ls in
  Callback.outcome result = Callback.Completed ->
  Callback.given (Callback.q_error query) = false
  /\ Callback.given (Callback.q_code query) = true
  /\ exists key,
       Callback.stateKey (Callback.q_state query) = Some key
       /\ Callback.storage result !! key = None.
Proof.
  unfold Callback.onMcpAuthorization.
  destruct (Callback.given (Callback.q_error query)); [discriminate |].
  destruct (Callback.given (Callback.q_code query)); [| discriminate].
  destruct (Callback.stateKey (Callback.q_state query)) as [key|];
    [| discriminate].
  cbn zeta. intros Hdone. split; [reflexivity |]. split; [reflexivity |].
  exists key. split; [reflexivity |]. revert Hdone.
  repeat (case_match; try discriminate); intros _; cbn;
    apply lookup_delete_eq.
Qed.

(** Without a record under the key of the token, the handler fails with
    the "no matching state" error. *)
Lemma no_matching_state (E : Engine) (origin : string) (opener : bool)
    (now : Z) (exchange : AuthSettlement) (query : Callback.Query)
    (ls : Storage) (key : string) :
  Callback.given (Callback.q_error query) = false ->
  Callback.given (Callback.q_code query) = true ->
  Callback.stateKey (Callback.q_state query) = Some key ->
  ls !! key = None ->
  Callback.outcome
    (Callback.onMcpAuthorization E origin opener now exchange query ls)
  = Callback.Failed
      ("Invalid or expired state parameter "
       +:+ Js.quoted (Callback.text (Callback.q_state query))
       +:+ ". No matching state found in storage.").
Proof.
  intros Herror Hcode Hkey Hnone. unfold Callback.onMcpAuthorization.
  rewrite Herror, Hcode, Hkey. cbn zeta. unfold LocalStorage.getItem.
  rewrite Hnone. reflexivity.
Qed.

(** C5: once a completion has succeeded, the correlation record is gone:
    a second completion with the same query parameters, whatever the
    exchange, the clock and the windows are then, fails with the "no
    matching state" error. *)
Theorem correlation_token_single_use (E E' : Engine) (origin origin' : string)
    (opener opener' : bool) (now now' : Z) (exchange exchange' : AuthSettlement)
    (query : Callback.Query) (ls : Storage) :
  let first := Callback.onMcpAuthorization E origin opener now exchange query ls in
  Callback.outcome first = Callback.Completed ->
  Callback.outcome
    (Callback.onMcpAuthorization E' origin' opener' now' exchange' query
       (Callback.storage first))
  = Callback.Failed
      ("Invalid or expired state parameter "
       +:+ Js.quoted (Callback.text (Callback.q_state query))
       +:+ ". No matching state found in storage.").
Proof.
  intros first Hdone.
  destruct (completed_inv E origin opener now exchange query ls Hdone)
    as (Herror & Hcode & key & Hkey & Hgone).
  by eapply no_matching_state.
Qed.

Lemma correlation_token_single_use_witness :
  let first :=
    Callback.onMcpAuthorization Sample.engine "https://app.example" true 2000
      (Sample.auth_returns "AUTHORIZED") Sample.query
      (Sample.redirected Sample.provider) in
  Callback.outcome first = Callback.Completed
  /\ Callback.outcome
       (Callback.onMcpAuthorization Sample.engine "https://app.example" true 3000
          (Sample.auth_returns "AUTHORIZED") Sample.query
          (Callback.storage first))
     = Callback.Failed
         ("Invalid or expired state parameter " +:+ Js.quoted "tok-1"
          +:+ ". No matching state found in storage.").
Proof.
  split; [vm_compute; reflexivity |].
  apply (correlation_token_single_use Sample.engine Sample.engine
           "https://app.example" "https://app.example" true true 2000 3000
           (Sample.auth_returns "AUTHORIZED") (Sample.auth_returns "AUTHORIZED")
           Sample.query (Sample.redirected Sample.provider)).
  vm_compute; reflexivity.
Defined.

(** ** CredentialStore *)

Lemma append_inv_head (p a b : string) : p +:+ a = p +:+ b -> a = b.
Proof. induction p as [|c p IH]; simpl; [done |]. intros [= H]. auto. Qed.

(** A key of a correlation record is never a credential key of the same
    provider: after the prefix the one goes on with a colon, the other
    with an underscore. *)
Lemma stateKey_not_getKey (this : BrowserOAuthClientProvider.t)
    (state suffix : string) :
  BrowserOAuthClientProvider.stateKey this state
  <> BrowserOAuthClientProvider.getKey this suffix.
Proof.
  unfold BrowserOAuthClientProvider.stateKey, BrowserOAuthClientProvider.getKey.
  intros H. apply append_inv_head in H. discriminate H.
Qed.

(** C6: the record that [redirectToAuthorization] persists at time
    [created] carries [expiry = created + 10 minutes]; and the callback
    handler, given a code and a token whose record has its expiry in the
    past, fails with the "expired" error and removes the record. *)
Theorem correlation_record_expires (E : Engine)
    (this : BrowserOAuthClientProvider.t) (token : string) (created : Z)
    (render : string -> string) (ls0 : Storage)
    (origin : string) (opener : bool) (now : Z) (exchange : AuthSettlement)
    (query : Callback.Query) (ls : Storage) (key : string) (item : Stored)
    (storedStateData : Json) (expiry : Z) :
  Callback.given (Callback.q_error query) = false ->
  Callback.given (Callback.q_code query) = true ->
  Callback.stateKey (Callback.q_state query) = Some key ->
  ls !! key = Some item ->
  LocalStorage.present (Some item) = true ->
  JSON_parse E item = Some storedStateData ->
  getProp storedStateData "expiry" = AccessValue (JNum expiry) ->
  expiry < now ->
  let persisted :=
    (BrowserOAuthClientProvider.redirectToAuthorization this token created
       render ls0).1 in
  let result :=
    Callback.onMcpAuthorization E origin opener now exchange query ls in
  persisted !! BrowserOAuthClientProvider.stateKey this token
    = Some (Doc (BrowserOAuthClientProvider.stateData this created))
  /\ getProp (BrowserOAuthClientProvider.stateData this created) "expiry"
     = AccessValue (JNum (created + 10 * 60 * 1000))
  /\ Callback.outcome result
     = Callback.Failed
         "OAuth state has expired. Please try initiating authentication again."
  /\ Callback.storage result !! key = None.
Proof.
  intros Herror Hcode Hkey Hitem Hpresent Hparse Hexpiry Hpast persisted result.
  split.
  { unfold persisted, BrowserOAuthClientProvider.redirectToAuthorization,
      LocalStorage.setItem. cbn.
    rewrite lookup_insert_ne by (apply not_eq_sym, stateKey_not_getKey).
    apply lookup_insert_eq. }
  split; [reflexivity |].
  assert (Hexpired : Callback.expired E storedStateData now = Some true).
  { unfold Callback.expired. rewrite Hexpiry. cbn.
    destruct (Z.eqb_spec expiry 0); cbn; [reflexivity |].
    f_equal. apply Z.ltb_lt. exact Hpast. }
  unfold result, Callback.onMcpAuthorization.
  rewrite Herror, Hcode, Hkey. cbn zeta. unfold LocalStorage.getItem.
  rewrite Hitem, Hpresent, Hparse, Hexpired. cbn.
  split; [reflexivity |].
  unfold LocalStorage.removeItem. rewrite delete_delete_eq || idtac.
  apply lookup_delete_eq.
Qed.

Lemma correlation_record_expires_witness :
  let ls := Sample.redirected Sample.provider in
  let result :=
    Callback.onMcpAuthorization Sample.engine "https://app.example" true 601001
      (Sample.auth_returns "AUTHORIZED") Sample.query ls in
  Callback.outcome result
  = Callback.Failed
      "OAuth state has expired. Please try initiating authentication again."
  /\ Callback.storage result !! "mcp:auth:state_tok-1" = None.
Proof.
  refine (proj2 (proj2
    (correlation_record_expires Sample.engine Sample.provider "tok-1" 1000
       Sample.authorize ∅ "https://app.example" true 601001
       (Sample.auth_returns "AUTHORIZED") Sample.query
       (Sample.redirected Sample.provider) "mcp:auth:state_tok-1"
       (Doc (BrowserOAuthClientProvider.stateData Sample.provider 1000))
       (BrowserOAuthClientProvider.stateData Sample.provider 1000) 601000
       _ _ _ _ _ _ _ _))); try (vm_compute; reflexivity).
Defined.

(** C8 (the handler does not follow the configured prefix): a provider
    configured with the prefix [my_app_mcp_auth] persists the record of
    its token under [my_app_mcp_auth:state_tok-1], its credential keys
    under [my_app_mcp_auth_{hash}_...]; the callback handler looks the
    token up under [mcp:auth:state_tok-1] and fails for want of a
    record. *)
Lemma callback_ignores_configured_prefix :
  let this := Sample.custom_provider in
  let ls := Sample.redirected this in
  BrowserOAuthClientProvider.getKey this "tokens"
    = "my_app_mcp_auth_" +:+ BrowserOAuthClientProvider.serverUrlHash this
      +:+ "_tokens"
  /\ ls !! "my_app_mcp_auth:state_tok-1"
     = Some (Doc (BrowserOAuthClientProvider.stateData this 1000))
  /\ Callback.stateKey (Callback.q_state Sample.query)
     = Some "mcp:auth:state_tok-1"
  /\ Callback.outcome
       (Callback.onMcpAuthorization Sample.engine "https://app.example" true
          2000 (Sample.auth_returns "AUTHORIZED") Sample.query ls)
     = Callback.Failed
         ("Invalid or expired state parameter " +:+ Js.quoted "tok-1"
          +:+ ". No matching state found in storage.").
Proof. vm_compute. repeat split; reflexivity. Qed.

(** *** [clearStorage] *)

Lemma append_cons (c : ascii) (p rest : string) :
  String c p +:+ rest = String c (p +:+ rest).
Proof. reflexivity. Qed.

Lemma append_assoc (a b c : string) : (a +:+ b) +:+ c = a +:+ b +:+ c.
Proof.
  induction a as [|x a IH]; [done |]. rewrite !append_cons. by rewrite IH.
Qed.

Lemma prefix_iff (p k : string) :
  String.prefix p k = true <-> exists rest, k = p +:+ rest.
Proof.
  revert k. induction p as [|c p IH]; intros k.
  - split; [intros _; by exists k | by destruct k].
  - destruct k as [|d k]; simpl; [split; [done | by intros [? [=]]] |].
    destruct (Ascii.ascii_dec c d) as [->|Hne].
    + rewrite IH.
      split; intros [rest H]; exists rest; rewrite append_cons in *; congruence.
    + split; [done | intros [rest H]; rewrite append_cons in H; congruence].
Qed.

Lemma underscore_free_app (a b : string) :
  underscore_free a -> underscore_free b -> underscore_free (a +:+ b).
Proof.
  induction a as [|c a IH]; [done |].
  rewrite append_cons. simpl. intros [? ?] ?. auto.
Qed.

Lemma hexDigit_underscore_free (d : Z) : underscore_free (Js.hexDigit d).
Proof.
  unfold Js.hexDigit. generalize (Z.to_nat d) as k. intros k.
  do 17 (destruct k as [|k]; [cbn; repeat split; discriminate |]).
  cbn. exact I.
Qed.

Lemma toHex_underscore_free (fuel : nat) (n : Z) :
  underscore_free (Js.toHex fuel n).
Proof.
  revert n. induction fuel as [|fuel IH]; intros n; simpl.
  - apply hexDigit_underscore_free.
  - destruct (n <? 16); [apply hexDigit_underscore_free |].
    apply underscore_free_app; [apply IH | apply hexDigit_underscore_free].
Qed.

Lemma hashString_underscore_free (E : Engine) (str : string) :
  underscore_free (BrowserOAuthClientProvider.hashString E str).
Proof. apply toHex_underscore_free. Qed.

(** Two hashes followed by an underscore can only prefix one another
    when they are equal. *)
Lemma hash_separates (h1 h2 s1 s2 : string) :
  underscore_free h1 -> underscore_free h2 ->
  h1 +:+ "_" +:+ s1 = h2 +:+ "_" +:+ s2 -> h1 = h2.
Proof.
  revert h2. induction h1 as [|c h1 IH]; intros [|d h2]; simpl.
  - done.
  - intros _ [Hd _] [= H _]. congruence.
  - intros [Hc _] _ [= H _]. congruence.
  - intros [_ H1] [_ H2] [= -> H]. f_equal. by apply IH.
Qed.

Lemma record_matches_true (this : BrowserOAuthClientProvider.t) (state : Json) :
  BrowserOAuthClientProvider.record_matches this state = Some true
  <-> getProp state "serverUrlHash"
      = AccessValue (JStr (BrowserOAuthClientProvider.serverUrlHash this)).
Proof.
  unfold BrowserOAuthClientProvider.record_matches.
  destruct (getProp state "serverUrlHash") as [| |[]]; try (split; congruence).
  split.
  - intros [= H]. apply String.eqb_eq in H. congruence.
  - intros [= ->]. by rewrite String.eqb_refl.
Qed.

Lemma owned_belongs (E : Engine) (this : BrowserOAuthClientProvider.t)
    (ls : Storage) (key : string) :
  owned E this ls key = true <-> belongs E this ls key.
Proof.
  unfold owned, belongs, credential_key, correlation_record, Js.startsWith,
    BrowserOAuthClientProvider.getKey, BrowserOAuthClientProvider.stateKey.
  rewrite orb_true_iff, andb_true_iff, !prefix_iff.
  split.
  - intros [[rest ->]|[[token ->] Hrecord]].
    + left. exists rest. by rewrite !append_assoc.
    + right. destruct (ls !! _) as [item|] eqn:Hitem; [| done].
      apply andb_true_iff in Hrecord as [Hpresent Hrecord].
      destruct (JSON_parse E item) as [state|] eqn:Hparse; [| done].
      destruct (BrowserOAuthClientProvider.record_matches this state)
        as [[]|] eqn:Hmatch; try done.
      exists token, item, state. rewrite !append_assoc.
      repeat split; try done. by apply record_matches_true.
  - intros [[suffix ->]|(token & item & state & -> & Hitem & Hpresent & Hparse & Hhash)].
    + left. exists suffix. by rewrite !append_assoc.
    + right. split; [exists token; by rewrite !append_assoc |].
      rewrite Hitem, Hpresent, Hparse.
      apply record_matches_true in Hhash. by rewrite Hhash.
Qed.

Lemma scan_owned (E : Engine) (this : BrowserOAuthClientProvider.t)
    (ls : Storage) (keysToRemove : list string) (key : string) :
  BrowserOAuthClientProvider.scan E this ls keysToRemove key
  = if owned E this ls key then (keysToRemove ++ [key])%list else keysToRemove.
Proof.
  unfold BrowserOAuthClientProvider.scan, owned, LocalStorage.getItem.
  destruct key as [|c key].
  - cbn [Js.truthy negb].
    assert (Hno : forall p q, Js.startsWith EmptyString (p +:+ q) = true
                              -> p +:+ q = EmptyString).
    { intros p q H. apply prefix_iff in H as [rest H].
      destruct (p +:+ q); [done | discriminate H]. }
    destruct (Js.startsWith _ (_ +:+ "_" +:+ _ +:+ "_")) eqn:H1.
    { apply Hno in H1. destruct (BrowserOAuthClientProvider.storageKeyPrefix this);
        discriminate H1. }
    destruct (Js.startsWith _ (_ +:+ ":state_")) eqn:H2; [| done].
    apply Hno in H2. destruct (BrowserOAuthClientProvider.storageKeyPrefix this);
      discriminate H2.
  - cbn [Js.truthy negb].
    destruct (Js.startsWith _ (_ +:+ "_" +:+ _ +:+ "_")); [done |].
    destruct (Js.startsWith _ (_ +:+ ":state_")); [| done].
    cbn [orb andb].
    destruct (ls !! String c key) as [item|]; [| done].
    destruct (LocalStorage.present (Some item)); [| done].
    cbn [andb]. destruct (JSON_parse E item) as [state|]; [| done].
    by destruct (BrowserOAuthClientProvider.record_matches this state) as [[]|].
Qed.

Lemma fold_scan (E : Engine) (this : BrowserOAuthClientProvider.t)
    (ls : Storage) (keys acc : list string) :
  fold_left (BrowserOAuthClientProvider.scan E this ls) keys acc
  = (acc ++ filter (fun k => owned E this ls k = true) keys)%list.
Proof.
  revert acc. induction keys as [|k keys IH]; intros acc; simpl.
  - by rewrite app_nil_r.
  - rewrite IH, scan_owned, filter_cons.
    case_decide as Howned.
    + rewrite Howned. by rewrite <- app_assoc.
    + by destruct (owned E this ls k).
Qed.

Lemma unique_fold (keys acc : list string) :
  NoDup (acc ++ keys) ->
  fold_left
    (fun acc k => if decide (k ∈ acc) then acc else (acc ++ [k])%list) keys acc
  = (acc ++ keys)%list.
Proof.
  revert acc. induction keys as [|k keys IH]; intros acc Hnodup; simpl.
  - by rewrite app_nil_r.
  - apply NoDup_app in Hnodup as Hparts. destruct Hparts as (_ & Hsep & _).
    rewrite decide_False by (intros Hin; apply (Hsep k Hin); left).
    rewrite IH; rewrite <- app_assoc; done.
Qed.

Lemma unique_NoDup (keys : list string) :
  NoDup keys -> BrowserOAuthClientProvider.unique keys = keys.
Proof. intros H. unfold BrowserOAuthClientProvider.unique. by rewrite unique_fold. Qed.

Lemma removal_count (keys : list string) (count : nat) (ls : Storage) :
  (fold_left BrowserOAuthClientProvider.removal keys (count, ls)).1 = (count + length keys)%nat.
Proof.
  revert count ls. induction keys as [|k keys IH]; intros count ls; simpl.
  - lia.
  - rewrite IH. lia.
Qed.

Lemma removal_lookup (keys : list string) (count : nat) (ls : Storage)
    (key : string) :
  (fold_left BrowserOAuthClientProvider.removal keys (count, ls)).2 !! key
  = if decide (key ∈ keys) then None else ls !! key.
Proof.
  revert count ls. induction keys as [|k keys IH]; intros count ls;
    cbn [fold_left BrowserOAuthClientProvider.removal].
  - case_decide as Hin; [by apply not_elem_of_nil in Hin | done].
  - rewrite IH. unfold LocalStorage.removeItem.
    destruct (decide (key ∈ keys)) as [Hin|Hout].
    + by rewrite decide_True by (by right).
    + destruct (decide (key = k)) as [->|Hne].
      * rewrite lookup_delete_eq. by rewrite decide_True by left.
      * rewrite lookup_delete_ne by done.
        rewrite decide_False; [done |]. by intros [?|?]%elem_of_cons.
Qed.

Lemma removal_size (keys : list string) (count : nat) (ls : Storage) :
  NoDup keys -> (forall k, k ∈ keys -> is_Some (ls !! k)) ->
  (size (fold_left BrowserOAuthClientProvider.removal keys (count, ls)).2
   + length keys)%nat = size ls.
Proof.
  revert count ls. induction keys as [|k keys IH]; intros count ls Hnodup Hin;
    cbn [fold_left BrowserOAuthClientProvider.removal length].
  - cbn. lia.
  - apply NoDup_cons in Hnodup as [Hk Hnodup].
    unfold LocalStorage.removeItem.
    specialize (IH (S count) (delete k ls) Hnodup).
    destruct (Hin k) as [v Hv]; [left |].
    assert (size ls <> 0%nat) by (intros ->%map_size_empty_inv; done).
    assert (size (delete k ls) = pred (size ls))
      by (apply map_size_delete_Some; eauto).
    rewrite Nat.add_succ_r, IH; [lia |].
    intros k' Hk'. rewrite lookup_delete_ne by (intros ->; done).
    apply Hin. by right.
Qed.

Lemma elem_of_keys (ls : Storage) (key : string) :
  key ∈ LocalStorage.keys ls <-> is_Some (ls !! key).
Proof.
  unfold LocalStorage.keys. rewrite list_elem_of_fmap. split.
  - intros [[k v] [-> Hin]]. apply elem_of_map_to_list in Hin. by exists v.
  - intros [v Hv]. exists (key, v). split; [done |]. by apply elem_of_map_to_list.
Qed.

(** What [clearStorage] computes: the keys of the store that pass the
    test are removed, and counted. *)
Lemma clearStorage_spec (E : Engine) (this : BrowserOAuthClientProvider.t)
    (ls : Storage) :
  let result := BrowserOAuthClientProvider.clearStorage E this ls in
  (forall key,
      result.2 !! key = if owned E this ls key then None else ls !! key)
  /\ (result.1 + size result.2)%nat = size ls.
Proof.
  unfold BrowserOAuthClientProvider.clearStorage. cbn zeta.
  rewrite fold_scan. cbn [app].
  set (keys := filter _ _).
  assert (Hnodup : NoDup keys).
  { apply NoDup_filter, NoDup_fst_map_to_list. }
  rewrite unique_NoDup by done.
  split.
  - intros key. rewrite removal_lookup. unfold keys.
    destruct (owned E this ls key) eqn:Howned.
    + destruct (decide _) as [Hin|Hout]; [done |].
      destruct (ls !! key) eqn:Hkey; [| done].
      exfalso. apply Hout, list_elem_of_filter. split; [done |].
      apply elem_of_keys. by rewrite Hkey.
    + rewrite decide_False; [done |].
      intros [Hyes _]%list_elem_of_filter. congruence.
  - rewrite removal_count. cbn [Nat.add].
    rewrite Nat.add_comm. apply removal_size; [done |].
    intros k [_ Hk]%list_elem_of_filter. by apply elem_of_keys.
Qed.

(** With a common prefix and distinct hashes, no key belongs to two
    providers. *)
Lemma belongs_disjoint (E : Engine) (A B : BrowserOAuthClientProvider.t)
    (ls : Storage) (key : string) :
  BrowserOAuthClientProvider.storageKeyPrefix A
  = BrowserOAuthClientProvider.storageKeyPrefix B ->
  underscore_free (BrowserOAuthClientProvider.serverUrlHash A) ->
  underscore_free (BrowserOAuthClientProvider.serverUrlHash B) ->
  BrowserOAuthClientProvider.serverUrlHash A
  <> BrowserOAuthClientProvider.serverUrlHash B ->
  belongs E B ls key -> ~ belongs E A ls key.
Proof.
  intros Hprefix HA HB Hne.
  unfold belongs, credential_key, correlation_record,
    BrowserOAuthClientProvider.getKey, BrowserOAuthClientProvider.stateKey.
  rewrite Hprefix.
  intros [[s ->]|(tok & item & state & -> & Hitem & _ & Hparse & Hhash)]
         [[s' H]|(tok' & item' & state' & H & Hitem' & _ & Hparse' & Hhash')].
  - apply append_inv_head in H. apply (append_inv_head "_") in H.
    apply hash_separates in H; done.
  - apply append_inv_head in H. discriminate H.
  - apply append_inv_head in H. discriminate H.
  - rewrite Hitem in Hitem'. injection Hitem' as <-.
    rewrite Hparse in Hparse'. injection Hparse' as <-.
    rewrite Hhash in Hhash'. congruence.
Qed.




(** ** Connection cycle *)

(** *** Symbolic execution of the hook *)

Lemma hook_eta (h : Hook) :
  h = set_clock (clock h) (set_stateRef (stateRef h) h).
Proof. by destruct h. Qed.

(** While the instance stays mounted, a suspension changes nothing but
    the snapshot (to the state, if React commits) and the clock. *)
Lemma during_quiet {A} (a : Await A) (h : Hook) :
  isMountedRef h = true ->
  Unmount ∉ meanwhile a ->
  exists snapshot now,
    (snapshot = stateRef h \/ snapshot = state h)
    /\ during a h = set_clock now (set_stateRef snapshot h).
Proof.
  unfold during. generalize (meanwhile a) as l. intros l. revert h.
  induction l as [|i l IH]; intros h Hmounted Hquiet.
  - exists (stateRef h), (clock h). split; [by left | apply hook_eta].
  - apply not_elem_of_cons in Hquiet as [Hi Hquiet].
    cbn [fold_left]. destruct i as [| |ms]; [| done |].
    + cbn [interrupt]. rewrite Hmounted.
      destruct (IH (set_stateRef (state h) h)) as (snapshot & now & Hs & ->);
        [done | done |].
      exists snapshot, now. split; [| reflexivity].
      destruct Hs as [->| ->]; by right.
    + cbn [interrupt].
      destruct (IH (set_clock (clock h + ms) h)) as (snapshot & now & Hs & ->);
        [done | done |].
      exists snapshot, now. split; [exact Hs | reflexivity].
Qed.

(** If moreover React commits at least once, the snapshot is the state. *)
Lemma during_commit {A} (a : Await A) (h : Hook) :
  isMountedRef h = true ->
  Unmount ∉ meanwhile a ->
  Commit ∈ meanwhile a ->
  exists now, during a h = set_clock now (set_stateRef (state h) h).
Proof.
  unfold during. generalize (meanwhile a) as l. intros l. revert h.
  induction l as [|i l IH]; intros h Hmounted Hquiet Hcommit.
  - by apply not_elem_of_nil in Hcommit.
  - apply not_elem_of_cons in Hquiet as [Hi Hquiet].
    cbn [fold_left]. destruct i as [| |ms]; [| done |].
    + cbn [interrupt]. rewrite Hmounted.
      assert (Hl : l = meanwhile (mkAwait l tt)) by reflexivity.
      rewrite Hl in Hquiet.
      destruct (during_quiet (mkAwait l tt) (set_stateRef (state h) h)
                  Hmounted Hquiet) as (snapshot & now & Hs & Hd).
      unfold during in Hd. cbn [meanwhile] in Hd. rewrite Hd.
      exists now. destruct Hs as [->| ->]; reflexivity.
    + cbn [interrupt]. apply elem_of_cons in Hcommit as [?|Hcommit]; [done |].
      destruct (IH (set_clock (clock h + ms) h)) as (now & ->); try done.
      exists now. reflexivity.
Qed.

(** [addLog] touches the log only. *)
Lemma addLog_frame (level : Level) (message : string) (args : list LogArg)
    (h : Hook) :
  exists entries, addLog level message args h = set_log entries h.
Proof.
  unfold addLog. destruct (isMountedRef h); [by eexists |].
  exists (log h). by destruct h.
Qed.

(** Evaluation of the refs and variables of a hook given by a sequence
    of assignments. *)
Ltac hook_cbv :=
  cbv beta iota zeta delta
      [state tools resources prompts error log authUrl clientRef transportRef authProviderRef connectingRef isMountedRef connectAttemptRef authTimeoutRef stateRef successfulTransportRef localStorage clock trace
       set_state set_tools set_resources set_prompts set_error set_log set_authUrl set_clientRef set_transportRef set_authProviderRef set_connectingRef set_isMountedRef set_connectAttemptRef set_authTimeoutRef set_stateRef set_successfulTransportRef set_localStorage set_clock set_trace
       record leg fst snd negb andb orb].

Ltac hook_cbv_in H :=
  cbv beta iota zeta delta
      [state tools resources prompts error log authUrl clientRef transportRef authProviderRef connectingRef isMountedRef connectAttemptRef authTimeoutRef stateRef successfulTransportRef localStorage clock trace
       set_state set_tools set_resources set_prompts set_error set_log set_authUrl set_clientRef set_transportRef set_authProviderRef set_connectingRef set_isMountedRef set_connectAttemptRef set_authTimeoutRef set_stateRef set_successfulTransportRef set_localStorage set_clock set_trace
       record leg fst snd negb andb orb] in H.

Ltac hook_cbn :=
  cbn [state tools resources prompts error log authUrl clientRef transportRef authProviderRef connectingRef isMountedRef connectAttemptRef authTimeoutRef stateRef successfulTransportRef localStorage clock trace
       set_state set_tools set_resources set_prompts set_error set_log set_authUrl set_clientRef set_transportRef set_authProviderRef set_connectingRef set_isMountedRef set_connectAttemptRef set_authTimeoutRef set_stateRef set_successfulTransportRef set_localStorage set_clock set_trace
       record leg fst snd negb andb orb].

Ltac hook_cbn_in H :=
  cbn [state tools resources prompts error log authUrl clientRef transportRef authProviderRef connectingRef isMountedRef connectAttemptRef authTimeoutRef stateRef successfulTransportRef localStorage clock trace
       set_state set_tools set_resources set_prompts set_error set_log set_authUrl set_clientRef set_transportRef set_authProviderRef set_connectingRef set_isMountedRef set_connectAttemptRef set_authTimeoutRef set_stateRef set_successfulTransportRef set_localStorage set_clock set_trace
       record leg fst snd negb andb orb] in H.

(** The value of a ref or variable in a hook given by assignments to an
    arbitrary hook. *)
Ltac assigned h :=
  lazymatch h with
  | context [during] => fail
  | context [failConnection] => fail
  | context [conclude] => fail
  | context [create] => fail
  | context [try_enter] => fail
  | context [connect_enter] => fail
  | context [on_connect_error] => fail
  | context [connect_client] => fail
  | context [after_http] => fail
  | _ => idtac
  end.

Ltac resolve_with f :=
  repeat match goal with
  | |- context [f ?h] =>
      assigned h;
      let v := eval cbn [state tools resources prompts error log authUrl clientRef transportRef authProviderRef connectingRef isMountedRef connectAttemptRef authTimeoutRef stateRef successfulTransportRef localStorage clock trace
       set_state set_tools set_resources set_prompts set_error set_log set_authUrl set_clientRef set_transportRef set_authProviderRef set_connectingRef set_isMountedRef set_connectAttemptRef set_authTimeoutRef set_stateRef set_successfulTransportRef set_localStorage set_clock set_trace
       record] in (f h) in
      let Heq := fresh "Heq" in
      assert (Heq : f h = v) by reflexivity;
      progress rewrite Heq; clear Heq
  end.

Ltac resolve :=
  resolve_with isMountedRef; resolve_with stateRef;
  resolve_with authProviderRef; resolve_with clientRef;
  resolve_with transportRef; resolve_with connectingRef.

(** A hook whose fields are named. *)
Ltac name_fields h := destruct h; cbn in *; subst.

Ltac settle_logs :=
  repeat match goal with
  | |- context [addLog ?l ?m ?a ?h] =>
      let entries := fresh "entries" in
      destruct (addLog_frame l m a h) as [entries ->]
  end.

Ltac settle_during Hquiet :=
  match goal with
  | |- context [during ?a ?h] =>
      let s := fresh "snapshot" in
      let n := fresh "now" in
      let Hd := fresh "Hduring" in
      destruct (during_quiet a h) as (s & n & _ & Hd);
      [hook_cbn; (assumption || reflexivity) | exact Hquiet
      | rewrite Hd; clear Hd]
  end.

(** [failConnection] on a mounted hook. *)
Lemma failConnection_mounted (E : Engine) (errorMessage : string)
    (connectionError : option JsError) (h : Hook) :
  isMountedRef h = true ->
  exists entries manualUrl,
    failConnection E errorMessage connectionError h
    = set_connectingRef false
        (set_log entries
           (set_authUrl manualUrl
              (set_error (Some errorMessage)
                 (set_state failed
                    (record (FailConnection errorMessage) h))))).
Proof.
  intros Hmounted. destruct h. cbn in Hmounted. subst.
  unfold failConnection, addLog. hook_cbv.
  destruct (_ ≫= _) as [manualUrl|]; [destruct (Js.truthy manualUrl) |];
    eexists _, _; reflexivity.
Qed.

Ltac settle_failure :=
  match goal with
  | |- context [failConnection ?E ?m ?c ?h] =>
      let entries := fresh "entries" in
      let manualUrl := fresh "manualUrl" in
      let Hf := fresh "Hfail" in
      destruct (failConnection_mounted E m c h) as (entries & manualUrl & Hf);
      [hook_cbn; (assumption || reflexivity) | rewrite Hf; clear Hf]
  end.

(** The two places where the state is set unless the snapshot says
    [authenticating]. *)
Lemma keep_or_connect (c : bool) (h : Hook) :
  exists st,
    (if c then h else set_state connecting h) = set_state st h
    /\ (c = false -> st = connecting).
Proof.
  destruct c; [exists (state h) | exists connecting]; split; try done.
  by destruct h.
Qed.

Lemma keep_or_authenticate (c : bool) (h : Hook) :
  exists st timer,
    (if c then h else set_authTimeoutRef true (set_state authenticating h))
    = set_authTimeoutRef timer (set_state st h)
    /\ (c = false -> st = authenticating).
Proof.
  destruct c; [exists (state h), (authTimeoutRef h) | exists authenticating, true];
    split; try done.
  by destruct h.
Qed.

Ltac settle_tests :=
  repeat match goal with
  | |- context [if ?c then ?h else set_state connecting ?h] =>
      let st := fresh "st" in
      let Hst := fresh "Hst" in
      destruct (keep_or_connect c h) as (st & -> & Hst)
  | |- context [if ?c then ?h
                else set_authTimeoutRef true (set_state authenticating ?h)] =>
      let st := fresh "st" in
      let timer := fresh "timer" in
      let Hst := fresh "Hst" in
      destruct (keep_or_authenticate c h) as (st & timer & -> & Hst)
  end.

(** *** Each step of [connect], on the paths the properties follow *)

Lemma create_normal (E : Engine) (B : Browser) (O : Options)
    (transportType : TransportType) (h : Hook) :
  invalid_url B (url O) = None ->
  exists entries,
    create E B O transportType h
    = (true,
       set_log entries
         (set_trace (trace h ++ [NewTransport transportType])
            (set_transportRef (Some transportType) h))).
Proof.
  intros Hurl. unfold create. rewrite Hurl. cbv zeta. settle_logs.
  by eexists.
Qed.

(** An attempt is entered while a transport is bound: it suspends at the
    close of that transport. *)
Lemma try_enter_normal (E : Engine) (B : Browser) (O : Options)
    (transportType previous : TransportType) (h : Hook) :
  is_Some (authProviderRef h) ->
  is_Some (clientRef h) ->
  transportRef h = Some previous ->
  exists entries st,
    try_enter E B O transportType h
    = (inr (AwaitClose transportType),
       set_trace (trace h ++ [Attempt transportType; CloseTransport previous])
         (set_state st (set_log entries h)))
    /\ (stateRef h <> authenticating -> st = connecting).
Proof.
  intros [provider Hprovider] [client Hclient] Htransport.
  unfold try_enter. cbv zeta. settle_logs. settle_tests.
  name_fields h. hook_cbv.
  eexists _, _. split.
  - f_equal. rewrite <- app_assoc. reflexivity.
  - intros Hsnapshot. apply Hst. hook_cbv.
    by apply bool_decide_eq_false_2.
Qed.

(** The end of [connect] for a status other than [fallback]. *)
Lemma conclude_normal (E : Engine) (finalStatus : TryResult) (h : Hook) :
  finalStatus <> r_fallback ->
  exists entries flag,
    conclude E finalStatus h = set_log entries (set_connectingRef flag h)
    /\ (finalStatus = r_failed -> flag = false).
Proof.
  intros Hstatus. unfold conclude.
  destruct finalStatus; try done; cbv zeta beta iota; settle_logs.
  - by exists entries, false.
  - exists entries, (connectingRef h). split; [by destruct h | done].
  - by exists entries, false.
Qed.

(** [connect()] is called again on a mounted hook whose flag has just
    been cleared: a fresh cycle is entered, and suspends in its primary
    attempt. *)
Lemma connect_enter_normal (E : Engine) (B : Browser) (O : Options)
    (previous : TransportType) (h : Hook) :
  connectingRef h = false ->
  isMountedRef h = true ->
  is_Some (authProviderRef h) ->
  is_Some (clientRef h) ->
  transportRef h = Some previous ->
  exists entries st,
    connect_enter E B O h
    = (Some (AwaitClose http),
       set_trace (trace h ++ [Connect; Attempt http; CloseTransport previous])
         (set_state st
            (set_log entries
               (set_successfulTransportRef None
                  (set_authUrl None
                     (set_error None
                        (set_connectAttemptRef (S (connectAttemptRef h))
                           (set_connectingRef true h)))))))).
Proof.
  intros Hidle Hmounted [provider Hprovider] [client Hclient] Htransport.
  unfold connect_enter. rewrite Hidle, Hmounted. cbv zeta beta iota delta [negb].
  settle_logs. resolve. rewrite Hprovider. cbv beta iota.
  resolve. rewrite Hclient. cbv beta iota.
  match goal with
  | |- context [try_enter E B O http ?h0] =>
      destruct (try_enter_normal E B O http previous h0)
        as (entries' & st & -> & _);
        [hook_cbn; eauto .. |]
  end.
  name_fields h. hook_cbv. eexists _, _. f_equal. f_equal.
  rewrite <- !app_assoc. reflexivity.
Qed.

Lemma classify_soft (e : JsError) :
  classify http e = SoftRetryable ->
  is404 (err_message e) || is405 (err_message e) || isLikelyCors (err_message e)
  = true.
Proof.
  unfold classify. rewrite bool_decide_eq_true_2 by done. cbn [andb].
  destruct (soft_retryable e) eqn:Hsoft; [done |].
  by destruct (unauthorized e).
Qed.

Lemma classify_unauthorized (transportType : TransportType) (e : JsError) :
  classify transportType e = Unauthorized ->
  bool_decide (transportType = http)
  && (is404 (err_message e) || is405 (err_message e)
      || isLikelyCors (err_message e)) = false
  /\ unauthorized e = true.
Proof.
  unfold classify, soft_retryable.
  destruct (bool_decide (transportType = http) && _); [done |].
  by destruct (unauthorized e).
Qed.

(** A soft failure of the primary attempt asks for the fallback, and
    only logs. *)
Lemma on_connect_error_soft (E : Engine) (B : Browser) (O : Options)
    (e : JsError) (authorizing : Await AuthSettlement) (h : Hook) :
  classify http e = SoftRetryable ->
  exists entries,
    on_connect_error E B O http e authorizing h
    = (r_fallback, None, set_log entries h).
Proof.
  intros Hsoft%classify_soft. unfold on_connect_error. cbv zeta.
  rewrite Hsoft. rewrite (bool_decide_eq_true_2 (http = http) eq_refl).
  cbv beta iota delta [andb]. settle_logs. name_fields h. by eexists.
Qed.

(** A failure of the secondary attempt that is not an authorization
    matter, or whose authorization routine throws, is terminal. *)
Lemma on_connect_error_terminal (E : Engine) (B : Browser) (O : Options)
    (e : JsError) (authorizing : Await AuthSettlement) (h : Hook) :
  isMountedRef h = true ->
  Unmount ∉ meanwhile authorizing ->
  is_Some (authProviderRef h) ->
  unauthorized e = false
  \/ (exists sdkAuthError,
        auth_result (settles authorizing) = inr sdkAuthError) ->
  exists h' errorMessage,
    on_connect_error E B O sse e authorizing h = (r_failed, None, h')
    /\ state h' = failed
    /\ error h' = Some errorMessage
    /\ attempts (trace h') = attempts (trace h)
    /\ failures (trace h') = (failures (trace h) ++ [errorMessage])%list.
Proof.
  intros Hmounted Hquiet [provider Hprovider] Hfails.
  unfold on_connect_error. cbv zeta.
  rewrite !(bool_decide_eq_false_2 (sse = http)) by discriminate.
  cbv beta iota delta [andb]. settle_logs.
  destruct (unauthorized e) eqn:Hunauthorized.
  - destruct Hfails as [?|[sdkAuthError Hthrows]]; [done |].
    rewrite Hthrows. settle_tests. resolve. rewrite Hprovider.
    cbv beta iota. settle_during Hquiet. settle_logs. resolve.
    rewrite Hmounted. cbv beta iota delta [negb]. settle_failure.
    eexists _, _. split; [reflexivity |].
    name_fields h. hook_cbv. unfold attempts, failures.
    rewrite !omap_app. cbn. rewrite !app_nil_r. repeat split; reflexivity.
  - settle_failure.
    eexists _, _. split; [reflexivity |].
    name_fields h. hook_cbv. unfold attempts, failures.
    rewrite !omap_app. cbn. rewrite !app_nil_r. repeat split; reflexivity.
Qed.

(** An unauthorized failure followed by "AUTHORIZED": a fresh [connect()]
    is entered, which suspends in its primary attempt. *)
Lemma on_connect_error_authorized (E : Engine) (B : Browser) (O : Options)
    (transportType previous : TransportType) (e : JsError)
    (authorizing : Await AuthSettlement) (h : Hook) :
  isMountedRef h = true ->
  Unmount ∉ meanwhile authorizing ->
  is_Some (authProviderRef h) ->
  is_Some (clientRef h) ->
  transportRef h = Some previous ->
  classify transportType e = Unauthorized ->
  auth_result (settles authorizing) = inl "AUTHORIZED" ->
  exists h',
    on_connect_error E B O transportType e authorizing h
    = (r_failed, Some (AwaitClose http), h')
    /\ trace h'
       = (trace h ++ [Auth; Connect; Attempt http; CloseTransport previous])%list
    /\ connectAttemptRef h' = S (connectAttemptRef h)
    /\ connectingRef h' = true
    /\ isMountedRef h' = true.
Proof.
  intros Hmounted Hquiet [provider Hprovider] [client Hclient] Htransport
    [Hhard Hunauthorized]%classify_unauthorized Hresult.
  unfold on_connect_error. cbv zeta.
  rewrite Hhard, Hunauthorized, Hresult. cbv beta iota.
  settle_logs. settle_tests. resolve. rewrite Hprovider. cbv beta iota.
  settle_during Hquiet. resolve. rewrite Hmounted.
  cbv beta iota delta [negb].
  change (("AUTHORIZED" =? "AUTHORIZED")%string) with true. cbv beta iota.
  match goal with
  | |- context [connect_enter E B O ?h0] =>
      destruct (connect_enter_normal E B O previous h0)
        as (entries' & st' & ->); [hook_cbn; eauto .. |]
  end.
  eexists. split; [reflexivity |].
  name_fields h. hook_cbv. rewrite <- !app_assoc. done.
Qed.

(** The primary attempt fails softly: the secondary attempt is entered,
    nothing else leaves the hook. *)
Lemma step_soft (E : Engine) (B : Browser) (O : Options)
    (script : Script) (h : Hook) (e : JsError) :
  isMountedRef h = true ->
  Unmount ∉ meanwhile (on_connect script) ->
  is_Some (authProviderRef h) ->
  is_Some (clientRef h) ->
  transportRef h = Some http ->
  settles (on_connect script) = Some e ->
  classify http e = SoftRetryable ->
  stateRef (during (on_connect script) h) <> authenticating ->
  let after := step E B O script (AwaitConnect http) h in
  after.1 = Some (AwaitClose sse)
  /\ trace after.2 = (trace h ++ [Attempt sse; CloseTransport http])%list
  /\ state after.2 = connecting
  /\ isMountedRef after.2 = true
  /\ authProviderRef after.2 = authProviderRef h
  /\ clientRef after.2 = clientRef h.
Proof.
  intros Hmounted Hquiet Hprovider Hclient Htransport Hsettle Hclass Hsnapshot.
  destruct (during_quiet (on_connect script) h Hmounted Hquiet)
    as (snapshot & now & _ & Hduring).
  rewrite Hduring in Hsnapshot. hook_cbv_in Hsnapshot.
  unfold step, try_resume, connect_client. cbv zeta. rewrite Hduring, Hsettle.
  match goal with
  | |- context [on_connect_error E B O http e ?a ?h0] =>
      destruct (on_connect_error_soft E B O e a h0 Hclass) as [entries ->]
  end.
  cbv beta iota delta [leg]. unfold after_http.
  rewrite (bool_decide_eq_true_2 (r_fallback = r_fallback) eq_refl).
  resolve. rewrite Hmounted, (bool_decide_eq_false_2 _ Hsnapshot).
  cbv beta iota delta [andb negb].
  match goal with
  | |- context [try_enter E B O sse ?h0] =>
      destruct (try_enter_normal E B O sse http h0)
        as (entries' & st & -> & Hst); [hook_cbn; eauto .. |]
  end.
  hook_cbn_in Hst. rewrite (Hst Hsnapshot).
  name_fields h. hook_cbv. repeat split; reflexivity.
Qed.

(** An attempt resumes after the close of the previous transport: the
    new transport is created and the client is asked to connect. *)
Lemma try_resume_close (E : Engine) (B : Browser) (O : Options)
    (script : Script) (transportType : TransportType) (h : Hook) :
  isMountedRef h = true ->
  Unmount ∉ meanwhile (on_close script) ->
  is_Some (clientRef h) ->
  invalid_url B (url O) = None ->
  exists h',
    try_resume E B O (AwaitClose transportType) script h
    = connect_client E B O transportType script h'
    /\ isMountedRef h' = true
    /\ authProviderRef h' = authProviderRef h
    /\ trace h'
       = (trace h ++ [NewTransport transportType; ClientConnect transportType])%list.
Proof.
  intros Hmounted Hclose [client Hclient] Hurl.
  unfold try_resume. cbv zeta. settle_during Hclose.
  assert (Hlog : forall (o : option JsError) h0,
             exists entries,
               match o with
               | Some e0 =>
                   addLog Warn
                     ("Error closing previous transport: " +:+ err_message e0) [] h0
               | None => h0
               end = set_log entries h0).
  { intros [e0|] h0; [apply addLog_frame | exists (log h0); by destruct h0]. }
  match goal with
  | |- context [match settles (on_close script) with
                | Some e0 => @?f e0 | None => ?h0 end] =>
      destruct (Hlog (settles (on_close script)) h0) as [entries ->]
  end.
  clear Hlog.
  match goal with
  | |- context [create E B O transportType ?h0] =>
      destruct (create_normal E B O transportType h0 Hurl) as [entries' ->]
  end.
  cbv beta iota. settle_logs. resolve. rewrite Hclient. cbv beta iota.
  eexists. split; [reflexivity |].
  hook_cbn. rewrite <- app_assoc. done.
Qed.

(** The secondary attempt fails for good: the cycle ends in a terminal
    failure, without a further attempt. *)
Lemma step_terminal (E : Engine) (B : Browser) (O : Options)
    (script : Script) (h : Hook) (e : JsError) :
  isMountedRef h = true ->
  Unmount ∉ meanwhile (on_close script) ->
  Unmount ∉ meanwhile (on_connect script) ->
  Unmount ∉ meanwhile (on_auth script) ->
  is_Some (authProviderRef h) ->
  is_Some (clientRef h) ->
  invalid_url B (url O) = None ->
  settles (on_connect script) = Some e ->
  unauthorized e = false
  \/ (exists sdkAuthError,
        auth_result (settles (on_auth script)) = inr sdkAuthError) ->
  exists h',
    step E B O script (AwaitClose sse) h = (None, h')
    /\ state h' = failed
    /\ is_Some (error h')
    /\ connectingRef h' = false
    /\ attempts (trace h') = attempts (trace h)
    /\ length (failures (trace h')) = S (length (failures (trace h))).
Proof.
  intros Hmounted Hclose Hconnect Hauth Hprovider Hclient Hurl Hsettle Hfails.
  unfold step.
  destruct (try_resume_close E B O script sse h Hmounted Hclose Hclient Hurl)
    as (h1 & -> & Hmounted1 & Hprovider1 & Htrace1).
  unfold connect_client. cbv zeta. settle_during Hconnect. rewrite Hsettle.
  match goal with
  | |- context [on_connect_error E B O sse e ?a ?h0] =>
      destruct (on_connect_error_terminal E B O e a h0)
        as (h2 & errorMessage & -> & Hstate & Herror & Hattempts & Hfailures);
        [hook_cbn; try rewrite Hprovider1; eauto .. |]
  end.
  cbv beta iota delta [leg].
  destruct (conclude_normal E r_failed h2) as (? & flag & -> & Hflag);
    [done |].
  rewrite (Hflag eq_refl). eexists. split; [reflexivity |]. hook_cbn.
  hook_cbn_in Hattempts. hook_cbn_in Hfailures.
  rewrite Hstate, Herror, Hattempts, Hfailures, Htrace1, length_app.
  unfold attempts, failures. rewrite !omap_app. cbn.
  rewrite !app_nil_r.
  repeat split; eauto. lia.
Qed.

(** An unauthorized failure followed by "AUTHORIZED": the cycle stops
    there, and a fresh one is suspended in its primary attempt. *)
Lemma step_authorized (E : Engine) (B : Browser) (O : Options)
    (script : Script) (transportType previous : TransportType) (h : Hook)
    (e : JsError) :
  isMountedRef h = true ->
  Unmount ∉ meanwhile (on_connect script) ->
  Unmount ∉ meanwhile (on_auth script) ->
  is_Some (authProviderRef h) ->
  is_Some (clientRef h) ->
  transportRef h = Some previous ->
  settles (on_connect script) = Some e ->
  classify transportType e = Unauthorized ->
  auth_result (settles (on_auth script)) = inl "AUTHORIZED" ->
  let after := step E B O script (AwaitConnect transportType) h in
  after.1 = Some (AwaitClose http)
  /\ trace after.2
     = (trace h ++ [Auth; Connect; Attempt http; CloseTransport previous])%list
  /\ connectAttemptRef after.2 = S (connectAttemptRef h).
Proof.
  intros Hmounted Hconnect Hauth Hprovider Hclient Htransport Hsettle Hclass
    Hresult.
  unfold step, try_resume, connect_client. cbv zeta.
  settle_during Hconnect. rewrite Hsettle.
  match goal with
  | |- context [on_connect_error E B O transportType e ?a ?h0] =>
      destruct (on_connect_error_authorized E B O transportType previous e a h0)
        as (h' & -> & Htrace & Hcount & _); [hook_cbn; eauto .. |]
  end.
  revert Htrace Hcount. hook_cbn. intros Htrace Hcount.
  destruct (conclude_normal E r_failed h') as (? & flag & Hconclude & _);
    [done |].
  destruct transportType; cbv beta iota delta [leg]; unfold after_http.
  - rewrite (bool_decide_eq_false_2 (r_failed = r_fallback)) by discriminate.
    cbv beta iota delta [andb]. rewrite Hconclude. hook_cbn. done.
  - rewrite Hconclude. hook_cbn. done.
Qed.

(** The fallback under its guard: when the primary attempt is rejected
    with a soft-retryable error while the instance is mounted and the
    snapshot [stateRef] read at that point is not [authenticating], the
    secondary attempt is entered at once: exactly one [Attempt sse] is
    recorded, no terminal failure before it.  If that attempt is then
    rejected for good (an error that is no authorization matter, or an
    authorization routine that throws), the cycle ends in the [failed]
    state with an error and without any further attempt. *)
Theorem fallback_exactly_once (E : Engine) (B : Browser) (O : Options)
    (script : Script) (h : Hook) (e : JsError) :
  isMountedRef h = true ->
  Unmount ∉ meanwhile (on_connect script) ->
  is_Some (authProviderRef h) ->
  is_Some (clientRef h) ->
  transportRef h = Some http ->
  settles (on_connect script) = Some e ->
  classify http e = SoftRetryable ->
  stateRef (during (on_connect script) h) <> authenticating ->
  let first := step E B O script (AwaitConnect http) h in
  first.1 = Some (AwaitClose sse)
  /\ trace first.2 = (trace h ++ [Attempt sse; CloseTransport http])%list
  /\ state first.2 = connecting
  /\ forall (script2 : Script) (e2 : JsError),
       Unmount ∉ meanwhile (on_close script2) ->
       Unmount ∉ meanwhile (on_connect script2) ->
       Unmount ∉ meanwhile (on_auth script2) ->
       invalid_url B (url O) = None ->
       settles (on_connect script2) = Some e2 ->
       unauthorized e2 = false
       \/ (exists sdkAuthError,
             auth_result (settles (on_auth script2)) = inr sdkAuthError) ->
       let second := step E B O script2 (AwaitClose sse) first.2 in
       second.1 = None
       /\ state second.2 = failed
       /\ is_Some (error second.2)
       /\ connectingRef second.2 = false
       /\ attempts (trace second.2) = (attempts (trace h) ++ [sse])%list
       /\ length (failures (trace second.2)) = S (length (failures (trace h))).
Proof.
  intros Hmounted Hquiet Hprovider Hclient Htransport Hsettle Hclass Hsnapshot
    first.
  destruct (step_soft E B O script h e Hmounted Hquiet Hprovider Hclient
              Htransport Hsettle Hclass Hsnapshot)
    as (Hnext & Htrace & Hstate & Hmounted1 & Hprovider1 & Hclient1).
  fold first in Hnext, Htrace, Hstate, Hmounted1, Hprovider1, Hclient1.
  split; [exact Hnext|]. split; [exact Htrace|]. split; [exact Hstate|].
  intros script2 e2 Hclose2 Hconnect2 Hauth2 Hurl Hsettle2 Hfails second.
  destruct (step_terminal E B O script2 first.2 e2) as
    (h2 & Hstep & Hfailed & Herror & Hidle & Hattempts & Hfailures);
    try done; try congruence.
  unfold second. rewrite Hstep. cbn [fst snd].
  rewrite Hattempts, Hfailures, Htrace. unfold attempts, failures.
  rewrite !omap_app. cbn. rewrite !app_nil_r.
  repeat split; done.
Qed.

Lemma fallback_exactly_once_witness :
  let h := connect Sample.engine Sample.browser Sample.options [] Sample.started in
  let first :=
    step Sample.engine Sample.browser Sample.options Sample.not_found
      (AwaitConnect http) h in
  let second :=
    step Sample.engine Sample.browser Sample.options Sample.not_found
      (AwaitClose sse) first.2 in
  isMountedRef h = true
  /\ transportRef h = Some http
  /\ stateRef (during (on_connect Sample.not_found) h) <> authenticating
  /\ first.1 = Some (AwaitClose sse)
  /\ trace first.2 = (trace h ++ [Attempt sse; CloseTransport http])%list
  /\ second.1 = None
  /\ state second.2 = failed
  /\ attempts (trace second.2) = (attempts (trace h) ++ [sse])%list.
Proof.
  intros h first second.
  assert (Hmounted : isMountedRef h = true) by reflexivity.
  assert (Htransport : transportRef h = Some http) by reflexivity.
  assert (Hsnapshot :
            stateRef (during (on_connect Sample.not_found) h) <> authenticating)
    by (vm_compute; discriminate).
  assert (Hquiet : forall {A} (a : A), Unmount ∉ meanwhile (Sample.quietly a))
    by (intros A a; apply not_elem_of_nil).
  destruct (fallback_exactly_once Sample.engine Sample.browser Sample.options
              Sample.not_found h
              (new_Error "Error POSTing to endpoint (HTTP 404): Not Found")
              Hmounted (Hquiet _ _) (ex_intro _ _ eq_refl)
              (ex_intro _ _ eq_refl) Htransport eq_refl eq_refl Hsnapshot)
    as (Hnext & Htrace & _ & Hsecond).
  destruct (Hsecond Sample.not_found
              (new_Error "Error POSTing to endpoint (HTTP 404): Not Found")
              (Hquiet _ _) (Hquiet _ _) (Hquiet _ _) eq_refl eq_refl
              (or_introl eq_refl))
    as (Hend & Hfailed & _ & _ & Hattempts & _).
  repeat split; assumption.
Defined.

(** C1 (whether the fallback is made depends on when React commits):
    the popup reports success while the hook waits in [authenticating];
    [connect()] is entered again, sets the state to [discovering], and
    its primary attempt is rejected with HTTP 404, a soft-retryable
    error, the instance being mounted throughout.  When nothing is
    committed before the rejection, the snapshot still reads the
    [authenticating] of the cycle before: the secondary attempt is
    skipped and the cycle fails with "All transport methods failed".
    When React commits while the previous transport closes, the same
    rejection is followed by the secondary attempt. *)
Lemma fallback_skipped_while_authenticating :
  let waiting :=
    connect Sample.engine Sample.browser Sample.options
      [Sample.needs_auth "REDIRECT"] Sample.started in
  let reconnect commits :=
    messageHandler Sample.engine Sample.browser Sample.options
      Sample.popup_success [Sample.not_found_after commits] waiting in
  state waiting = authenticating
  /\ stateRef waiting = authenticating
  /\ settles (on_connect (Sample.not_found_after []))
     = Some (new_Error "Error POSTing to endpoint (HTTP 404): Not Found")
  /\ classify http (new_Error "Error POSTing to endpoint (HTTP 404): Not Found")
     = SoftRetryable
  /\ trace (reconnect [])
     = (trace waiting
        ++ [Connect; Attempt http; CloseTransport http; NewTransport http;
            ClientConnect http; FailConnection "All transport methods failed"])%list
  /\ state (reconnect []) = failed
  /\ error (reconnect []) = Some "All transport methods failed"
  /\ isMountedRef (reconnect []) = true
  /\ trace (reconnect [Commit])
     = (trace waiting
        ++ [Connect; Attempt http; CloseTransport http; NewTransport http;
            ClientConnect http; Attempt sse; CloseTransport http])%list.
Proof.
  vm_compute. repeat split; reflexivity.
Qed.

(** C2: when an attempt is rejected with an unauthorized error and the
    authorization routine returns "AUTHORIZED" (the instance being
    mounted), the cycle stops there: [connect()] is entered afresh, its
    counter incremented, and what is then awaited is its primary
    attempt; no secondary attempt is made in between. *)
Theorem authorized_restarts_at_primary (E : Engine) (B : Browser) (O : Options)
    (script : Script) (transportType previous : TransportType) (h : Hook)
    (e : JsError) :
  isMountedRef h = true ->
  Unmount ∉ meanwhile (on_connect script) ->
  Unmount ∉ meanwhile (on_auth script) ->
  is_Some (authProviderRef h) ->
  is_Some (clientRef h) ->
  transportRef h = Some previous ->
  settles (on_connect script) = Some e ->
  classify transportType e = Unauthorized ->
  auth_result (settles (on_auth script)) = inl "AUTHORIZED" ->
  let after := step E B O script (AwaitConnect transportType) h in
  after.1 = Some (AwaitClose http)
  /\ trace after.2
     = (trace h ++ [Auth; Connect; Attempt http; CloseTransport previous])%list
  /\ attempts (trace after.2) = (attempts (trace h) ++ [http])%list
  /\ connectAttemptRef after.2 = S (connectAttemptRef h).
Proof.
  intros Hmounted Hconnect Hauth Hprovider Hclient Htransport Hsettle Hclass
    Hresult after.
  destruct (step_authorized E B O script transportType previous h e)
    as (Hnext & Htrace & Hcount); try done.
  fold after in Hnext, Htrace, Hcount.
  repeat split; try done.
  rewrite Htrace. unfold attempts. rewrite omap_app. reflexivity.
Qed.

Lemma authorized_restarts_at_primary_witness :
  let h := connect Sample.engine Sample.browser Sample.options [] Sample.started in
  let after :=
    step Sample.engine Sample.browser Sample.options
      (Sample.needs_auth "AUTHORIZED") (AwaitConnect http) h in
  isMountedRef h = true
  /\ classify http (mkError true "Unauthorized") = Unauthorized
  /\ after.1 = Some (AwaitClose http)
  /\ trace after.2
     = (trace h ++ [Auth; Connect; Attempt http; CloseTransport http])%list
  /\ attempts (trace after.2) = (attempts (trace h) ++ [http])%list
  /\ connectAttemptRef after.2 = S (connectAttemptRef h).
Proof.
  intros h after.
  assert (Hmounted : isMountedRef h = true) by reflexivity.
  assert (Hclass : classify http (mkError true "Unauthorized") = Unauthorized)
    by reflexivity.
  assert (Hquiet : Unmount ∉ [Commit])
    by (intros Hin; apply list_elem_of_singleton in Hin; discriminate).
  split; [exact Hmounted |]. split; [exact Hclass |].
  exact (authorized_restarts_at_primary Sample.engine Sample.browser
           Sample.options (Sample.needs_auth "AUTHORIZED") http http h
           (mkError true "Unauthorized") Hmounted Hquiet Hquiet
           (ex_intro _ _ eq_refl) (ex_intro _ _ eq_refl) eq_refl eq_refl
           Hclass eq_refl).
Defined.

(** ** Re-authorization of request operations *)

(** What a suspension leaves of the snapshot on a mounted instance: the
    state, if React commits meanwhile, else the snapshot as it was. *)
Lemma during_snapshot {A} (a : Await A) (h : Hook) :
  isMountedRef h = true ->
  Unmount ∉ meanwhile a ->
  exists now,
    during a h
    = set_clock now
        (set_stateRef
           (if bool_decide (Commit ∈ meanwhile a) then state h else stateRef h)
           h).
Proof.
  unfold during. generalize (meanwhile a) as l. intros l. revert h.
  induction l as [|i l IH]; intros h Hmounted Hquiet.
  - exists (clock h). rewrite bool_decide_eq_false_2 by apply not_elem_of_nil.
    apply hook_eta.
  - apply not_elem_of_cons in Hquiet as [Hi Hquiet].
    cbn [fold_left]. destruct i as [| |ms]; [| done |].
    + cbn [interrupt]. rewrite Hmounted.
      destruct (IH (set_stateRef (state h) h)) as (now & ->); [done | done |].
      exists now. rewrite (bool_decide_eq_true_2 (Commit ∈ Commit :: l))
        by apply list_elem_of_here.
      hook_cbn. by destruct (bool_decide (Commit ∈ l)).
    + cbn [interrupt].
      destruct (IH (set_clock (clock h + ms) h)) as (now & ->); [done | done |].
      exists now. hook_cbn.
      assert (Hsame : bool_decide (Commit ∈ Elapse ms :: l)
                      = bool_decide (Commit ∈ l)).
      { apply bool_decide_ext. rewrite elem_of_cons.
        split; [intros [[=]|?]; assumption | by right]. }
      by rewrite Hsame.
Qed.

Ltac settle_snapshot Hquiet :=
  match goal with
  | |- context [during ?a ?h] =>
      let n := fresh "now" in
      let Hd := fresh "Hduring" in
      destruct (during_snapshot a h) as (n & Hd);
      [hook_cbn; (assumption || reflexivity) | exact Hquiet
      | rewrite Hd; clear Hd]
  end.

Lemma guard_passed (h : Hook) :
  guard h = false -> stateRef h = ready /\ is_Some (clientRef h).
Proof.
  unfold guard. intros [Hready Hclient]%orb_false_elim.
  apply negb_false_iff, bool_decide_eq_true_1 in Hready.
  split; [exact Hready|]. destruct (clientRef h); [eauto | discriminate].
Qed.

(** The test that settles [callTool] after a re-authorization: the
    snapshot reads [authenticating] exactly when React has committed
    while the authorization routine was pending. *)
Lemma waiting_for_redirect (requested committed : bool) :
  (if bool_decide
        ((if committed then authenticating
          else if requested then ready else ready) = authenticating)
   then false else true)
  = negb committed.
Proof. by destruct requested, committed. Qed.

Ltac settle_choice :=
  match goal with
  | |- context [if negb ?c then (?r1, ?s, ?h) else (?r2, ?s, ?h)] =>
      replace (if negb c then (r1, s, h) else (r2, s, h))
        with (if c then r2 else r1, s, h) by (by destruct c)
  end.

(** [callTool] up to the settlement of the authorization routine, the
    request having been rejected as unauthorized. *)
Lemma callTool_authorized (E : Engine) (B : Browser) (O : Options)
    (st : ConnState) (name : string) (args : option string)
    (exchange : Exchange) (previous : TransportType) (h : Hook) (err : JsError) :
  guard h = false ->
  state h = ready ->
  isMountedRef h = true ->
  Unmount ∉ meanwhile (on_request exchange) ->
  Unmount ∉ meanwhile (on_reauth exchange) ->
  is_Some (authProviderRef h) ->
  transportRef h = Some previous ->
  settles (on_request exchange) = inr err ->
  unauthorized err = true ->
  auth_result (settles (on_reauth exchange)) = inl "AUTHORIZED" ->
  exists h',
    callTool E B O st name args exchange h
    = (if bool_decide (Commit ∈ meanwhile (on_reauth exchange))
       then Resolves None else Rejects err,
       Some (AwaitClose http), h')
    /\ trace h'
       = (trace h ++ [Request "tools/call"; Auth; Connect; Attempt http;
                      CloseTransport previous])%list
    /\ connectAttemptRef h' = S (connectAttemptRef h)
    /\ tools h' = tools h /\ resources h' = resources h
    /\ prompts h' = prompts h.
Proof.
  intros Hguard Hstate Hmounted Hrequest Hreauth [provider Hprovider]
    Htransport Hsettle Hunauthorized Hresult.
  destruct (guard_passed h Hguard) as [Hready [client Hclient]].
  unfold callTool. rewrite Hguard, Hsettle, Hunauthorized, Hresult.
  cbv zeta beta iota.
  settle_logs. settle_snapshot Hrequest. settle_logs.
  resolve. rewrite Hprovider. cbv beta iota.
  settle_snapshot Hreauth. resolve. rewrite Hmounted.
  cbv beta iota delta [negb].
  change (("AUTHORIZED" =? "AUTHORIZED")%string) with true. cbv beta iota.
  settle_logs.
  match goal with
  | |- context [connect_enter E B O ?h0] =>
      destruct (connect_enter_normal E B O previous h0)
        as (entries' & st' & ->); [hook_cbn; eauto .. |]
  end.
  resolve_with state. resolve. rewrite Hstate, Hready.
  rewrite waiting_for_redirect. settle_choice.
  eexists. split; [reflexivity |].
  name_fields h. hook_cbv. rewrite <- !app_assoc. done.
Qed.

Lemma callTool_redirect (E : Engine) (B : Browser) (O : Options)
    (st : ConnState) (name : string) (args : option string)
    (exchange : Exchange) (h : Hook) (err : JsError) :
  guard h = false ->
  state h = ready ->
  isMountedRef h = true ->
  Unmount ∉ meanwhile (on_request exchange) ->
  Unmount ∉ meanwhile (on_reauth exchange) ->
  is_Some (authProviderRef h) ->
  settles (on_request exchange) = inr err ->
  unauthorized err = true ->
  auth_result (settles (on_reauth exchange)) = inl "REDIRECT" ->
  exists h',
    callTool E B O st name args exchange h
    = (if bool_decide (Commit ∈ meanwhile (on_reauth exchange))
       then Resolves None else Rejects err,
       None, h')
    /\ trace h' = (trace h ++ [Request "tools/call"; Auth])%list
    /\ state h' = authenticating
    /\ clientRef h' = clientRef h
    /\ tools h' = tools h /\ resources h' = resources h
    /\ prompts h' = prompts h.
Proof.
  intros Hguard Hstate Hmounted Hrequest Hreauth [provider Hprovider]
    Hsettle Hunauthorized Hresult.
  destruct (guard_passed h Hguard) as [Hready _].
  unfold callTool. rewrite Hguard, Hsettle, Hunauthorized, Hresult.
  cbv zeta beta iota.
  settle_logs. settle_snapshot Hrequest. settle_logs.
  resolve. rewrite Hprovider. cbv beta iota.
  settle_snapshot Hreauth. resolve. rewrite Hmounted.
  cbv beta iota delta [negb].
  change (("REDIRECT" =? "AUTHORIZED")%string) with false.
  change (("REDIRECT" =? "REDIRECT")%string) with true. cbv beta iota.
  settle_logs. resolve_with state. resolve. rewrite Hstate, Hready.
  rewrite waiting_for_redirect. settle_choice.
  eexists. split; [reflexivity |].
  name_fields h. hook_cbv. rewrite <- !app_assoc. done.
Qed.

(** The four forwarding operations hand a rejection to their caller,
    whatever its classification. *)
Lemma forward_rethrows (st : ConnState) (cannot starting method failing : string)
    (done : Json -> option string) (exchange : Exchange) (h : Hook)
    (err : JsError) :
  guard h = false ->
  isMountedRef h = true ->
  Unmount ∉ meanwhile (on_request exchange) ->
  settles (on_request exchange) = inr err ->
  exists h',
    forward st cannot starting method failing done exchange h
    = (Rejects err, h')
    /\ trace h' = (trace h ++ [Request method])%list
    /\ state h' = state h.
Proof.
  intros Hguard Hmounted Hrequest Hsettle.
  unfold forward. rewrite Hguard, Hsettle. cbv zeta beta iota.
  settle_logs. settle_during Hrequest. settle_logs.
  eexists. split; [reflexivity |].
  name_fields h. hook_cbv. done.
Qed.

(** The re-authorization of [callTool]: a call issued on a ready,
    mounted hook whose request is rejected as unauthorized calls the
    authorization routine.  On "AUTHORIZED" [connect()] is entered
    afresh, starting at the primary attempt; on "REDIRECT" nothing is
    reconnected and the state is [authenticating]; the catalogs are kept
    in both cases.  The call resolves to [undefined] when React has
    committed while the authorization routine was pending, and rejects
    with the error of the request when it has not. *)
Theorem callTool_reauthorizes (E : Engine) (B : Browser) (O : Options)
    (captured : ConnState) (name : string) (args : option string)
    (exchange : Exchange) (previous : TransportType) (h : Hook) (err : JsError) :
  guard h = false ->
  state h = ready ->
  isMountedRef h = true ->
  Unmount ∉ meanwhile (on_request exchange) ->
  Unmount ∉ meanwhile (on_reauth exchange) ->
  is_Some (authProviderRef h) ->
  transportRef h = Some previous ->
  settles (on_request exchange) = inr err ->
  unauthorized err = true ->
  let settled :=
    if bool_decide (Commit ∈ meanwhile (on_reauth exchange))
    then Resolves None else Rejects err in
  (auth_result (settles (on_reauth exchange)) = inl "AUTHORIZED" ->
   exists h',
     callTool E B O captured name args exchange h
     = (settled, Some (AwaitClose http), h')
     /\ trace h'
        = (trace h ++ [Request "tools/call"; Auth; Connect; Attempt http;
                       CloseTransport previous])%list
     /\ tools h' = tools h /\ resources h' = resources h
     /\ prompts h' = prompts h)
  /\ (auth_result (settles (on_reauth exchange)) = inl "REDIRECT" ->
      exists h',
        callTool E B O captured name args exchange h = (settled, None, h')
        /\ trace h' = (trace h ++ [Request "tools/call"; Auth])%list
        /\ state h' = authenticating
        /\ tools h' = tools h /\ resources h' = resources h
        /\ prompts h' = prompts h).
Proof.
  intros Hguard Hstate Hmounted Hrequest Hreauth Hprovider Htransport Hsettle
    Hunauthorized settled.
  split.
  - intros Hresult.
    destruct (callTool_authorized E B O captured name args exchange previous h
                err) as (h' & Hcall & Htrace & _ & Hkept); try done.
    by exists h'.
  - intros Hresult.
    destruct (callTool_redirect E B O captured name args exchange h err)
      as (h' & Hcall & Htrace & Hauthenticating & _ & Hkept); try done.
    by exists h'.
Qed.

Lemma callTool_reauthorizes_witness :
  let call status :=
    callTool Sample.engine Sample.browser Sample.options ready "search" None
      (Sample.rejected [Commit] status) Sample.connected in
  guard Sample.connected = false
  /\ unauthorized (mkError true "Unauthorized") = true
  /\ (exists h',
        call "AUTHORIZED" = (Resolves None, Some (AwaitClose http), h')
        /\ trace h'
           = (trace Sample.connected
              ++ [Request "tools/call"; Auth; Connect; Attempt http;
                  CloseTransport http])%list
        /\ tools h' = tools Sample.connected
        /\ resources h' = resources Sample.connected
        /\ prompts h' = prompts Sample.connected)
  /\ (exists h',
        call "REDIRECT" = (Resolves None, None, h')
        /\ trace h' = (trace Sample.connected ++ [Request "tools/call"; Auth])%list
        /\ state h' = authenticating
        /\ tools h' = tools Sample.connected
        /\ resources h' = resources Sample.connected
        /\ prompts h' = prompts Sample.connected).
Proof.
  intros call.
  assert (Hguard : guard Sample.connected = false) by reflexivity.
  assert (Hstate : state Sample.connected = ready) by reflexivity.
  assert (Hmounted : isMountedRef Sample.connected = true) by reflexivity.
  assert (Hrequest : Unmount ∉ @nil Interrupt) by apply not_elem_of_nil.
  assert (Hquiet : Unmount ∉ [Commit])
    by (intros Hin; apply list_elem_of_singleton in Hin; discriminate).
  assert (Hprovider : is_Some (authProviderRef Sample.connected))
    by (vm_compute; eexists; reflexivity).
  assert (Htransport : transportRef Sample.connected = Some http)
    by (vm_compute; reflexivity).
  assert (Hunauthorized : unauthorized (mkError true "Unauthorized") = true)
    by reflexivity.
  split; [exact Hguard |]. split; [exact Hunauthorized |]. split.
  - exact (proj1 (callTool_reauthorizes Sample.engine Sample.browser
                    Sample.options ready "search" None
                    (Sample.rejected [Commit] "AUTHORIZED") http
                    Sample.connected (mkError true "Unauthorized") Hguard
                    Hstate Hmounted Hrequest Hquiet Hprovider Htransport
                    eq_refl Hunauthorized) eq_refl).
  - exact (proj2 (callTool_reauthorizes Sample.engine Sample.browser
                    Sample.options ready "search" None
                    (Sample.rejected [Commit] "REDIRECT") http
                    Sample.connected (mkError true "Unauthorized") Hguard
                    Hstate Hmounted Hrequest Hquiet Hprovider Htransport
                    eq_refl Hunauthorized) eq_refl).
Defined.

(** The four operations that forward a request ([listResources],
    [readResource], [listPrompts], [getPrompt]) hand any rejection of
    the request to their caller: the authorization routine is not
    called, nothing is reconnected and the state is left as it is. *)
Theorem forwarding_operations_rethrow (captured : ConnState)
    (name uri : string) (cursor : option string) (exchange : Exchange)
    (h : Hook) (err : JsError) :
  guard h = false ->
  isMountedRef h = true ->
  Unmount ∉ meanwhile (on_request exchange) ->
  settles (on_request exchange) = inr err ->
  (exists h',
     listResources captured cursor exchange h = (Rejects err, h')
     /\ trace h' = (trace h ++ [Request "resources/list"])%list
     /\ state h' = state h)
  /\ (exists h',
        readResource captured uri exchange h = (Rejects err, h')
        /\ trace h' = (trace h ++ [Request "resources/read"])%list
        /\ state h' = state h)
  /\ (exists h',
        listPrompts captured cursor exchange h = (Rejects err, h')
        /\ trace h' = (trace h ++ [Request "prompts/list"])%list
        /\ state h' = state h)
  /\ (exists h',
        getPrompt captured name exchange h = (Rejects err, h')
        /\ trace h' = (trace h ++ [Request "prompts/get"])%list
        /\ state h' = state h).
Proof.
  intros Hguard Hmounted Hrequest Hsettle.
  repeat split; apply forward_rethrows; assumption.
Qed.

Lemma forwarding_operations_rethrow_witness :
  exists h',
    readResource ready "file:///a" (Sample.rejected [] "REDIRECT")
      Sample.connected
    = (Rejects (mkError true "Unauthorized"), h')
    /\ trace h' = (trace Sample.connected ++ [Request "resources/read"])%list
    /\ state h' = state Sample.connected.
Proof.
  exact (proj1 (proj2 (forwarding_operations_rethrow ready "search"
                         "file:///a" None (Sample.rejected [] "REDIRECT")
                         Sample.connected (mkError true "Unauthorized")
                         eq_refl eq_refl (not_elem_of_nil Unmount) eq_refl))).
Defined.

(** C9 (the settlement depends on when React commits, and four of the
    five operations do not re-authorize): on a ready hook, the request
    of [callTool] is rejected as unauthorized and the authorization
    routine returns "REDIRECT".  When nothing is committed while the
    routine is pending, the call rejects with the error of the request,
    although the state is [authenticating] and the hook waits for the
    redirect; it resolves to [undefined] when React commits meanwhile.
    [listResources] on the same rejection does not call the
    authorization routine: it rejects and the state stays [ready]. *)
Lemma callTool_rethrows_before_commit :
  let call commits :=
    callTool Sample.engine Sample.browser Sample.options ready "search" None
      (Sample.rejected commits "REDIRECT") Sample.connected in
  let listing :=
    listResources ready None (Sample.rejected [Commit] "REDIRECT")
      Sample.connected in
  stateRef Sample.connected = ready
  /\ state Sample.connected = ready
  /\ unauthorized (mkError true "Unauthorized") = true
  /\ (call []).1 = (Rejects (mkError true "Unauthorized"), None)
  /\ state (call []).2 = authenticating
  /\ trace (call []).2
     = (trace Sample.connected ++ [Request "tools/call"; Auth])%list
  /\ (call [Commit]).1 = (Resolves None, None)
  /\ listing.1 = Rejects (mkError true "Unauthorized")
  /\ trace listing.2
     = (trace Sample.connected ++ [Request "resources/list"])%list
  /\ state listing.2 = ready.
Proof.
  vm_compute. repeat split; reflexivity.
Qed.

(** ** More on the credential store *)

(** *** [hashString] *)

Lemma ToInt32_range (z : Z) : - 2 ^ 31 <= Js.ToInt32 z < 2 ^ 31.
Proof.
  unfold Js.ToInt32.
  pose proof (Z.mod_pos_bound (z + 2 ^ 31) (2 ^ 32) ltac:(lia)). lia.
Qed.

Lemma hash_step_range (hash char : Z) :
  - 2 ^ 31 <= BrowserOAuthClientProvider.hash_step hash char < 2 ^ 31.
Proof.
  unfold BrowserOAuthClientProvider.hash_step. cbv zeta.
  rewrite Z.land_diag. apply ToInt32_range.
Qed.

Lemma hash_loop_range (units : list Z) (hash : Z) :
  - 2 ^ 31 <= hash < 2 ^ 31 ->
  - 2 ^ 31 <= BrowserOAuthClientProvider.hash_loop units hash < 2 ^ 31.
Proof.
  revert hash. induction units as [|char units IH]; intros hash Hrange; simpl.
  - exact Hrange.
  - apply IH, hash_step_range.
Qed.

Lemma hexDigit_spec (d : Z) :
  0 <= d < 16 ->
  exists c, Js.hexDigit d = String c EmptyString
            /\ digit_value c = d
            /\ lowercase_hex (String c EmptyString) = true.
Proof.
  intros Hd.
  assert (Hcases : d = 0 \/ d = 1 \/ d = 2 \/ d = 3 \/ d = 4 \/ d = 5 \/ d = 6
                   \/ d = 7 \/ d = 8 \/ d = 9 \/ d = 10 \/ d = 11 \/ d = 12
                   \/ d = 13 \/ d = 14 \/ d = 15) by lia.
  repeat (destruct Hcases as [->|Hcases]; [eexists; split; [reflexivity |];
                                           split; reflexivity |]).
  subst d. eexists; split; [reflexivity |]. split; reflexivity.
Qed.

Lemma parse_loop_app (a b : string) (acc : Z) :
  parse_loop (a +:+ b) acc = parse_loop b (parse_loop a acc).
Proof.
  revert acc. induction a as [|c a IH]; intros acc; [done |].
  rewrite append_cons. simpl. apply IH.
Qed.

Lemma lowercase_hex_app (a b : string) :
  lowercase_hex a = true -> lowercase_hex b = true ->
  lowercase_hex (a +:+ b) = true.
Proof.
  induction a as [|c a IH]; [done |].
  rewrite append_cons. cbn [lowercase_hex]. rewrite !andb_true_iff.
  intros [? ?] ?. auto.
Qed.

Lemma string_length_app (a b : string) :
  String.length (a +:+ b) = (String.length a + String.length b)%nat.
Proof. induction a as [|c a IH]; [done |]. rewrite append_cons. simpl. lia. Qed.

Lemma toHex_spec (fuel : nat) (n : Z) (acc : Z) :
  0 <= n < 16 ^ Z.of_nat (S fuel) ->
  parse_loop (Js.toHex fuel n) acc = 16 ^ Z.of_nat (String.length (Js.toHex fuel n)) * acc + n
  /\ lowercase_hex (Js.toHex fuel n) = true
  /\ (1 <= String.length (Js.toHex fuel n) <= S fuel)%nat.
Proof.
  revert n acc. induction fuel as [|fuel IH]; intros n acc Hn.
  - cbn [Js.toHex]. change (16 ^ Z.of_nat 1) with 16 in Hn.
    rewrite Z.mod_small by lia.
    destruct (hexDigit_spec n Hn) as (c & -> & Hc & Hhex).
    cbn [parse_loop String.length]. rewrite Hc. split; [|split; [done | lia]].
    change (16 ^ Z.of_nat 1) with 16. lia.
  - cbn [Js.toHex]. destruct (Z.ltb_spec n 16) as [Hsmall|Hbig].
    + destruct (hexDigit_spec n ltac:(lia)) as (c & -> & Hc & Hhex).
      cbn [parse_loop String.length]. rewrite Hc. split; [|split; [done | lia]].
      change (16 ^ Z.of_nat 1) with 16. lia.
    + assert (Hq : 0 <= n / 16 < 16 ^ Z.of_nat (S fuel)).
      { split; [apply Z.div_pos; lia |].
        apply Z.div_lt_upper_bound; [lia |].
        rewrite <- Z.pow_succ_r by lia. rewrite <- Nat2Z.inj_succ. lia. }
      destruct (hexDigit_spec (n mod 16)) as (c & Hdigit & Hc & Hhex).
      { apply Z.mod_pos_bound. lia. }
      rewrite Hdigit.
      destruct (IH (n / 16) acc Hq) as (Hvalue & Hlower & Hlen).
      rewrite parse_loop_app, string_length_app, Hvalue.
      cbn [parse_loop String.length]. rewrite Hc.
      split; [| split].
      * rewrite Nat2Z.inj_add, Z.pow_add_r by lia.
        change (16 ^ Z.of_nat 1) with 16.
        pose proof (Z.div_mod n 16 ltac:(lia)). nia.
      * by apply lowercase_hex_app.
      * lia.
Qed.

(** [hashString] keeps its accumulator a 32-bit integer and returns the
    base-16 numeral of its absolute value: one to eight digits among
    [0-9a-f], which [parseInt(.., 16)] reads back. *)
Theorem hashString_numeral (E : Engine) (str : string) :
  let hash := BrowserOAuthClientProvider.hash_loop (code_units E str) 0 in
  - 2 ^ 31 <= hash < 2 ^ 31
  /\ parseInt16 (BrowserOAuthClientProvider.hashString E str) = Z.abs hash
  /\ lowercase_hex (BrowserOAuthClientProvider.hashString E str) = true
  /\ (1 <= String.length (BrowserOAuthClientProvider.hashString E str) <= 8)%nat.
Proof.
  intros hash.
  assert (Hrange : - 2 ^ 31 <= hash < 2 ^ 31)
    by (apply hash_loop_range; lia).
  split; [exact Hrange |].
  unfold BrowserOAuthClientProvider.hashString, Js.toString16, parseInt16.
  fold hash.
  destruct (toHex_spec 7 (Z.abs hash) 0) as (Hvalue & Hlower & Hlen).
  { change (16 ^ Z.of_nat 8) with (2 ^ 32). lia. }
  split; [rewrite Hvalue; lia |]. split; done.
Qed.

(** *** The four credential entries *)

Lemma getKey_inj (this : BrowserOAuthClientProvider.t) (a b : string) :
  BrowserOAuthClientProvider.getKey this a
  = BrowserOAuthClientProvider.getKey this b -> a = b.
Proof.
  unfold BrowserOAuthClientProvider.getKey. intros H.
  by do 4 apply append_inv_head in H.
Qed.

Lemma getKey_ne (this : BrowserOAuthClientProvider.t) (a b : string) :
  a <> b ->
  BrowserOAuthClientProvider.getKey this a
  <> BrowserOAuthClientProvider.getKey this b.
Proof. intros Hne H. by apply Hne, (getKey_inj this). Qed.

(** Rewriting of lookups in a store given by writes and removals under
    keys of one provider. *)
Ltac store_lookup :=
  unfold LocalStorage.getItem, LocalStorage.setItem, LocalStorage.removeItem;
  repeat first
    [ rewrite lookup_insert_eq
    | rewrite lookup_delete_eq
    | rewrite lookup_insert_ne by
        first [ apply getKey_ne; discriminate
              | apply stateKey_not_getKey
              | apply not_eq_sym, stateKey_not_getKey
              | assumption ]
    | rewrite lookup_delete_ne by
        first [ apply getKey_ne; discriminate
              | apply stateKey_not_getKey
              | apply not_eq_sym, stateKey_not_getKey
              | assumption ] ].

(** [saveTokens] then [tokens]: the saved document comes back and the
    store is left as it is; the code verifier and the last authorization
    URL, which only serve while a flow is pending, are gone. *)
Theorem saveTokens_then_tokens (E : Engine) (this : BrowserOAuthClientProvider.t)
    (saved : Json) (ls : Storage) :
  let ls' := BrowserOAuthClientProvider.saveTokens this saved ls in
  BrowserOAuthClientProvider.tokens E this ls' = (Some saved, ls')
  /\ (exists thrown, BrowserOAuthClientProvider.codeVerifier E this ls' = inr thrown)
  /\ BrowserOAuthClientProvider.getLastAttemptedAuthUrl E this ls' = None.
Proof.
  intros ls'. subst ls'.
  unfold BrowserOAuthClientProvider.tokens, BrowserOAuthClientProvider.read_json,
    BrowserOAuthClientProvider.codeVerifier,
    BrowserOAuthClientProvider.getLastAttemptedAuthUrl,
    BrowserOAuthClientProvider.saveTokens.
  cbv zeta. store_lookup. cbn. split; [reflexivity |].
  split; [by eexists | reflexivity].
Qed.

(** [saveCodeVerifier] then [codeVerifier]: the verifier comes back,
    unless it is the empty string, which [codeVerifier] takes for a
    missing entry and rejects. *)
Theorem saveCodeVerifier_then_codeVerifier (E : Engine)
    (this : BrowserOAuthClientProvider.t) (verifier : string) (ls : Storage) :
  BrowserOAuthClientProvider.codeVerifier E this
    (BrowserOAuthClientProvider.saveCodeVerifier this verifier ls)
  = if Js.truthy verifier then inl verifier
    else inr ("[" +:+ BrowserOAuthClientProvider.storageKeyPrefix this
              +:+ "] Code verifier not found in storage for key "
              +:+ BrowserOAuthClientProvider.getKey this "code_verifier"
              +:+ ". Auth flow likely corrupted or timed out.").
Proof.
  unfold BrowserOAuthClientProvider.codeVerifier,
    BrowserOAuthClientProvider.saveCodeVerifier.
  cbv zeta. store_lookup. cbn. by destruct (Js.truthy verifier).
Qed.

Lemma read_json_lookup (E : Engine) (key : string) (ls1 ls2 : Storage) :
  ls1 !! key = ls2 !! key ->
  (BrowserOAuthClientProvider.read_json E key ls1).1
  = (BrowserOAuthClientProvider.read_json E key ls2).1.
Proof.
  unfold BrowserOAuthClientProvider.read_json, LocalStorage.getItem.
  intros ->. cbv zeta.
  destruct (ls2 !! key) as [item|]; [| reflexivity].
  destruct (LocalStorage.present (Some item)); [| reflexivity].
  cbn [negb]. by destruct (JSON_parse E item).
Qed.

(** An entry that does not parse is dropped by the read that finds it:
    [tokens] returns [undefined] and removes the entry, so that the next
    read finds nothing and leaves the store alone; the client
    information is not concerned. *)
Theorem tokens_drops_corrupt_entry (E : Engine)
    (this : BrowserOAuthClientProvider.t) (text : string) (ls : Storage) :
  ls !! BrowserOAuthClientProvider.getKey this "tokens" = Some (Raw text) ->
  Js.truthy text = true ->
  parse_raw E text = None ->
  let ls' := delete (BrowserOAuthClientProvider.getKey this "tokens") ls in
  BrowserOAuthClientProvider.tokens E this ls = (None, ls')
  /\ BrowserOAuthClientProvider.tokens E this ls' = (None, ls')
  /\ (BrowserOAuthClientProvider.clientInformation E this ls').1
     = (BrowserOAuthClientProvider.clientInformation E this ls).1.
Proof.
  intros Hitem Htruthy Hparse ls'. subst ls'. split; [| split].
  - unfold BrowserOAuthClientProvider.tokens,
      BrowserOAuthClientProvider.read_json, LocalStorage.getItem.
    cbv zeta. rewrite Hitem. cbn. rewrite Htruthy, Hparse. reflexivity.
  - unfold BrowserOAuthClientProvider.tokens,
      BrowserOAuthClientProvider.read_json, LocalStorage.getItem.
    cbv zeta. by rewrite lookup_delete_eq.
  - apply read_json_lookup. apply lookup_delete_ne, getKey_ne. discriminate.
Qed.

Lemma tokens_drops_corrupt_entry_witness :
  let key := BrowserOAuthClientProvider.getKey Sample.provider "tokens" in
  let ls : Storage :=
    <[key := Raw "{truncated"]>
      (BrowserOAuthClientProvider.saveClientInformation Sample.provider
         (JStr "client-1") ∅) in
  BrowserOAuthClientProvider.tokens Sample.engine Sample.provider ls
  = (None, delete key ls)
  /\ BrowserOAuthClientProvider.tokens Sample.engine Sample.provider
       (delete key ls)
     = (None, delete key ls)
  /\ (BrowserOAuthClientProvider.clientInformation Sample.engine
        Sample.provider (delete key ls)).1
     = (BrowserOAuthClientProvider.clientInformation Sample.engine
          Sample.provider ls).1.
Proof.
  intros key ls.
  apply (tokens_drops_corrupt_entry Sample.engine Sample.provider "{truncated" ls).
  - apply lookup_insert_eq.
  - reflexivity.
  - reflexivity.
Defined.

(** The entries of a provider do not disturb one another: what [tokens]
    and [clientInformation] return is not changed by saving the other
    one, by saving a code verifier, or by starting an authorization. *)
Theorem credential_entries_independent (E : Engine)
    (this : BrowserOAuthClientProvider.t) (saved : Json) (verifier state : string)
    (now : Z) (render : string -> string) (ls : Storage) :
  let tokens := fun ls => (BrowserOAuthClientProvider.tokens E this ls).1 in
  let clientInformation :=
    fun ls => (BrowserOAuthClientProvider.clientInformation E this ls).1 in
  let redirected :=
    (BrowserOAuthClientProvider.redirectToAuthorization this state now render
       ls).1 in
  tokens (BrowserOAuthClientProvider.saveClientInformation this saved ls)
  = tokens ls
  /\ tokens (BrowserOAuthClientProvider.saveCodeVerifier this verifier ls)
     = tokens ls
  /\ tokens redirected = tokens ls
  /\ clientInformation (BrowserOAuthClientProvider.saveTokens this saved ls)
     = clientInformation ls
  /\ clientInformation (BrowserOAuthClientProvider.saveCodeVerifier this verifier ls)
     = clientInformation ls
  /\ clientInformation redirected = clientInformation ls.
Proof.
  intros tokens clientInformation redirected.
  subst tokens clientInformation redirected.
  unfold BrowserOAuthClientProvider.tokens,
    BrowserOAuthClientProvider.clientInformation,
    BrowserOAuthClientProvider.saveClientInformation,
    BrowserOAuthClientProvider.saveCodeVerifier,
    BrowserOAuthClientProvider.saveTokens,
    BrowserOAuthClientProvider.redirectToAuthorization.
  cbn [fst]. repeat split; apply read_json_lookup; by store_lookup.
Qed.

(** *** [clearStorage], once more *)

Lemma owned_lookup (E : Engine) (this : BrowserOAuthClientProvider.t)
    (ls1 ls2 : Storage) (key : string) :
  ls1 !! key = ls2 !! key -> owned E this ls1 key = owned E this ls2 key.
Proof. unfold owned. by intros ->. Qed.

Lemma owned_getKey (E : Engine) (this : BrowserOAuthClientProvider.t)
    (ls : Storage) (suffix : string) :
  owned E this ls (BrowserOAuthClientProvider.getKey this suffix) = true.
Proof. apply owned_belongs. left. by exists suffix. Qed.

Lemma filter_none {A} (P : A -> Prop) `{forall x, Decision (P x)} (l : list A) :
  (forall x, x ∈ l -> ~ P x) -> filter P l = [].
Proof.
  induction l as [|x l IH]; intros Hnone; [done |].
  rewrite filter_cons, decide_False by (apply Hnone; left).
  apply IH. intros y Hy. apply Hnone. by right.
Qed.

(** [clearStorage] is idempotent: called again on the store it left, it
    finds nothing to remove and returns 0. *)
Theorem clearStorage_idempotent (E : Engine)
    (this : BrowserOAuthClientProvider.t) (ls : Storage) :
  let once := BrowserOAuthClientProvider.clearStorage E this ls in
  BrowserOAuthClientProvider.clearStorage E this once.2 = (0%nat, once.2).
Proof.
  intros once. destruct (clearStorage_spec E this ls) as [Hlookup _].
  fold once in Hlookup.
  unfold BrowserOAuthClientProvider.clearStorage at 1. cbv zeta.
  rewrite fold_scan. cbn [app]. rewrite filter_none; [reflexivity |].
  intros key [item Hitem]%elem_of_keys Howned.
  rewrite (owned_lookup E this once.2 ls key) in Howned.
  - rewrite Hlookup, Howned in Hitem. discriminate Hitem.
  - rewrite Hlookup in Hitem |- *. by destruct (owned E this ls key).
Qed.

(** After [clearStorage] the provider has no credentials left: no
    tokens, no client information, no code verifier and no last
    authorization URL. *)
Theorem clearStorage_forgets_credentials (E : Engine)
    (this : BrowserOAuthClientProvider.t) (ls : Storage) :
  let ls' := (BrowserOAuthClientProvider.clearStorage E this ls).2 in
  BrowserOAuthClientProvider.tokens E this ls' = (None, ls')
  /\ BrowserOAuthClientProvider.clientInformation E this ls' = (None, ls')
  /\ (exists thrown, BrowserOAuthClientProvider.codeVerifier E this ls' = inr thrown)
  /\ BrowserOAuthClientProvider.getLastAttemptedAuthUrl E this ls' = None.
Proof.
  intros ls'. destruct (clearStorage_spec E this ls) as [Hlookup _].
  fold ls' in Hlookup.
  assert (Hgone : forall suffix,
             ls' !! BrowserOAuthClientProvider.getKey this suffix = None).
  { intros suffix. by rewrite Hlookup, owned_getKey. }
  unfold BrowserOAuthClientProvider.tokens,
    BrowserOAuthClientProvider.clientInformation,
    BrowserOAuthClientProvider.read_json,
    BrowserOAuthClientProvider.codeVerifier,
    BrowserOAuthClientProvider.getLastAttemptedAuthUrl, LocalStorage.getItem.
  cbv zeta. rewrite !Hgone. cbn. repeat split; try done. by eexists.
Qed.

(** *** Starting an authorization *)

Lemma redirect_stores_record (this : BrowserOAuthClientProvider.t)
    (state : string) (now : Z) (render : string -> string) (ls : Storage) :
  (BrowserOAuthClientProvider.redirectToAuthorization this state now render ls).1
    !! BrowserOAuthClientProvider.stateKey this state
  = Some (Doc (BrowserOAuthClientProvider.stateData this now)).
Proof.
  unfold BrowserOAuthClientProvider.redirectToAuthorization.
  cbn [fst]. by store_lookup.
Qed.

(** [redirectToAuthorization] writes two entries and no other: the
    correlation record under the key of the token, and the URL it hands
    to the popup, which [getLastAttemptedAuthUrl] then returns. *)
Theorem redirectToAuthorization_writes (E : Engine)
    (this : BrowserOAuthClientProvider.t) (state : string) (now : Z)
    (render : string -> string) (ls : Storage) :
  let result :=
    BrowserOAuthClientProvider.redirectToAuthorization this state now render ls in
  result.2 = render state
  /\ BrowserOAuthClientProvider.getLastAttemptedAuthUrl E this result.1
     = Some (render state)
  /\ result.1 !! BrowserOAuthClientProvider.stateKey this state
     = Some (Doc (BrowserOAuthClientProvider.stateData this now))
  /\ forall key,
       key <> BrowserOAuthClientProvider.stateKey this state ->
       key <> BrowserOAuthClientProvider.getKey this "last_auth_url" ->
       result.1 !! key = ls !! key.
Proof.
  intros result. subst result.
  unfold BrowserOAuthClientProvider.redirectToAuthorization,
    BrowserOAuthClientProvider.getLastAttemptedAuthUrl.
  cbn [fst snd]. split; [reflexivity |]. split; [by store_lookup |].
  split; [by store_lookup |].
  intros key Hstate Hurl. unfold LocalStorage.setItem.
  by rewrite !lookup_insert_ne.
Qed.

Lemma or_default_self (o : option string) (d : string) :
  (if Js.truthy (BrowserOAuthClientProvider.or_default o d)
   then BrowserOAuthClientProvider.or_default o d else d)
  = BrowserOAuthClientProvider.or_default o d.
Proof.
  unfold BrowserOAuthClientProvider.or_default.
  destruct o as [s|]; [destruct (Js.truthy s) eqn:Hs; [by rewrite Hs |] |];
    by destruct (Js.truthy d).
Qed.

(** The provider that the callback page rebuilds from the correlation
    record is the provider that wrote it: same server, same prefix and
    hash (hence the same keys), same client name, URI and callback
    URL. *)
Theorem reconstruct_stateData (E : Engine) (origin serverUrl : string)
    (options : BrowserOAuthClientProvider.Options) (now : Z) :
  let this := BrowserOAuthClientProvider.new E origin serverUrl options in
  exists providerOptions,
    getProp (BrowserOAuthClientProvider.stateData this now) "providerOptions"
    = AccessValue providerOptions
    /\ Callback.reconstruct E origin providerOptions = inl this.
Proof.
  intros this. eexists. split; [reflexivity |].
  unfold Callback.reconstruct, Callback.field_or, this,
    BrowserOAuthClientProvider.new.
  cbn -[BrowserOAuthClientProvider.or_default
        BrowserOAuthClientProvider.hashString].
  by rewrite !or_default_self.
Qed.

(** The whole flow with the default prefix: a provider starts an
    authorization at time [created]; the callback page, given a code
    and the token within ten minutes, no error parameter, and an
    exchange that returns "AUTHORIZED", completes: it notifies the
    opener (or navigates to the root) and leaves the store as the
    exchange left it, less the correlation record. *)
Theorem authorization_round_trip (E : Engine)
    (this : BrowserOAuthClientProvider.t) (token code : string)
    (created now : Z) (render : string -> string) (ls : Storage)
    (origin : string) (opener : bool) (exchange : AuthSettlement) :
  BrowserOAuthClientProvider.storageKeyPrefix this = "mcp:auth" ->
  Js.truthy token = true ->
  Js.truthy code = true ->
  0 <= created ->
  now <= created + 10 * 60 * 1000 ->
  auth_result exchange = inl "AUTHORIZED" ->
  let started :=
    (BrowserOAuthClientProvider.redirectToAuthorization this token created
       render ls).1 in
  let result :=
    Callback.onMcpAuthorization E origin opener now exchange
      (Callback.mkQuery (Some code) (Some token) None None) started in
  Callback.outcome result = Callback.Completed
  /\ Callback.storage result
     = delete ("mcp:auth:state_" +:+ token) (auth_store exchange started)
  /\ Callback.effects result
     = if opener then [Callback.PostMessage true None; Callback.WindowClose]
       else [Callback.Navigate "/"].
Proof.
  intros Hprefix Htoken Hcode Hcreated Hnow Hresult started result.
  assert (Hrecord :
            started !! ("mcp:auth:state_" +:+ token)
            = Some (Doc (BrowserOAuthClientProvider.stateData this created))).
  { pose proof (redirect_stores_record this token created render ls)
      as Hstored.
    unfold BrowserOAuthClientProvider.stateKey in Hstored.
    rewrite Hprefix in Hstored. exact Hstored. }
  assert (Hfresh :
            Callback.expired E (BrowserOAuthClientProvider.stateData this created)
              now = Some false).
  { unfold Callback.expired. cbn.
    destruct (Z.eqb_spec (created + 1000 * 60 * 10) 0) as [|_]; [lia |]. cbn.
    f_equal. apply Z.ltb_ge. lia. }
  assert (Hkey : Callback.stateKey (Some token)
                 = Some ("mcp:auth:state_" +:+ token)).
  { unfold Callback.stateKey, Callback.given. by rewrite Htoken. }
  subst result. unfold Callback.onMcpAuthorization. cbv zeta.
  cbn [Callback.q_code Callback.q_state Callback.q_error
       Callback.q_error_description].
  rewrite Hkey. cbn [Callback.given]. rewrite Hcode.
  cbv beta iota delta [negb]. unfold LocalStorage.getItem. rewrite Hrecord.
  cbn [LocalStorage.present negb JSON_parse]. rewrite Hfresh.
  cbn. rewrite Hresult. cbn. done.
Qed.

Lemma authorization_round_trip_witness :
  let started := Sample.redirected Sample.provider in
  let result :=
    Callback.onMcpAuthorization Sample.engine "https://app.example" true 2000
      (Sample.auth_returns "AUTHORIZED") Sample.query started in
  Callback.outcome result = Callback.Completed
  /\ Callback.storage result = delete "mcp:auth:state_tok-1" started
  /\ Callback.effects result
     = [Callback.PostMessage true None; Callback.WindowClose].
Proof.
  apply (authorization_round_trip Sample.engine Sample.provider "tok-1"
           "code-1" 1000 2000 Sample.authorize ∅ "https://app.example" true
           (Sample.auth_returns "AUTHORIZED"));
    first [reflexivity | lia].
Defined.

(** ** More on the callback handler *)

Lemma on_error_spec (stateKey : option string)
    (provider : option BrowserOAuthClientProvider.t) (opener : bool)
    (errorMessage : string) (ls : Storage) :
  let result := Callback.on_error stateKey provider opener errorMessage ls in
  Callback.outcome result = Callback.Failed errorMessage
  /\ Callback.effects result
     = ((if opener then [Callback.PostMessage false (Some errorMessage)] else [])
        ++ [Callback.RenderError errorMessage])%list
  /\ forall key, stateKey = Some key -> Callback.storage result !! key = None.
Proof.
  cbn. repeat split. intros key ->.
  unfold LocalStorage.removeItem.
  destruct provider; [| apply lookup_delete_eq].
  apply lookup_delete_None. right. apply lookup_delete_None. right.
  apply lookup_delete_eq.
Qed.

(** Whatever the outcome, the handler leaves no record under the key of
    the token it was given: a token serves for one callback, successful
    or not. *)
Theorem callback_consumes_record (E : Engine) (origin : string) (opener : bool)
    (now : Z) (exchange : AuthSettlement) (query : Callback.Query)
    (ls : Storage) (key : string) :
  Callback.stateKey (Callback.q_state query) = Some key ->
  Callback.storage
    (Callback.onMcpAuthorization E origin opener now exchange query ls) !! key
  = None.
Proof.
  intros Hkey. unfold Callback.onMcpAuthorization. cbv zeta. rewrite Hkey.
  repeat case_match;
    first [ by apply on_error_spec
          | cbn [Callback.storage]; apply lookup_delete_eq ].
Qed.

Lemma callback_consumes_record_witness :
  Callback.storage
    (Callback.onMcpAuthorization Sample.engine "https://app.example" true
       601001 (Sample.auth_returns "AUTHORIZED") Sample.query
       (Sample.redirected Sample.provider)) !! "mcp:auth:state_tok-1"
  = None.
Proof.
  apply (callback_consumes_record Sample.engine "https://app.example" true
           601001 (Sample.auth_returns "AUTHORIZED") Sample.query
           (Sample.redirected Sample.provider) "mcp:auth:state_tok-1").
  reflexivity.
Defined.

(** What the handler does to the windows is determined by its outcome:
    on completion the opener is told of the success and the popup is
    closed (or, without opener, the page goes to the root); on failure
    the opener, if any, is told of the failure with its message, which
    is also rendered in the page.  In no case is the opener told
    twice. *)
Theorem callback_effects (E : Engine) (origin : string) (opener : bool)
    (now : Z) (exchange : AuthSettlement) (query : Callback.Query)
    (ls : Storage) :
  let result :=
    Callback.onMcpAuthorization E origin opener now exchange query ls in
  Callback.effects result
  = match Callback.outcome result with
    | Callback.Completed =>
        if opener then [Callback.PostMessage true None; Callback.WindowClose]
        else [Callback.Navigate "/"]
    | Callback.Failed errorMessage =>
        ((if opener then [Callback.PostMessage false (Some errorMessage)]
          else [])
         ++ [Callback.RenderError errorMessage])%list
    end.
Proof.
  intros result. pattern result.
  match goal with |- ?P result => set (determined := P) end.
  assert (Hfailed : forall stateKey provider errorMessage ls,
             determined
               (Callback.on_error stateKey provider opener errorMessage ls))
    by (intros; reflexivity).
  subst result. unfold Callback.onMcpAuthorization. cbv zeta.
  repeat case_match; first [apply Hfailed | reflexivity].
Qed.

(** ** More on the hook *)

(** ** The connection that succeeds *)

(** [connect()] on an idle, mounted hook without transport: the provider
    and the client are created if missing, and the primary attempt
    suspends at [client.connect]. *)
Lemma connect_enter_fresh (E : Engine) (B : Browser) (O : Options) (h : Hook) :
  connectingRef h = false ->
  isMountedRef h = true ->
  transportRef h = None ->
  invalid_url B (url O) = None ->
  exists entries provider client st,
    connect_enter E B O h
    = (Some (AwaitConnect http),
       set_trace (trace h ++ [Connect; Attempt http; NewTransport http;
                              ClientConnect http])
         (set_transportRef (Some http)
            (set_clientRef (Some client)
               (set_authProviderRef (Some provider)
                  (set_state st
                     (set_log entries
                        (set_successfulTransportRef None
                           (set_authUrl None
                              (set_error None
                                 (set_connectAttemptRef
                                    (S (connectAttemptRef h))
                                    (set_connectingRef true h))))))))))).
Proof.
  intros Hidle Hmounted Htransport Hurl.
  unfold connect_enter. rewrite Hidle, Hmounted.
  cbv zeta beta iota delta [negb]. settle_logs. resolve.
  destruct (authProviderRef h) as [provider|] eqn:Hprovider;
    resolve; destruct (clientRef h) as [client|] eqn:Hclient;
    unfold try_enter; cbv zeta; settle_logs; settle_tests; resolve;
    rewrite ?Hprovider, ?Hclient, ?Htransport; cbv beta iota;
    unfold create; rewrite Hurl; cbv zeta; settle_logs;
    name_fields h; hook_cbv; eexists _, _, _, _;
    rewrite <- ?app_assoc; reflexivity.
Qed.

Lemma loaded_catalog (what : string) (set : list Json -> Hook -> Hook)
    (response : list Json + string) (h : Hook) :
  (forall v entries h, set v (set_log entries h) = set_log entries (set v h)) ->
  exists entries,
    loaded what set response h = set_log entries (set (catalog response) h).
Proof.
  intros Hcommute. unfold loaded, catalog.
  destruct response; settle_logs; rewrite ?Hcommute; by eexists.
Qed.

(** The attempt suspended at [client.connect] succeeds: the three
    catalogs are requested and stored, and the cycle ends. *)
Lemma step_success (E : Engine) (B : Browser) (O : Options)
    (script : Script) (transportType : TransportType) (h : Hook) :
  isMountedRef h = true ->
  is_Some (clientRef h) ->
  settles (on_connect script) = None ->
  Unmount ∉ meanwhile (on_connect script) ->
  Unmount ∉ meanwhile (on_list script) ->
  exists entries snapshot now,
    step E B O script (AwaitConnect transportType) h
    = (None,
       set_connectingRef false
         (set_connectAttemptRef 0%nat
            (set_state ready
               (set_prompts (catalog (promptsResponse (settles (on_list script))))
                  (set_resources
                     (catalog (resourcesResponse (settles (on_list script))))
                     (set_tools
                        (catalog (toolsResponse (settles (on_list script))))
                        (set_successfulTransportRef (Some transportType)
                           (set_trace
                              (trace h ++ [Request "tools/list";
                                           Request "resources/list";
                                           Request "prompts/list"])
                              (set_log entries
                                 (set_stateRef snapshot
                                    (set_clock now h))))))))))).
Proof.
  intros Hmounted [client Hclient] Hsettle Hquiet Hquiet'.
  unfold step, try_resume, connect_client. cbv zeta. rewrite Hsettle.
  settle_during Hquiet. settle_logs. resolve. rewrite Hclient. cbv beta iota.
  settle_during Hquiet'. resolve. rewrite Hmounted. cbv beta iota.
  repeat match goal with
  | |- context [loaded ?what ?set ?response ?h0] =>
      let entries := fresh "entries" in
      destruct (loaded_catalog what set response h0) as [entries ->];
        [by intros ? ? [] |]
  end.
  assert (Hend : forall h0,
             exists entries,
               (match leg (AwaitConnect transportType) with
                | http => after_http E B O r_success h0
                | sse => (None, conclude E r_success h0)
                end)
               = (None, set_log entries (set_connectingRef false h0))).
  { intros h0. unfold after_http, conclude.
    rewrite (bool_decide_eq_false_2 (r_success = r_fallback)) by discriminate.
    cbv beta iota zeta delta [andb]. settle_logs.
    destruct transportType; by eexists. }
  match goal with
  | |- context [after_http E B O r_success ?h0] =>
      destruct (Hend h0) as (entries' & ->)
  end.
  name_fields h. hook_cbv. eexists _, _, _.
  rewrite <- ?app_assoc. reflexivity.
Qed.

(** The happy path: [connect()] on an idle, mounted hook without
    transport, for a valid URL, when [client.connect] is fulfilled and
    the instance stays mounted.  The hook ends in [ready] with the
    catalogs that were listed (an empty one for each listing that was
    rejected), no error, no manual URL, the in-progress flag cleared
    and the attempt counter back to zero; one attempt was made, over
    HTTP, and no other settlement is consumed. *)
Theorem connect_reaches_ready (E : Engine) (B : Browser) (O : Options)
    (script : Script) (rest : list Script) (h : Hook) :
  connectingRef h = false ->
  isMountedRef h = true ->
  transportRef h = None ->
  invalid_url B (url O) = None ->
  settles (on_connect script) = None ->
  Unmount ∉ meanwhile (on_connect script) ->
  Unmount ∉ meanwhile (on_list script) ->
  let listing := settles (on_list script) in
  let h' := connect E B O (script :: rest) h in
  state h' = ready
  /\ tools h' = catalog (toolsResponse listing)
  /\ resources h' = catalog (resourcesResponse listing)
  /\ prompts h' = catalog (promptsResponse listing)
  /\ error h' = None
  /\ authUrl h' = None
  /\ connectingRef h' = false
  /\ connectAttemptRef h' = 0%nat
  /\ successfulTransportRef h' = Some http
  /\ transportRef h' = Some http
  /\ trace h'
     = (trace h ++ [Connect; Attempt http; NewTransport http;
                    ClientConnect http; Request "tools/list";
                    Request "resources/list"; Request "prompts/list"])%list.
Proof.
  intros Hidle Hmounted Htransport Hurl Hsettle Hquiet Hquiet' listing h'.
  destruct (connect_enter_fresh E B O h Hidle Hmounted Htransport Hurl)
    as (entries & provider & client & st & Henter).
  subst h'. unfold connect. rewrite Henter. cbn [run].
  match goal with
  | |- context [step E B O script (AwaitConnect http) ?h0] =>
      destruct (step_success E B O script http h0)
        as (entries' & snapshot & now & ->);
        [hook_cbn; eauto .. |]
  end.
  name_fields h. hook_cbv. rewrite <- ?app_assoc. repeat split.
Qed.

Lemma connect_reaches_ready_witness :
  let h' :=
    connect Sample.engine Sample.browser Sample.options [Sample.accepted]
      Sample.started in
  state h' = ready
  /\ tools h' = [JStr "search"]
  /\ attempts (trace h') = [http].
Proof.
  intros h'.
  assert (Hquiet : Unmount ∉ [Commit])
    by (rewrite list_elem_of_singleton; discriminate).
  destruct (connect_reaches_ready Sample.engine Sample.browser Sample.options
              Sample.accepted [] Sample.started eq_refl eq_refl eq_refl
              eq_refl eq_refl Hquiet Hquiet)
    as (Hstate & Htools & _ & _ & _ & _ & _ & _ & _ & _ & Htrace).
  fold h' in Hstate, Htools, Htrace.
  split; [exact Hstate |]. split; [exact Htools |].
  rewrite Htrace. reflexivity.
Defined.

(** ** Requests that are fulfilled, or rejected for another reason *)

Lemma forward_resolves (st : ConnState) (cannot starting method failing : string)
    (done : Json -> option string) (exchange : Exchange) (h : Hook)
    (result : Json) :
  guard h = false ->
  isMountedRef h = true ->
  Unmount ∉ meanwhile (on_request exchange) ->
  settles (on_request exchange) = inl result ->
  is_Some (done result) ->
  exists h',
    forward st cannot starting method failing done exchange h
    = (Resolves (Some result), h')
    /\ trace h' = (trace h ++ [Request method])%list
    /\ state h' = state h
    /\ tools h' = tools h /\ resources h' = resources h
    /\ prompts h' = prompts h.
Proof.
  intros Hguard Hmounted Hrequest Hsettle [line Hline].
  unfold forward. rewrite Hguard, Hsettle, Hline. cbv zeta beta iota.
  settle_logs. settle_during Hrequest. settle_logs.
  eexists. split; [reflexivity |].
  name_fields h. hook_cbv. done.
Qed.

(** A fulfilled request is handed to the caller as it is, and the hook
    keeps what it shows: each of the five operations issues its one
    request and resolves with the result; the state and the three
    catalogs are those from before, also after [listResources] and
    [listPrompts], whose results are not stored. *)
Theorem fulfilled_requests_resolve (E : Engine) (B : Browser) (O : Options)
    (captured : ConnState) (name uri : string) (args cursor : option string)
    (exchange : Exchange) (h : Hook) (result : Json) :
  guard h = false ->
  isMountedRef h = true ->
  Unmount ∉ meanwhile (on_request exchange) ->
  settles (on_request exchange) = inl result ->
  let kept method h' :=
    trace h' = (trace h ++ [Request method])%list
    /\ state h' = state h
    /\ tools h' = tools h /\ resources h' = resources h
    /\ prompts h' = prompts h in
  (exists h',
     callTool E B O captured name args exchange h
     = (Resolves (Some result), None, h')
     /\ kept "tools/call" h')
  /\ (exists h',
        readResource captured uri exchange h = (Resolves (Some result), h')
        /\ kept "resources/read" h')
  /\ (exists h',
        getPrompt captured name exchange h = (Resolves (Some result), h')
        /\ kept "prompts/get" h')
  /\ (forall items,
        getProp result "resources" = AccessValue (JArr items) ->
        exists h',
          listResources captured cursor exchange h
          = (Resolves (Some result), h')
          /\ kept "resources/list" h')
  /\ (forall items,
        getProp result "prompts" = AccessValue (JArr items) ->
        exists h',
          listPrompts captured cursor exchange h = (Resolves (Some result), h')
          /\ kept "prompts/list" h').
Proof.
  intros Hguard Hmounted Hrequest Hsettle kept. subst kept. cbv beta.
  split; [| split; [| split; [| split]]].
  - unfold callTool. rewrite Hguard, Hsettle. cbv zeta beta iota.
    settle_logs. settle_during Hrequest. settle_logs.
    eexists. split; [reflexivity |].
    name_fields h. hook_cbv. done.
  - by apply forward_resolves.
  - by apply forward_resolves.
  - intros items Hitems. apply forward_resolves; try done.
    unfold listed. rewrite Hitems. by eexists.
  - intros items Hitems. apply forward_resolves; try done.
    unfold listed. rewrite Hitems. by eexists.
Qed.

Lemma fulfilled_requests_resolve_witness :
  let h := Sample.connected in
  let result := JObj [("resources", JArr [JStr "file:///a"])] in
  let exchange :=
    mkExchange (Sample.quietly (inl result))
      (Sample.quietly (Sample.auth_returns "REDIRECT")) in
  guard h = false
  /\ exists h',
       listResources ready None exchange h = (Resolves (Some result), h')
       /\ trace h' = (trace h ++ [Request "resources/list"])%list
       /\ resources h' = [].
Proof.
  intros h result exchange.
  assert (Hguard : guard h = false) by reflexivity.
  assert (Hmounted : isMountedRef h = true) by reflexivity.
  destruct (fulfilled_requests_resolve Sample.engine Sample.browser
              Sample.options ready "search" "file:///a" None None exchange h
              result Hguard Hmounted (@not_elem_of_nil _ Unmount) eq_refl)
    as (_ & _ & _ & Hlist & _).
  destruct (Hlist [JStr "file:///a"] eq_refl)
    as (h' & Hcall & Htrace & _ & _ & Hresources & _).
  split; [exact Hguard |]. exists h'.
  split; [exact Hcall |]. split; [exact Htrace |].
  rewrite Hresources. reflexivity.
Defined.

(** [callTool] when the request is rejected for a reason that is no
    authorization matter, on a hook whose state is not
    [authenticating]: the error goes to the caller, the authorization
    routine is not called, nothing is reconnected, and the state stays
    as it is. *)
Theorem callTool_rethrows_other_errors (E : Engine) (B : Browser) (O : Options)
    (captured : ConnState) (name : string) (args : option string)
    (exchange : Exchange) (h : Hook) (err : JsError) :
  guard h = false ->
  state h <> authenticating ->
  isMountedRef h = true ->
  Unmount ∉ meanwhile (on_request exchange) ->
  settles (on_request exchange) = inr err ->
  unauthorized err = false ->
  exists h',
    callTool E B O captured name args exchange h = (Rejects err, None, h')
    /\ trace h' = (trace h ++ [Request "tools/call"])%list
    /\ state h' = state h
    /\ connectingRef h' = connectingRef h.
Proof.
  intros Hguard Hstate Hmounted Hrequest Hsettle Hother.
  destruct (guard_passed h Hguard) as [Hready _].
  unfold callTool. rewrite Hguard, Hsettle, Hother. cbv zeta beta iota.
  settle_logs. settle_snapshot Hrequest. settle_logs.
  resolve_with state. resolve. rewrite Hready.
  assert (Hsnapshot :
            bool_decide
              ((if bool_decide (Commit ∈ meanwhile (on_request exchange))
                then state h else ready) = authenticating) = false).
  { apply bool_decide_eq_false_2. by case_match. }
  rewrite Hsnapshot. cbv beta iota delta [negb].
  eexists. split; [reflexivity |].
  name_fields h. hook_cbv. done.
Qed.

Lemma callTool_rethrows_other_errors_witness :
  let h := Sample.connected in
  let err := new_Error "MCP error -32602: Unknown tool" in
  let exchange :=
    mkExchange (mkAwait [Commit] (inr err))
      (Sample.quietly (Sample.auth_returns "REDIRECT")) in
  guard h = false
  /\ unauthorized err = false
  /\ exists h',
       callTool Sample.engine Sample.browser Sample.options ready "search" None
         exchange h = (Rejects err, None, h')
       /\ trace h' = (trace h ++ [Request "tools/call"])%list
       /\ state h' = ready.
Proof.
  intros h err exchange.
  assert (Hguard : guard h = false) by reflexivity.
  assert (Hstate : state h <> authenticating) by discriminate.
  assert (Hmounted : isMountedRef h = true) by reflexivity.
  assert (Hquiet : Unmount ∉ [Commit])
    by (rewrite list_elem_of_singleton; discriminate).
  destruct (callTool_rethrows_other_errors Sample.engine Sample.browser
              Sample.options ready "search" None exchange h err Hguard Hstate
              Hmounted Hquiet eq_refl eq_refl)
    as (h' & Hcall & Htrace & Hkept & _).
  split; [exact Hguard |]. split; [reflexivity |]. exists h'.
  split; [exact Hcall |]. split; [exact Htrace |].
  rewrite Hkept. reflexivity.
Defined.

(** [callTool] when the request is rejected as unauthorized and the
    authorization routine throws in its turn: the connection is failed
    with the message of that error and nothing is reconnected.  As
    after a redirect, the caller gets the error of the request only
    when React has not committed while the routine was pending;
    otherwise the call resolves to [undefined]. *)
Theorem callTool_reauthorization_fails (E : Engine) (B : Browser) (O : Options)
    (captured : ConnState) (name : string) (args : option string)
    (exchange : Exchange) (h : Hook) (err sdkAuthError : JsError) :
  guard h = false ->
  state h = ready ->
  isMountedRef h = true ->
  Unmount ∉ meanwhile (on_request exchange) ->
  Unmount ∉ meanwhile (on_reauth exchange) ->
  is_Some (authProviderRef h) ->
  settles (on_request exchange) = inr err ->
  unauthorized err = true ->
  auth_result (settles (on_reauth exchange)) = inr sdkAuthError ->
  let message := "Re-authentication failed: " +:+ err_message sdkAuthError in
  let settled :=
    if bool_decide (Commit ∈ meanwhile (on_reauth exchange))
    then Resolves None else Rejects err in
  exists h',
    callTool E B O captured name args exchange h = (settled, None, h')
    /\ trace h'
       = (trace h ++ [Request "tools/call"; Auth; FailConnection message])%list
    /\ state h' = failed
    /\ error h' = Some message
    /\ connectingRef h' = false.
Proof.
  intros Hguard Hstate Hmounted Hrequest Hreauth [provider Hprovider]
    Hsettle Hunauthorized Hresult message settled.
  destruct (guard_passed h Hguard) as [Hready _].
  unfold callTool. rewrite Hguard, Hsettle, Hunauthorized, Hresult.
  cbv zeta beta iota.
  settle_logs. settle_snapshot Hrequest. settle_logs.
  resolve. rewrite Hprovider. cbv beta iota.
  settle_snapshot Hreauth. resolve. rewrite Hmounted.
  cbv beta iota delta [negb].
  settle_failure. resolve_with state. resolve. rewrite Hstate, Hready.
  rewrite waiting_for_redirect. settle_choice.
  eexists. split; [reflexivity |].
  name_fields h. hook_cbv. rewrite <- !app_assoc. done.
Qed.

Lemma callTool_reauthorization_fails_witness :
  let h := Sample.connected in
  let call commits :=
    callTool Sample.engine Sample.browser Sample.options ready "search" None
      (mkExchange (Sample.quietly (inr (mkError true "Unauthorized")))
         (mkAwait commits
            (mkAuth (fun ls => ls) (inr (new_Error "invalid_client")))))
      h in
  (exists h',
      call [] = (Rejects (mkError true "Unauthorized"), None, h')
      /\ state h' = failed
      /\ error h' = Some "Re-authentication failed: invalid_client")
  /\ (exists h',
        call [Commit] = (Resolves None, None, h')
        /\ state h' = failed
        /\ error h' = Some "Re-authentication failed: invalid_client").
Proof.
  intros h call.
  assert (Hguard : guard h = false) by reflexivity.
  assert (Hstate : state h = ready) by reflexivity.
  assert (Hmounted : isMountedRef h = true) by reflexivity.
  assert (Hprovider : is_Some (authProviderRef h)) by (by eexists).
  assert (Hquiet : Unmount ∉ [Commit])
    by (rewrite list_elem_of_singleton; discriminate).
  split.
  - destruct (callTool_reauthorization_fails Sample.engine Sample.browser
                Sample.options ready "search" None
                (mkExchange (Sample.quietly (inr (mkError true "Unauthorized")))
                   (mkAwait []
                      (mkAuth (fun ls => ls) (inr (new_Error "invalid_client")))))
                h (mkError true "Unauthorized") (new_Error "invalid_client")
                Hguard Hstate Hmounted (@not_elem_of_nil _ Unmount)
                (@not_elem_of_nil _ Unmount) Hprovider eq_refl eq_refl eq_refl)
      as (h' & Hcall & _ & Hfailed & Herror & _).
    exists h'. split; [exact Hcall |]. split; [exact Hfailed | exact Herror].
  - destruct (callTool_reauthorization_fails Sample.engine Sample.browser
                Sample.options ready "search" None
                (mkExchange (Sample.quietly (inr (mkError true "Unauthorized")))
                   (mkAwait [Commit]
                      (mkAuth (fun ls => ls) (inr (new_Error "invalid_client")))))
                h (mkError true "Unauthorized") (new_Error "invalid_client")
                Hguard Hstate Hmounted (@not_elem_of_nil _ Unmount)
                Hquiet Hprovider eq_refl eq_refl eq_refl)
      as (h' & Hcall & _ & Hfailed & Herror & _).
    exists h'. split; [exact Hcall |]. split; [exact Hfailed | exact Herror].
Defined.

(** ** Manual controls *)

Lemma cleared_getKey (E : Engine) (this : BrowserOAuthClientProvider.t)
    (ls : Storage) (suffix : string) :
  (BrowserOAuthClientProvider.clearStorage E this ls).2
    !! BrowserOAuthClientProvider.getKey this suffix = None.
Proof.
  destruct (clearStorage_spec E this ls) as [Hlookup _].
  by rewrite Hlookup, owned_getKey.
Qed.

Lemma disconnect_loud (closing : option JsError) (h : Hook) :
  isMountedRef h = true ->
  exists entries,
    disconnect false closing h
    = set_log entries
        (set_trace
           (trace h ++ match transportRef h with
                       | Some transportType => [CloseTransport transportType]
                       | None => []
                       end)
           (set_authUrl None
              (set_error None
                 (set_prompts []
                    (set_resources []
                       (set_tools []
                          (set_state discovering
                             (set_transportRef None
                                (set_clientRef None
                                   (set_authTimeoutRef false
                                      (set_connectingRef false h))))))))))).
Proof.
  intros Hmounted. unfold disconnect. cbv zeta beta iota. settle_logs.
  resolve. resolve_with transportRef. rewrite Hmounted.
  cbv beta iota delta [negb andb].
  destruct (transportRef h) as [transportType|] eqn:Htransport;
    [destruct closing |]; settle_logs; name_fields h; hook_cbv;
    eexists; rewrite ?app_nil_r; reflexivity.
Qed.

(** [clearStorage()] of the hook, on a mounted instance that has a
    provider: the connection is dropped and the hook is back to
    [discovering] with empty catalogs, no error and no manual URL; the
    open transport, if any, is closed; the credentials of the provider
    are gone from the store, so that a failure reported afterwards
    finds no authorization URL to offer. *)
Theorem hook_clearStorage_resets (E : Engine) (O : Options)
    (closing : option JsError) (provider : BrowserOAuthClientProvider.t)
    (h : Hook) :
  authProviderRef h = Some provider ->
  isMountedRef h = true ->
  let h' := clearStorage E O closing h in
  (state h' = discovering /\ tools h' = [] /\ resources h' = []
   /\ prompts h' = [] /\ error h' = None /\ authUrl h' = None)
  /\ (clientRef h' = None /\ transportRef h' = None
      /\ connectingRef h' = false)
  /\ trace h'
     = (trace h ++ match transportRef h with
                   | Some transportType => [CloseTransport transportType]
                   | None => []
                   end)%list
  /\ localStorage h'
     = (BrowserOAuthClientProvider.clearStorage E provider (localStorage h)).2
  /\ BrowserOAuthClientProvider.tokens E provider (localStorage h')
     = (None, localStorage h')
  /\ BrowserOAuthClientProvider.getLastAttemptedAuthUrl E provider
       (localStorage h') = None
  /\ forall errorMessage connectionError,
       authUrl (failConnection E errorMessage connectionError h') = None.
Proof.
  intros Hprovider Hmounted h'.
  assert (Hshape : exists entries,
             h' = set_log entries
                    (set_trace
                       (trace h ++ match transportRef h with
                                   | Some transportType =>
                                       [CloseTransport transportType]
                                   | None => []
                                   end)
                       (set_authUrl None
                          (set_error None
                             (set_prompts []
                                (set_resources []
                                   (set_tools []
                                      (set_state discovering
                                         (set_transportRef None
                                            (set_clientRef None
                                               (set_authTimeoutRef false
                                                  (set_connectingRef false
                                                     (set_localStorage
                                                        (BrowserOAuthClientProvider.clearStorage
                                                           E provider
                                                           (localStorage h)).2
                                                        h))))))))))))).
  { subst h'. unfold clearStorage. rewrite Hprovider.
    destruct (BrowserOAuthClientProvider.clearStorage E provider
                (localStorage h)) as [count ls].
    cbv zeta beta iota. settle_logs.
    match goal with
    | |- context [disconnect false closing ?h0] =>
        destruct (disconnect_loud closing h0) as [entries' ->];
          [hook_cbn; assumption |]
    end.
    name_fields h. hook_cbv. by eexists. }
  destruct Hshape as [entries Hshape].
  assert (Hstore : localStorage h'
                   = (BrowserOAuthClientProvider.clearStorage E provider
                        (localStorage h)).2)
    by (rewrite Hshape; reflexivity).
  assert (Hgone : forall suffix,
             LocalStorage.getItem
               (BrowserOAuthClientProvider.getKey provider suffix)
               (localStorage h') = None)
    by (intros suffix; rewrite Hstore; apply cleared_getKey).
  assert (Hurl : BrowserOAuthClientProvider.getLastAttemptedAuthUrl E provider
                   (localStorage h') = None)
    by (unfold BrowserOAuthClientProvider.getLastAttemptedAuthUrl;
        by rewrite Hgone).
  split; [by rewrite Hshape |]. split; [by rewrite Hshape |].
  split; [by rewrite Hshape |]. split; [exact Hstore |].
  split.
  { unfold BrowserOAuthClientProvider.tokens,
      BrowserOAuthClientProvider.read_json.
    cbv zeta. by rewrite Hgone. }
  split; [exact Hurl |].
  intros errorMessage connectionError.
  unfold failConnection. cbv zeta. settle_logs. resolve.
  assert (Hkept : authProviderRef h' = Some provider)
    by (rewrite Hshape; exact Hprovider).
  assert (Hshown : authUrl h' = None) by (by rewrite Hshape).
  destruct (isMountedRef h'); [| exact Hshown].
  resolve_with localStorage. rewrite Hkept. cbn [mbind option_bind].
  rewrite Hurl. hook_cbn. exact Hshown.
Qed.

Lemma hook_clearStorage_resets_witness :
  let h := set_localStorage Sample.shared Sample.connected in
  let h' := clearStorage Sample.engine Sample.options None h in
  authProviderRef h = Some Sample.provider
  /\ state h' = discovering
  /\ trace h' = (trace h ++ [CloseTransport http])%list
  /\ BrowserOAuthClientProvider.tokens Sample.engine Sample.provider
       (localStorage h') = (None, localStorage h')
  /\ BrowserOAuthClientProvider.tokens Sample.engine Sample.provider
       (localStorage h) = (Some (JStr "token-1"), localStorage h).
Proof.
  intros h h'.
  assert (Hprovider : authProviderRef h = Some Sample.provider) by reflexivity.
  assert (Hmounted : isMountedRef h = true) by reflexivity.
  destruct (hook_clearStorage_resets Sample.engine Sample.options None
              Sample.provider h Hprovider Hmounted)
    as ((Hstate & _) & _ & Htrace & _ & Htokens & _).
  fold h' in Hstate, Htrace, Htokens.
  split; [exact Hprovider |]. split; [exact Hstate |].
  split; [exact Htrace |]. split; [exact Htokens |].
  vm_compute. reflexivity.
Defined.

(** The authorization URL that the provider recorded is what the hook
    offers for a manual start: [failConnection] shows it together with
    the error, and [authenticate()], called while the hook waits in
    [authenticating] without showing a URL yet, shows it and starts
    nothing. *)
Theorem manual_url_offered (E : Engine) (B : Browser) (O : Options)
    (provider : BrowserOAuthClientProvider.t) (manualUrl : string) (h : Hook) :
  authProviderRef h = Some provider ->
  isMountedRef h = true ->
  BrowserOAuthClientProvider.getLastAttemptedAuthUrl E provider (localStorage h)
  = Some manualUrl ->
  Js.truthy manualUrl = true ->
  (forall errorMessage connectionError,
      let h' := failConnection E errorMessage connectionError h in
      state h' = failed
      /\ error h' = Some errorMessage
      /\ authUrl h' = Some manualUrl
      /\ connectingRef h' = false)
  /\ (stateRef h = authenticating ->
      forall scripts,
        let h' := authenticate E B O None scripts h in
        authUrl h' = Some manualUrl
        /\ state h' = state h
        /\ trace h' = trace h
        /\ connectingRef h' = connectingRef h).
Proof.
  intros Hprovider Hmounted Hurl Htruthy. split.
  - intros errorMessage connectionError h'. subst h'.
    unfold failConnection. cbv zeta. settle_logs. resolve.
    rewrite Hmounted. resolve_with localStorage. rewrite Hprovider.
    cbn [mbind option_bind]. rewrite Hurl, Htruthy. settle_logs.
    name_fields h. hook_cbv. done.
  - intros Hwaiting scripts h'. subst h'.
    unfold authenticate. cbv zeta. settle_logs. resolve.
    rewrite Hwaiting.
    rewrite (bool_decide_eq_false_2 (authenticating = failed)) by discriminate.
    rewrite (bool_decide_eq_true_2 (authenticating = authenticating)) by done.
    settle_logs. resolve. resolve_with localStorage. rewrite Hprovider.
    cbn [mbind option_bind]. rewrite Hurl, Htruthy.
    cbn [Callback.given andb negb]. settle_logs.
    name_fields h. hook_cbv. done.
Qed.

Lemma manual_url_offered_witness :
  let h :=
    set_stateRef authenticating
      (set_localStorage (Sample.redirected Sample.provider) Sample.started) in
  let manualUrl := "https://as.example/authorize?state=tok-1" in
  authUrl (failConnection Sample.engine "Connection closed unexpectedly." None h)
  = Some manualUrl
  /\ authUrl (authenticate Sample.engine Sample.browser Sample.options None [] h)
     = Some manualUrl.
Proof.
  intros h manualUrl.
  assert (Hprovider : authProviderRef h = Some Sample.provider) by reflexivity.
  assert (Hmounted : isMountedRef h = true) by reflexivity.
  assert (Hurl : BrowserOAuthClientProvider.getLastAttemptedAuthUrl
                   Sample.engine Sample.provider (localStorage h)
                 = Some manualUrl) by (vm_compute; reflexivity).
  destruct (manual_url_offered Sample.engine Sample.browser Sample.options
              Sample.provider manualUrl h Hprovider Hmounted Hurl eq_refl)
    as [Hfail Hmanual].
  destruct (Hfail "Connection closed unexpectedly." None) as (_ & _ & Hshown & _).
  destruct (Hmanual eq_refl []) as (Hshown' & _).
  split; [exact Hshown | exact Hshown'].
Defined.

(** ** After the unmount *)

Lemma addLog_unmounted (level : Level) (message : string) (args : list LogArg)
    (h : Hook) :
  isMountedRef h = false -> addLog level message args h = h.
Proof. intros Hunmounted. unfold addLog. by rewrite Hunmounted. Qed.

Lemma unmount_shape (h : Hook) :
  isMountedRef h = true ->
  exists entries,
    unmount h
    = set_trace
        (trace h ++ match transportRef h with
                    | Some transportType => [CloseTransport transportType]
                    | None => []
                    end)
        (set_transportRef None
           (set_clientRef None
              (set_authTimeoutRef false
                 (set_connectingRef false
                    (set_isMountedRef false (set_log entries h)))))).
Proof.
  intros Hmounted. unfold unmount, disconnect. rewrite Hmounted.
  cbv zeta beta iota. settle_logs. resolve. resolve_with transportRef.
  cbv beta iota delta [andb negb].
  destruct (transportRef h); name_fields h; hook_cbv; eexists;
    rewrite ?app_nil_r; reflexivity.
Qed.

(** Once the instance is unmounted, the hook is inert.  The unmount
    closes the open transport, drops the client and leaves what the
    hook shows as it is; after it [connect()], [retry()], a second
    unmount and a commit change nothing at all, and every request
    operation is refused without a request. *)
Theorem unmounted_hook_is_inert (E : Engine) (B : Browser) (O : Options)
    (scripts : list Script) (captured : ConnState) (name uri : string)
    (args cursor : option string) (exchange : Exchange) (h : Hook) :
  isMountedRef h = true ->
  let h' := unmount h in
  (isMountedRef h' = false /\ clientRef h' = None /\ transportRef h' = None
   /\ connectingRef h' = false)
  /\ (state h' = state h /\ tools h' = tools h /\ resources h' = resources h
      /\ prompts h' = prompts h /\ error h' = error h
      /\ authUrl h' = authUrl h)
  /\ trace h'
     = (trace h ++ match transportRef h with
                   | Some transportType => [CloseTransport transportType]
                   | None => []
                   end)%list
  /\ (connect E B O scripts h' = h' /\ retry E B O scripts h' = h'
      /\ unmount h' = h' /\ interrupt h' Commit = h')
  /\ callTool E B O captured name args exchange h'
     = (Rejects (not_ready captured ("call tool " +:+ Js.quoted name)), None, h')
  /\ listResources captured cursor exchange h'
     = (Rejects (not_ready captured "list resources"), h')
  /\ readResource captured uri exchange h'
     = (Rejects (not_ready captured ("read resource " +:+ Js.quoted uri)), h')
  /\ listPrompts captured cursor exchange h'
     = (Rejects (not_ready captured "list prompts"), h')
  /\ getPrompt captured name exchange h'
     = (Rejects (not_ready captured ("get prompt " +:+ Js.quoted name)), h').
Proof.
  intros Hmounted h'.
  destruct (unmount_shape h Hmounted) as [entries Hshape].
  fold h' in Hshape.
  assert (Hunmounted : isMountedRef h' = false) by (by rewrite Hshape).
  assert (Hclient : clientRef h' = None) by (by rewrite Hshape).
  assert (Hguard : guard h' = true)
    by (unfold guard; rewrite Hclient; apply orb_true_r).
  split; [by rewrite Hshape |]. split; [by rewrite Hshape |].
  split; [by rewrite Hshape |]. split.
  { assert (Hconnect : connect E B O scripts h' = h').
    { unfold connect, connect_enter. rewrite Hunmounted.
      destruct (connectingRef h'); by rewrite addLog_unmounted. }
    repeat split.
    - exact Hconnect.
    - unfold retry. rewrite !addLog_unmounted by exact Hunmounted.
      by destruct (bool_decide _).
    - unfold unmount. by rewrite Hunmounted.
    - cbn [interrupt]. by rewrite Hunmounted. }
  unfold listResources, readResource, listPrompts, getPrompt, forward, callTool.
  rewrite Hguard. repeat split.
Qed.

Lemma unmounted_hook_is_inert_witness :
  let h := Sample.connected in
  let h' := unmount h in
  isMountedRef h = true
  /\ trace h' = (trace h ++ [CloseTransport http])%list
  /\ state h' = ready
  /\ connect Sample.engine Sample.browser Sample.options [Sample.accepted] h'
     = h'
  /\ callTool Sample.engine Sample.browser Sample.options ready "search" None
       (Sample.rejected [] "REDIRECT") h'
     = (Rejects (not_ready ready ("call tool " +:+ Js.quoted "search")),
        None, h').
Proof.
  intros h h'.
  assert (Hmounted : isMountedRef h = true) by reflexivity.
  destruct (unmounted_hook_is_inert Sample.engine Sample.browser Sample.options
              [Sample.accepted] ready "search" "file:///a" None None
              (Sample.rejected [] "REDIRECT") h Hmounted)
    as (_ & (Hstate & _) & Htrace & (Hconnect & _) & Hcall & _).
  fold h' in Hstate, Htrace, Hconnect, Hcall.
  split; [exact Hmounted |]. split; [exact Htrace |].
  split; [rewrite Hstate; reflexivity |]. split; [exact Hconnect | exact Hcall].
Defined.

(** ** The message of the popup *)

(** The listener of the callback message: a message from another
    origin, or of another type, leaves the hook as it is.  A message of
    the own origin that reports a failure fails the connection on a
    mounted hook, with the reported reason (or "Unknown reason." when
    there is none) in the error, and starts no connection. *)
Theorem messageHandler_filters_and_fails (E : Engine) (B : Browser)
    (O : Options) (event : MessageEvent) (scripts : list Script) (h : Hook) :
  (ev_origin event <> origin B \/ ev_type event <> Some "mcp_auth_callback" ->
   messageHandler E B O event scripts h = h)
  /\ (ev_origin event = origin B ->
      ev_type event = Some "mcp_auth_callback" ->
      ev_success event = false ->
      isMountedRef h = true ->
      let message :=
        "Authentication failed in callback: "
        +:+ BrowserOAuthClientProvider.or_default (ev_error event)
              "Unknown reason." in
      let h' := messageHandler E B O event scripts h in
      state h' = failed
      /\ error h' = Some message
      /\ connectingRef h' = false
      /\ trace h' = (trace h ++ [FailConnection message])%list).
Proof.
  split.
  - intros Hforeign. unfold messageHandler.
    destruct (String.eqb_spec (ev_origin event) (origin B)) as [Hown|Hother];
      cbn [negb]; [| reflexivity].
    destruct Hforeign as [Hforeign|Hforeign]; [done |].
    by rewrite bool_decide_eq_false_2.
  - intros Hown Htype Hfailure Hmounted message h'. subst h'.
    unfold messageHandler.
    rewrite Hown, String.eqb_refl, Htype, Hfailure.
    rewrite bool_decide_eq_true_2 by done.
    cbv zeta beta iota delta [negb]. settle_logs. settle_failure.
    name_fields h. hook_cbv. done.
Qed.

Lemma messageHandler_filters_and_fails_witness :
  let h := Sample.connected in
  let h' :=
    messageHandler Sample.engine Sample.browser Sample.options
      Sample.popup_failure [Sample.accepted] h in
  state h' = failed
  /\ error h' = Some "Authentication failed in callback: access_denied"
  /\ trace h'
     = (trace h
        ++ [FailConnection "Authentication failed in callback: access_denied"])%list
  /\ messageHandler Sample.engine Sample.browser Sample.options
       (mkMessage "https://evil.example" (Some "mcp_auth_callback") true None)
       [Sample.accepted] h = h.
Proof.
  intros h h'.
  destruct (messageHandler_filters_and_fails Sample.engine Sample.browser
              Sample.options Sample.popup_failure [Sample.accepted] h)
    as [_ Hfails].
  destruct (Hfails eq_refl eq_refl eq_refl eq_refl)
    as (Hstate & Herror & _ & Htrace).
  destruct (messageHandler_filters_and_fails Sample.engine Sample.browser
              Sample.options
              (mkMessage "https://evil.example" (Some "mcp_auth_callback") true
                 None) [Sample.accepted] h)
    as [Hforeign _].
  split; [exact Hstate |]. split; [exact Herror |]. split; [exact Htrace |].
  apply Hforeign. left. discriminate.
Defined.

(** ** The discipline of the connection cycles *)

(** *** What each function adds to the trace *)

(** An assignment to a variable or a ref leaves the trace alone. *)
Lemma trace_set_state (v : ConnState) (h : Hook) :
  trace (set_state v h) = trace h.
Proof. reflexivity. Qed.

Lemma trace_set_tools (v : list Json) (h : Hook) :
  trace (set_tools v h) = trace h.
Proof. reflexivity. Qed.

Lemma trace_set_resources (v : list Json) (h : Hook) :
  trace (set_resources v h) = trace h.
Proof. reflexivity. Qed.

Lemma trace_set_prompts (v : list Json) (h : Hook) :
  trace (set_prompts v h) = trace h.
Proof. reflexivity. Qed.

Lemma trace_set_error (v : option string) (h : Hook) :
  trace (set_error v h) = trace h.
Proof. reflexivity. Qed.

Lemma trace_set_log (v : list LogEntry) (h : Hook) :
  trace (set_log v h) = trace h.
Proof. reflexivity. Qed.

Lemma trace_set_authUrl (v : option string) (h : Hook) :
  trace (set_authUrl v h) = trace h.
Proof. reflexivity. Qed.

Lemma trace_set_clientRef (v : option Client) (h : Hook) :
  trace (set_clientRef v h) = trace h.
Proof. reflexivity. Qed.

Lemma trace_set_transportRef (v : option TransportType) (h : Hook) :
  trace (set_transportRef v h) = trace h.
Proof. reflexivity. Qed.

Lemma trace_set_authProviderRef (v : option BrowserOAuthClientProvider.t) (h : Hook) :
  trace (set_authProviderRef v h) = trace h.
Proof. reflexivity. Qed.

Lemma trace_set_connectingRef (v : bool) (h : Hook) :
  trace (set_connectingRef v h) = trace h.
Proof. reflexivity. Qed.

Lemma trace_set_isMountedRef (v : bool) (h : Hook) :
  trace (set_isMountedRef v h) = trace h.
Proof. reflexivity. Qed.

Lemma trace_set_connectAttemptRef (v : nat) (h : Hook) :
  trace (set_connectAttemptRef v h) = trace h.
Proof. reflexivity. Qed.

Lemma trace_set_authTimeoutRef (v : bool) (h : Hook) :
  trace (set_authTimeoutRef v h) = trace h.
Proof. reflexivity. Qed.

Lemma trace_set_stateRef (v : ConnState) (h : Hook) :
  trace (set_stateRef v h) = trace h.
Proof. reflexivity. Qed.

Lemma trace_set_successfulTransportRef (v : option TransportType) (h : Hook) :
  trace (set_successfulTransportRef v h) = trace h.
Proof. reflexivity. Qed.

Lemma trace_set_localStorage (v : Storage) (h : Hook) :
  trace (set_localStorage v h) = trace h.
Proof. reflexivity. Qed.

Lemma trace_set_clock (v : Z) (h : Hook) :
  trace (set_clock v h) = trace h.
Proof. reflexivity. Qed.

Lemma trace_record (e : Event) (h : Hook) :
  trace (record e h) = (trace h ++ [e])%list.
Proof. reflexivity. Qed.

Lemma trace_addLog (level : Level) (message : string) (args : list LogArg)
    (h : Hook) :
  trace (addLog level message args h) = trace h.
Proof. unfold addLog. by destruct (isMountedRef h). Qed.

Create Rewrite HintDb trace.

#[local] Hint Rewrite trace_set_state trace_set_tools trace_set_resources trace_set_prompts trace_set_error trace_set_log trace_set_authUrl trace_set_clientRef trace_set_transportRef trace_set_authProviderRef trace_set_connectingRef trace_set_isMountedRef trace_set_connectAttemptRef trace_set_authTimeoutRef trace_set_stateRef trace_set_successfulTransportRef trace_set_localStorage trace_set_clock trace_record trace_addLog : trace.

Lemma trace_failConnection (E : Engine) (errorMessage : string)
    (connectionError : option JsError) (h : Hook) :
  trace (failConnection E errorMessage connectionError h)
  = (trace h ++ [FailConnection errorMessage])%list.
Proof.
  unfold failConnection. cbv zeta.
  repeat case_match; autorewrite with trace; reflexivity.
Qed.

Lemma marks_app (a b : list Event) :
  marks (a ++ b) = (marks a ++ marks b)%list.
Proof. apply omap_app. Qed.

Lemma marks_disconnect (quiet : bool) (closing : option JsError) (h : Hook) :
  marks (trace (disconnect quiet closing h)) = marks (trace h).
Proof.
  unfold disconnect. cbv zeta.
  repeat case_match; autorewrite with trace; rewrite ?marks_app;
    cbn [marks omap]; rewrite ?app_nil_r; reflexivity.
Qed.

Lemma marks_interrupt (h : Hook) (i : Interrupt) :
  marks (trace (interrupt h i)) = marks (trace h).
Proof.
  destruct i; cbn [interrupt];
    [destruct (isMountedRef h); by autorewrite with trace | | done].
  unfold unmount. destruct (isMountedRef h); [| done].
  rewrite marks_disconnect. by autorewrite with trace.
Qed.

Lemma marks_during {A} (a : Await A) (h : Hook) :
  marks (trace (during a h)) = marks (trace h).
Proof.
  unfold during. generalize (meanwhile a) as l. intros l. revert h.
  induction l as [|i l IH]; intros h; [done |].
  cbn [fold_left]. by rewrite IH, marks_interrupt.
Qed.

(** The marks of a trace given by calls on an arbitrary hook. *)
Ltac trace_norm :=
  repeat first
    [ progress autorewrite with trace
    | rewrite trace_failConnection
    | rewrite marks_during
    | rewrite marks_disconnect
    | rewrite marks_app
    | rewrite app_nil_r
    | rewrite <- app_assoc ];
  repeat match goal with
  | |- context [marks [?e]] =>
      let v := eval cbv [marks omap] in (marks [e]) in
      change (marks [e]) with v
  end;
  rewrite ?app_nil_r; cbn [app].

Lemma marks_create (E : Engine) (B : Browser) (O : Options)
    (transportType : TransportType) (h : Hook) :
  marks (trace (create E B O transportType h).2) = marks (trace h).
Proof.
  unfold create. case_match; cbn [snd]; trace_norm; reflexivity.
Qed.

(** An attempt is one mark; it either fails at once or is suspended on
    its own transport. *)
Lemma marks_try_enter (E : Engine) (B : Browser) (O : Options)
    (transportType : TransportType) (h : Hook) :
  exists result h',
    try_enter E B O transportType h = (result, h')
    /\ marks (trace h') = (marks (trace h) ++ [Tried transportType])%list
    /\ match result with
       | inl result => result = r_failed
       | inr suspended => leg suspended = transportType
       end.
Proof.
  unfold try_enter. cbv zeta.
  repeat case_match; subst; (eexists _, _; split; [reflexivity |]);
    repeat match goal with
    | H : create E B O ?t ?h0 = (_, ?h1) |- _ =>
        let Hm := fresh "Hm" in
        pose proof (marks_create E B O t h0) as Hm;
        rewrite H in Hm; cbn [snd] in Hm; clear H;
        trace_norm; rewrite ?Hm; clear Hm
    end;
    trace_norm; split; reflexivity.
Qed.

Lemma marks_conclude (E : Engine) (finalStatus : TryResult) (h : Hook) :
  marks (trace (conclude E finalStatus h)) = marks (trace h).
Proof.
  unfold conclude. destruct finalStatus; trace_norm; reflexivity.
Qed.

(** After the primary attempt: nothing more, or, on "fallback" only,
    the secondary attempt. *)
Lemma marks_after_http (E : Engine) (B : Browser) (O : Options)
    (httpResult : TryResult) (h : Hook) :
  exists next h',
    after_http E B O httpResult h = (next, h')
    /\ ((marks (trace h') = marks (trace h) /\ next = None)
        \/ (httpResult = r_fallback
            /\ marks (trace h') = (marks (trace h) ++ [Tried sse])%list
            /\ follows sse next)).
Proof.
  unfold after_http.
  destruct (bool_decide (httpResult = r_fallback)) eqn:Hfallback; cbn [andb];
    [apply bool_decide_eq_true_1 in Hfallback
    | eexists _, _; split; [reflexivity |]; left;
      by rewrite marks_conclude].
  destruct (isMountedRef h && negb (bool_decide (stateRef h = authenticating)));
    [| eexists _, _; split; [reflexivity |]; left; by rewrite marks_conclude].
  destruct (marks_try_enter E B O sse h)
    as (result & h' & -> & Hmarks & Hresult).
  destruct result as [sseResult|suspended]; eexists _, _;
    (split; [reflexivity |]); right; rewrite ?marks_conclude; done.
Qed.

(** [connect()] up to its first [await]: nothing, or an entry and its
    primary attempt. *)
Lemma marks_connect_enter (E : Engine) (B : Browser) (O : Options) (h : Hook) :
  exists next h',
    connect_enter E B O h = (next, h')
    /\ ((marks (trace h') = marks (trace h) /\ next = None)
        \/ (marks (trace h') = (marks (trace h) ++ [Entered; Tried http])%list
            /\ follows http next)).
Proof.
  unfold connect_enter.
  destruct (connectingRef h);
    [eexists _, _; split; [reflexivity |]; left; by rewrite trace_addLog |].
  destruct (negb (isMountedRef h));
    [eexists _, _; split; [reflexivity |]; left; by rewrite trace_addLog |].
  cbv zeta.
  match goal with
  | |- context [try_enter E B O http ?X] =>
      destruct (marks_try_enter E B O http X)
        as (result & h' & Heq & Hmarks & Hresult)
  end.
  rewrite Heq. clear Heq.
  assert (Hentered :
            marks (trace h') = (marks (trace h) ++ [Entered; Tried http])%list).
  { rewrite Hmarks. clear Hmarks Hresult.
    repeat case_match; trace_norm; reflexivity. }
  clear Hmarks. destruct result as [httpResult|suspended].
  - subst httpResult.
    destruct (marks_after_http E B O r_failed h')
      as (next & h'' & -> & [[Hsame ->]|[? _]]); [| done].
    eexists _, _. split; [reflexivity |]. right. by rewrite Hsame.
  - eexists _, _. split; [reflexivity |]. right. done.
Qed.

(** The [catch] block of an attempt: it adds no mark, unless the
    authorization routine returns "AUTHORIZED": then [connect()] is
    entered anew, and the attempt itself returns "failed". *)
Lemma marks_on_connect_error (E : Engine) (B : Browser) (O : Options)
    (transportType : TransportType) (connectErr : JsError)
    (authorizing : Await AuthSettlement) (h : Hook) :
  exists result restarted h',
    on_connect_error E B O transportType connectErr authorizing h
    = (result, restarted, h')
    /\ ((marks (trace h') = marks (trace h) /\ restarted = None)
        \/ (marks (trace h') = (marks (trace h) ++ [Entered; Tried http])%list
            /\ result = r_failed
            /\ follows http restarted)).
Proof.
  unfold on_connect_error. cbv zeta.
  match goal with
  | |- context [connect_enter E B O ?X] =>
      destruct (marks_connect_enter E B O X) as (next & h' & Heq & Hcases);
      rewrite Heq; clear Heq;
      assert (Hbefore : marks (trace X) = marks (trace h))
        by (repeat case_match; trace_norm; reflexivity);
      rewrite Hbefore in Hcases; clear Hbefore
  end.
  repeat case_match; subst; (eexists _, _, _; split; [reflexivity |]);
    first
      [ left; split; [trace_norm; reflexivity | reflexivity]
      | destruct Hcases as [[Hsame ->]|[Hentered Hnext]];
        [left; split; [exact Hsame | reflexivity]
        | right; split; [exact Hentered | split; [reflexivity | exact Hnext]]] ].
Qed.

Ltac use_on_connect_error h :=
  repeat match goal with
  | |- context [on_connect_error ?E ?B ?O ?t ?e ?a ?X] =>
      let Heq := fresh "Heq" in
      let Hcases := fresh "Hcases" in
      let Hbefore := fresh "Hbefore" in
      destruct (marks_on_connect_error E B O t e a X)
        as (? & ? & ? & Heq & Hcases);
      rewrite Heq; clear Heq;
      assert (Hbefore : marks (trace X) = marks (trace h))
        by (repeat case_match; trace_norm; reflexivity);
      rewrite Hbefore in Hcases; clear Hbefore
  end.

Lemma marks_loaded (what : string) (set : list Json -> Hook -> Hook)
    (response : list Json + string) (h : Hook) :
  (forall v h, trace (set v h) = trace h) ->
  trace (loaded what set response h) = trace h.
Proof.
  intros Hset. unfold loaded. destruct response;
    by rewrite ?trace_addLog, Hset, ?trace_addLog.
Qed.

(** From [await clientRef.current.connect] on. *)
Lemma marks_connect_client (E : Engine) (B : Browser) (O : Options)
    (transportType : TransportType) (script : Script) (h : Hook) :
  exists result restarted h',
    connect_client E B O transportType script h = (result, restarted, h')
    /\ ((marks (trace h') = marks (trace h) /\ restarted = None)
        \/ (marks (trace h') = (marks (trace h) ++ [Entered; Tried http])%list
            /\ result = r_failed
            /\ follows http restarted)).
Proof.
  unfold connect_client. cbv zeta.
  destruct (settles (on_connect script)) as [connectErr|].
  - use_on_connect_error h. eauto.
  - use_on_connect_error h.
    repeat case_match; subst; eauto;
      (eexists _, _, _; split; [reflexivity |]); left;
      (split; [| reflexivity]);
      rewrite ?trace_set_connectAttemptRef, ?trace_set_state,
        ?(marks_loaded "prompts" set_prompts),
        ?(marks_loaded "resources" set_resources),
        ?(marks_loaded "tools" set_tools)
        by (first [exact trace_set_prompts | exact trace_set_resources
                  | exact trace_set_tools]);
      trace_norm; reflexivity.
Qed.

(** An attempt from the [await] it is suspended at to its end. *)
Lemma marks_try_resume (E : Engine) (B : Browser) (O : Options)
    (suspended : Suspended) (script : Script) (h : Hook) :
  exists result restarted h',
    try_resume E B O suspended script h = (result, restarted, h')
    /\ ((marks (trace h') = marks (trace h) /\ restarted = None)
        \/ (marks (trace h') = (marks (trace h) ++ [Entered; Tried http])%list
            /\ result = r_failed
            /\ follows http restarted)).
Proof.
  destruct suspended as [transportType|transportType]; cbn [try_resume];
    [| apply marks_connect_client].
  cbv zeta.
  match goal with
  | |- context [create E B O transportType ?X] =>
      pose proof (marks_create E B O transportType X) as Hcreated;
      assert (Hbefore : marks (trace X) = marks (trace h))
        by (repeat case_match; trace_norm; reflexivity);
      rewrite Hbefore in Hcreated; clear Hbefore;
      destruct (create E B O transportType X) as [[] created];
      cbn [snd] in Hcreated
  end.
  - destruct (clientRef _).
    + match goal with
      | |- context [connect_client E B O transportType script ?X] =>
          destruct (marks_connect_client E B O transportType script X)
            as (result & restarted & h' & -> & Hcases);
          assert (Hbefore : marks (trace X) = marks (trace h))
            by (trace_norm; exact Hcreated);
          rewrite Hbefore in Hcases; clear Hbefore
      end.
      eauto.
    + match goal with
      | |- context [on_connect_error E B O ?t ?e ?a ?X] =>
          destruct (marks_on_connect_error E B O t e a X)
            as (result & restarted & h' & -> & Hcases);
          assert (Hbefore : marks (trace X) = marks (trace h))
            by (trace_norm; exact Hcreated);
          rewrite Hbefore in Hcases; clear Hbefore
      end.
      eauto.
  - eexists _, _, _. split; [reflexivity |]. left. done.
Qed.

Lemma advance_app (p : Phase) (l1 l2 : list Mark) :
  advance p (l1 ++ l2) = advance p l1 ≫= fun p => advance p l2.
Proof.
  revert p. induction l1 as [|m l1 IH]; intros p; [reflexivity |].
  cbn [app advance]. destruct (advance_one p m); [apply IH | reflexivity].
Qed.

(** One settlement: the marks it adds take the cycle from the phase of
    the suspended attempt to the phase of the attempt suspended next. *)
Lemma marks_step (E : Engine) (B : Browser) (O : Options)
    (script : Script) (suspended : Suspended) (h : Hook) :
  exists next h' added p,
    step E B O script suspended h = (next, h')
    /\ marks (trace h') = (marks (trace h) ++ added)%list
    /\ advance (phase_of (leg suspended)) added = Some p
    /\ p <> Entering
    /\ (forall s, next = Some s -> phase_of (leg s) = p).
Proof.
  unfold step.
  destruct (marks_try_resume E B O suspended script h)
    as (result & restarted & h1 & -> & Hresumed).
  destruct (leg suspended) eqn:Hleg.
  - destruct (marks_after_http E B O result h1)
      as (next & h2 & -> & Hafter).
    destruct Hresumed as [[Hsame ->]|(Hentered & -> & Hrestarted)].
    + destruct Hafter as [[Hsame' ->]|(_ & Htried & Hnext)].
      * eexists _, _, [], _. rewrite app_nil_r.
        repeat split; [congruence | done | done].
      * rewrite Hsame in Htried.
        destruct next as [s|]; eexists _, _, _, _;
          (split; [reflexivity |]); (split; [exact Htried |]);
          (split; [reflexivity |]); (split; [done |]).
        -- intros ? [= <-]. cbn in Hnext. by rewrite Hnext.
        -- done.
    + destruct Hafter as [[Hsame' ->]|([=] & _)].
      rewrite Hentered in Hsame'.
      eexists _, _, _, _. split; [reflexivity |].
      split; [exact Hsame' |]. split; [reflexivity |]. split; [done |].
      intros s ->. cbn in Hrestarted. by rewrite Hrestarted.
  - destruct Hresumed as [[Hsame ->]|(Hentered & -> & Hrestarted)].
    + eexists _, _, [], _. rewrite app_nil_r.
      split; [reflexivity |]. repeat split; [by rewrite marks_conclude | done..].
    + eexists _, _, _, _. split; [reflexivity |].
      split; [rewrite marks_conclude; exact Hentered |].
      split; [reflexivity |]. split; [done |].
      intros s ->. cbn in Hrestarted. by rewrite Hrestarted.
Qed.

(** The settlements one after another. *)
Lemma marks_run (E : Engine) (B : Browser) (O : Options)
    (scripts : list Script) (suspended : Suspended) (h : Hook) :
  exists added p,
    marks (trace (run E B O scripts suspended h))
    = (marks (trace h) ++ added)%list
    /\ advance (phase_of (leg suspended)) added = Some p
    /\ p <> Entering.
Proof.
  revert suspended h.
  induction scripts as [|script scripts IH]; intros suspended h; cbn [run].
  - exists [], (phase_of (leg suspended)). rewrite app_nil_r.
    repeat split. by destruct (leg suspended).
  - destruct (marks_step E B O script suspended h)
      as (next & h' & added & p & -> & Hmarks & Hadvance & Hp & Hnext).
    destruct next as [s|]; [| by eexists _, _].
    destruct (IH s h') as (added' & p' & Hmarks' & Hadvance' & Hp').
    exists (added ++ added')%list, p'.
    split; [by rewrite Hmarks', Hmarks, app_assoc |].
    split; [| done].
    rewrite advance_app, Hadvance. cbn.
    by rewrite <- (Hnext s eq_refl).
Qed.

Lemma marks_connect (E : Engine) (B : Browser) (O : Options)
    (scripts : list Script) (h : Hook) :
  exists added,
    marks (trace (connect E B O scripts h)) = (marks (trace h) ++ added)%list
    /\ disciplined added.
Proof.
  unfold connect.
  destruct (marks_connect_enter E B O h)
    as (next & h' & -> & [[Hsame ->]|[Hentered Hnext]]).
  - exists []. rewrite app_nil_r. split; [done |]. by exists Resting.
  - destruct next as [s|].
    + destruct (marks_run E B O scripts s h')
        as (added & p & Hmarks & Hadvance & Hp).
      exists ([Entered; Tried http] ++ added)%list.
      split; [by rewrite Hmarks, Hentered, <- app_assoc |].
      exists p. split; [| done].
      cbn in Hnext. rewrite Hnext in Hadvance. exact Hadvance.
    + exists [Entered; Tried http]. split; [done |]. by exists Primary.
Qed.

(** [callTool]: no mark, or, when the authorization routine returns
    "AUTHORIZED", an entry and its primary attempt. *)
Lemma marks_callTool (E : Engine) (B : Browser) (O : Options)
    (captured : ConnState) (name : string) (args : option string)
    (exchange : Exchange) (h : Hook) :
  exists settled restarted h',
    callTool E B O captured name args exchange h = (settled, restarted, h')
    /\ ((marks (trace h') = marks (trace h) /\ restarted = None)
        \/ (marks (trace h') = (marks (trace h) ++ [Entered; Tried http])%list
            /\ follows http restarted)).
Proof.
  unfold callTool. cbv zeta.
  destruct (guard h);
    [eexists _, _, _; split; [reflexivity |]; left; done |].
  destruct (settles (on_request exchange)) as [result|err];
    [eexists _, _, _; split; [reflexivity |]; left;
     split; [trace_norm; reflexivity | reflexivity] |].
  cbv beta.
  match goal with
  | |- context [connect_enter E B O ?X] =>
      destruct (marks_connect_enter E B O X) as (next & h' & Heq & Hcases);
      rewrite Heq; clear Heq;
      assert (Hbefore : marks (trace X) = marks (trace h))
        by (repeat case_match; trace_norm; reflexivity);
      rewrite Hbefore in Hcases; clear Hbefore
  end.
  repeat case_match; subst; (eexists _, _, _; split; [reflexivity |]);
    first
      [ left; split; [trace_norm; reflexivity | reflexivity]
      | destruct Hcases as [[Hsame ->]|[Hentered Hnext]];
        [left; split; [exact Hsame | reflexivity]
        | right; split; [exact Hentered | exact Hnext]] ].
Qed.

